(** * XZCrawler: a shallow embedding of [xianzhi_crawler.js] and its checked properties

    The crawler is a single JavaScript class, [XianzhiCrawler].  This file
    embeds the parts of it that carry logic: the inline-code, table and
    code-card converters of the Markdown engine, the crawl loop with its
    window filter, de-duplication, retry and pagination cut-off, the article
    writer, and the image localizer with its downloader.

    Conventions.
    - A JavaScript string is the list of its UTF-16 code units ([jsstring]);
      every regular expression of the source that is modelled works code unit
      by code unit, so the embedding is exact on all strings.
    - Collaborators that are not code of the repository (the JSDOM parser,
      [Date] parsing, SHA-1, the network, the clock) are fields of small
      interface classes; a theorem holds for every implementation of them and
      the examples instantiate them.
    - Code that awaits is cut at its [await]s: what runs between two awaits is
      one transition on the crawler state, and the outcome of the awaited
      operation is an input of the next transition.

    The first part of the file holds the model, the second part the proofs. *)

From Stdlib Require Import ZArith NArith Lia Ascii String.
From stdpp Require Import base option list gmap sets strings.

Set Default Proof Using "Type".
Set Warnings "-register-all".
Local Open Scope N_scope.
Local Open Scope list_scope.

(** Closed statements about concrete inputs are settled by evaluation, one
    conjunct at a time. *)
Ltac evaluate :=
  repeat match goal with |- _ /\ _ => split end;
  vm_compute; first [reflexivity | discriminate | done].

(** * Part I: the model *)

(** ** JavaScript strings *)

Module Js.

Definition jsstring := list N.

(** A string literal of the source that is pure ASCII. *)
Fixpoint lit (s : string) : jsstring :=
  match s with
  | EmptyString => []
  | String a s' => N_of_ascii a :: lit s'
  end.

Arguments lit : simpl never.

Definition LF : N := 10.
Definition QUOTE : N := 34.    (* the double quote *)
Definition CR : N := 13.
Definition SP : N := 32.
Definition BT : N := 96.       (* the backtick *)
Definition NBSP : N := 0xA0.
Definition ZWSP : N := 0x200B.
Definition BOM : N := 0xFEFF.

Definition streq (a b : jsstring) : bool := bool_decide (a = b).

(** [!s]: the empty string is the only falsy string. *)
Definition falsy (s : jsstring) : bool :=
  match s with [] => true | _ => false end.

(** [a || b] on strings. *)
Definition orElse (a b : jsstring) : jsstring :=
  if falsy a then b else a.

(** [s.startsWith(p)], [s.endsWith(p)], [s.includes(p)]. *)
Fixpoint startsWith (s p : jsstring) {struct p} : bool :=
  match p, s with
  | [], _ => true
  | _ :: _, [] => false
  | c :: p', d :: s' => (c =? d) && startsWith s' p'
  end.

Definition endsWith (s p : jsstring) : bool :=
  startsWith (reverse s) (reverse p).

Fixpoint includes (s p : jsstring) : bool :=
  startsWith s p ||
  match s with
  | [] => false
  | _ :: s' => includes s' p
  end.

(** [p] occurs in [s] as a contiguous substring. *)
Definition occursIn (p s : jsstring) : Prop :=
  exists a b, s = a ++ p ++ b.

(** [sep.join(parts)]. *)
Fixpoint join (sep : jsstring) (parts : list jsstring) : jsstring :=
  match parts with
  | [] => []
  | [p] => p
  | p :: rest => p ++ sep ++ join sep rest
  end.

(** The characters matched by [\s] in a regular expression, which are also
    the ones [trim], [trimEnd] remove: WhiteSpace and LineTerminator of
    ECMAScript. *)
Definition isWhiteSpace (c : N) : bool :=
  ((9 <=? c) && (c <=? 13)) || (c =? 32) || (c =? 0xA0) || (c =? 0x1680)
  || ((0x2000 <=? c) && (c <=? 0x200A))
  || (c =? 0x2028) || (c =? 0x2029) || (c =? 0x202F) || (c =? 0x205F)
  || (c =? 0x3000) || (c =? 0xFEFF).

Fixpoint trimStart (s : jsstring) : jsstring :=
  match s with
  | c :: s' => if isWhiteSpace c then trimStart s' else s
  | [] => []
  end.

Definition trimEnd (s : jsstring) : jsstring :=
  reverse (trimStart (reverse s)).

Definition trim (s : jsstring) : jsstring := trimEnd (trimStart s).

(** [s.substring(0, n)]. *)
Definition substring0 (n : nat) (s : jsstring) : jsstring := take n s.

(** [s.replace(p, r)] with a string pattern [p]: only the first occurrence
    of [p] is replaced ([r] holds no [$] pattern at the call sites). *)
Fixpoint replaceFirst (p r s : jsstring) : jsstring :=
  if startsWith s p then r ++ drop (length p) s
  else match s with
       | [] => []
       | c :: s' => c :: replaceFirst p r s'
       end.

(** [s.split(p).join(r)] for a non-empty [p]: every occurrence of [p],
    found left to right without overlap, is replaced by [r].  [skip] counts
    the code units of the occurrence being consumed. *)
Fixpoint splitJoinFrom (skip : nat) (p r s : jsstring) : jsstring :=
  match s with
  | [] => []
  | c :: s' =>
      match skip with
      | S k => splitJoinFrom k p r s'
      | O => if startsWith s p
             then r ++ splitJoinFrom (pred (length p)) p r s'
             else c :: splitJoinFrom O p r s'
      end
  end.

Definition splitJoin (p r s : jsstring) : jsstring :=
  match p with
  | [] => s
  | _ => splitJoinFrom 0 p r s
  end.

(** [s.split('\n')]: the pieces between line feeds; never empty. *)
Fixpoint splitLines (cur : jsstring) (s : jsstring) : list jsstring :=
  match s with
  | [] => [reverse cur]
  | c :: s' => if c =? LF then reverse cur :: splitLines [] s'
               else splitLines (c :: cur) s'
  end.

(** [s.replace(/c/g, r)] for a single code unit [c]. *)
Definition replaceChar (c : N) (r : jsstring) (s : jsstring) : jsstring :=
  flat_map (fun d => if d =? c then r else [d]) s.

(** Matching under the [i] flag of a pattern made of ASCII characters: the
    flag folds the ASCII letters only, since without the [u] flag a
    character beyond ASCII is never folded to an ASCII one. *)
Definition lowerAscii (c : N) : N :=
  if (65 <=? c) && (c <=? 90) then c + 32 else c.

Fixpoint startsWithCI (s p : jsstring) {struct p} : bool :=
  match p, s with
  | [], _ => true
  | _ :: _, [] => false
  | c :: p', d :: s' => (lowerAscii c =? lowerAscii d) && startsWithCI s' p'
  end.

(** The index of the first code unit of [s] that satisfies [f]. *)
Fixpoint indexWhere (f : N -> bool) (s : jsstring) : option nat :=
  match s with
  | [] => None
  | c :: s' => if f c then Some O else S <$> indexWhere f s'
  end.

(** The index of the first occurrence of [p] in [s], exact or under [i]. *)
Fixpoint indexOf (p s : jsstring) : option nat :=
  if startsWith s p then Some O
  else match s with
       | [] => None
       | _ :: s' => S <$> indexOf p s'
       end.

Fixpoint indexOfCI (p s : jsstring) : option nat :=
  if startsWithCI s p then Some O
  else match s with
       | [] => None
       | _ :: s' => S <$> indexOfCI p s'
       end.

(** [s.replace(re, ...)] for a regular expression with the [g] flag.
    [at_ t] tells whether [re] matches at the start of [t]: it gives the
    length of the match, which is positive for every expression modelled
    here, and the replacement text.  Matches are taken left to right and
    the search resumes after each match; [skip] counts the code units of
    the current match that are still to be consumed. *)
Fixpoint replaceAllFrom (at_ : jsstring -> option (nat * jsstring))
    (skip : nat) (s : jsstring) : jsstring :=
  match s with
  | [] => []
  | c :: s' =>
      match skip with
      | S k => replaceAllFrom at_ k s'
      | O => match at_ s with
             | Some (S k, r) => r ++ replaceAllFrom at_ k s'
             | _ => c :: replaceAllFrom at_ O s'
             end
      end
  end.

Definition replaceAll (at_ : jsstring -> option (nat * jsstring))
    (s : jsstring) : jsstring :=
  replaceAllFrom at_ 0 s.

(** [s.replace(/p/g, r)] for a literal, non-empty [p]. *)
Definition replaceLit (p r s : jsstring) : jsstring :=
  replaceAll (fun t => if startsWith t p then Some (length p, r) else None) s.

(** The length of the longest prefix of [s] whose code units satisfy [f]:
    what [[...]*] consumes. *)
Fixpoint spanLen (f : N -> bool) (s : jsstring) : nat :=
  match s with
  | c :: s' => if f c then S (spanLen f s') else O
  | [] => O
  end.

(** [s.replace(/\s+/g, ' ')]. *)
Definition collapseWhiteSpace (s : jsstring) : jsstring :=
  replaceAll (fun t => match spanLen isWhiteSpace t with
                       | O => None
                       | n => Some (n, [SP])
                       end) s.

(** ASCII decimal digits of a natural number, as [String(n)] prints it. *)
Fixpoint digitsFuel (fuel : nat) (n : N) (acc : jsstring) : jsstring :=
  match fuel with
  | O => acc
  | S f => let acc' := (48 + n mod 10) :: acc in
           if n / 10 =? 0 then acc' else digitsFuel f (n / 10) acc'
  end.

Definition ofNat (n : nat) : jsstring :=
  digitsFuel (S n) (N.of_nat n) [].

End Js.

(** ** The DOM as the converters see it

    The converters receive trees built by the JSDOM parser.  An element
    carries its lower-case local name (the source lower-cases [tagName]
    before every comparison), its attributes in source order with unique
    names, and its child nodes. *)

Module Dom.
Import Js.

Inductive node : Type :=
| Text (data : jsstring)                                  (* nodeType 3 *)
| Element (tag : jsstring) (attrs : list (jsstring * jsstring))
          (children : list node)                          (* nodeType 1 *)
| Comment (data : jsstring).                              (* nodeType 8 *)

Definition childNodes (n : node) : list node :=
  match n with
  | Element _ _ cs => cs
  | _ => []
  end.

Definition isElement (n : node) : bool :=
  match n with Element _ _ _ => true | _ => false end.

(** The text of the Text descendants, in document order. *)
Fixpoint descendantText (n : node) : jsstring :=
  match n with
  | Text d => d
  | Element _ _ cs => flat_map descendantText cs
  | Comment _ => []
  end.

(** [node.textContent]. *)
Definition textContent (n : node) : jsstring :=
  match n with
  | Comment d => d
  | _ => descendantText n
  end.

(** [element.getAttribute(name)]; [None] is JavaScript's [null]. *)
Fixpoint lookupAttr (name : jsstring) (attrs : list (jsstring * jsstring))
  : option jsstring :=
  match attrs with
  | [] => None
  | (k, v) :: rest => if streq k name then Some v else lookupAttr name rest
  end.

Definition getAttribute (name : jsstring) (n : node) : option jsstring :=
  match n with
  | Element _ attrs _ => lookupAttr name attrs
  | _ => None
  end.

(** The tokens of a [class] attribute: split at ASCII white space. *)
Definition isAsciiSpace (c : N) : bool :=
  (c =? 9) || (c =? 10) || (c =? 12) || (c =? 13) || (c =? 32).

Fixpoint tokensFrom (cur : jsstring) (s : jsstring) : list jsstring :=
  match s with
  | [] => match cur with [] => [] | _ => [reverse cur] end
  | c :: s' =>
      if isAsciiSpace c
      then match cur with
           | [] => tokensFrom [] s'
           | _ => reverse cur :: tokensFrom [] s'
           end
      else tokensFrom (c :: cur) s'
  end.

Definition classList (n : node) : list jsstring :=
  match getAttribute (lit "class") n with
  | Some v => tokensFrom [] v
  | None => []
  end.

(** The simple selectors the source uses, and comma-separated lists of them. *)
Inductive simple : Type :=
| ByTag (t : jsstring)          (* [tr] *)
| ByClass (c : jsstring)        (* [.ne-tr] *)
| ByAttr (a : jsstring)         (* [[data-language]] *)
| ByTagClass (t c : jsstring).  (* [table.__root] *)

Definition matchesSimple (s : simple) (n : node) : bool :=
  match n with
  | Element tag attrs _ =>
      match s with
      | ByTag t => streq tag t
      | ByClass c => existsb (streq c) (classList n)
      | ByAttr a => match lookupAttr a attrs with Some _ => true | None => false end
      | ByTagClass t c => streq tag t && existsb (streq c) (classList n)
      end
  | _ => false
  end.

Definition matchesAny (sel : list simple) (n : node) : bool :=
  existsb (fun s => matchesSimple s n) sel.

(** A node followed by its descendants, in document order. *)
Fixpoint subtree (n : node) : list node :=
  n :: match n with
       | Element _ _ cs => flat_map subtree cs
       | _ => []
       end.

Definition descendants (n : node) : list node :=
  flat_map subtree (childNodes n).

(** [root.querySelectorAll(sel)] and [root.querySelector(sel)]. *)
Definition querySelectorAll (sel : list simple) (root : node) : list node :=
  filter (fun n => matchesAny sel n) (descendants root).

Definition querySelector (sel : list simple) (root : node) : option node :=
  head (querySelectorAll sel root).

(** [root.querySelector('a b')]: the first [b] element, in document order,
    that lies below an [a] element of the tree. *)
Fixpoint subtreeBelow (a : simple) (below : bool) (n : node)
  : list (bool * node) :=
  (below, n) ::
  match n with
  | Element _ _ cs =>
      flat_map (subtreeBelow a (below || matchesSimple a n)) cs
  | _ => []
  end.

Definition querySelectorDescendant (a b : simple) (root : node) : option node :=
  head (omap (fun bn => if (bn.1 : bool) && matchesSimple b bn.2
                        then Some bn.2 else None)
             (flat_map (subtreeBelow a false) (childNodes root))).

End Dom.

(** ** Inline code ([convertDomNodeToMarkdown], [convertElementToMarkdown])

    The block below occurs three times in the source with the same text: in
    the [ne-code] short-circuit of [convertDomNodeToMarkdown] (on the node's
    [textContent]), in the ['ne-code'] case of [convertElementToMarkdown] and
    in its class-marked [span]/[div] case (both on the converted content). *)

Module InlineCode.
Import Js Dom.

(** [s.replace(/\n+/g, ' ')]; [inRun] tells that the previous code unit was
    a line feed of the run being replaced. *)
Fixpoint replaceNewlineRuns (inRun : bool) (s : jsstring) : jsstring :=
  match s with
  | [] => []
  | c :: s' =>
      if c =? LF
      then if inRun then replaceNewlineRuns true s'
           else SP :: replaceNewlineRuns true s'
      else c :: replaceNewlineRuns false s'
  end.

(** The value of [inRun] once [a] has been read. *)
Definition runAfter (r : bool) (a : jsstring) : bool :=
  match last a with
  | Some c => c =? LF
  | None => r
  end.

(** [raw.match(/`+/g)]: the maximal runs of backticks from left to right.
    [cur] is the run being read.  JavaScript returns [null] when there is no
    match; the source only tests [runs && runs.length], so [[]] stands for
    [null] too. *)
Fixpoint matchBacktickRuns (cur : jsstring) (s : jsstring) : list jsstring :=
  match s with
  | [] => match cur with [] => [] | _ => [cur] end
  | c :: s' =>
      if c =? BT then matchBacktickRuns (BT :: cur) s'
      else match cur with
           | [] => matchBacktickRuns [] s'
           | _ => cur :: matchBacktickRuns [] s'
           end
  end.

(** [let fenceLen = 1; if (runs && runs.length) fenceLen =
    Math.max(...runs.map(s => s.length)) + 1]. *)
Definition fenceLen (raw : jsstring) : nat :=
  match matchBacktickRuns [] raw with
  | [] => 1
  | runs => S (max_list (map length runs))
  end.

Definition needsPadding (raw : jsstring) : bool :=
  startsWith raw [BT] || endsWith raw [BT]
  || startsWith raw [SP] || endsWith raw [SP].

(** The block from [const raw = ...] to the [return], given the string the
    [replace] is applied to. *)
Definition fenceInline (text : jsstring) : jsstring :=
  let raw := replaceNewlineRuns false text in
  let fence := replicate (fenceLen raw) BT in
  if needsPadding raw
  then fence ++ [SP] ++ raw ++ [SP] ++ fence
  else fence ++ raw ++ fence.

(** The [ne-code] short-circuit of [convertDomNodeToMarkdown]:
    [(node.textContent || '')] is fenced. *)
Definition convertNeCodeNode (n : node) : jsstring :=
  fenceInline (textContent n).

(** The ['ne-code'] case of [convertElementToMarkdown]. *)
Definition convertNeCodeElement (content : jsstring) : jsstring :=
  fenceInline content.

End InlineCode.

(** ** Interfaces of the collaborators *)

Module Host.
Import Js Dom.

(** [new JSDOM(html).window.document]: the document element of the parsed
    document, or [None] when the constructor throws. *)
Class Jsdom := { parseDocument : jsstring -> option node }.

(** The JavaScript engine: [String.prototype.toLowerCase], and the time
    value of [new Date(s)] in milliseconds, [None] for an invalid date
    (whose time value is NaN). *)
Class Engine := {
  toLowerCase : jsstring -> jsstring;
  dateParse : jsstring -> option Z
}.

(** Decoders of the platform: [new URL(s).pathname], [None] when the
    constructor throws; and the bytes of the payload of a data URL,
    [Buffer.from(payload, 'base64')] when [base64] is set and
    [Buffer.from(decodeURIComponent(payload), 'utf8')] otherwise, [None] when
    decoding throws. *)
Class Codec := {
  urlPathname : jsstring -> option jsstring;
  decodePayload : bool -> jsstring -> option (list N)
}.

(** [crypto.createHash('sha1').update(s).digest('hex')]. *)
Class Crypto := { sha1 : jsstring -> jsstring }.

(** [document.querySelectorAll], [document.querySelector]: the document
    element itself is a candidate. *)
Definition documentQueryAll (sel : list simple) (doc : node) : list node :=
  filter (fun n => matchesAny sel n) (subtree doc).

Definition documentQuery (sel : list simple) (doc : node) : option node :=
  head (documentQueryAll sel doc).

Definition documentQueryDescendant (a b : simple) (doc : node) : option node :=
  head (omap (fun bn => if (bn.1 : bool) && matchesSimple b bn.2
                        then Some bn.2 else None)
             (subtreeBelow a false doc)).

Definition wrapBody (content : jsstring) : jsstring :=
  lit "<!DOCTYPE html><html><body>" ++ content ++ lit "</body></html>".

End Host.

(** ** [cleanHtmlTags] and [escapeMarkdown] *)

Module Clean.
Import Js.

Definition LT : N := 60.
Definition GT : N := 62.

(** [/<name[^>]*>.*?<\/name>/gis] at the start of [t]: the opening tag up to
    the first [>], then everything up to the first closing tag. *)
Definition blockAt (name : jsstring) (t : jsstring) : option (nat * jsstring) :=
  let open := LT :: name in
  let close := lit "</" ++ name ++ [GT] in
  if startsWithCI t open then
    let rest := drop (length open) t in
    i ← indexWhere (fun c => c =? GT) rest;
    j ← indexOfCI close (drop (S i) rest);
    Some ((length open + S i + j + length close)%nat, [])
  else None.

(** [/<[^>]+>/g] at the start of [t]. *)
Definition tagAt (t : jsstring) : option (nat * jsstring) :=
  match t with
  | c :: rest =>
      if c =? LT then
        match indexWhere (fun c => c =? GT) rest with
        | Some (S i) => Some (S (S (S i)), [])
        | _ => None
        end
      else None
  | [] => None
  end.

Definition decodeEntities (s : jsstring) : jsstring :=
  replaceLit (lit "&#39;") (lit "'")
    (replaceLit (lit "&quot;") [QUOTE]
       (replaceLit (lit "&amp;") (lit "&")
          (replaceLit (lit "&gt;") [GT]
             (replaceLit (lit "&lt;") [LT]
                (replaceLit (lit "&nbsp;") [SP] s))))).

Definition cleanHtmlTags (html : jsstring) (preserveWhitespace : bool)
  : jsstring :=
  if falsy html then []
  else
    let cleaned :=
      replaceAll tagAt
        (replaceAll (blockAt (lit "style"))
           (replaceAll (blockAt (lit "script")) html)) in
    if preserveWhitespace then decodeEntities cleaned
    else collapseWhiteSpace (decodeEntities cleaned).

(** [escapeMarkdown]: entities are decoded, then both angle brackets are
    written as entities. *)
Definition escapeMarkdown (text : jsstring) : jsstring :=
  if falsy text then []
  else
    let out :=
      replaceLit (lit "&hellip;") (lit "...") (decodeEntities text) in
    replaceChar GT (lit "&gt;") (replaceChar LT (lit "&lt;") out).

End Clean.

(** ** The code extractor ([extractCodeFromCard]) *)

Module CodeCard.
Import Js Dom Host Clean.

(** [walkNodes]: the text below a node, with [br] elements left out. *)
Fixpoint walkNodes (n : node) : jsstring :=
  match n with
  | Text d => d
  | Element tag _ cs =>
      if streq tag (lit "br") then [] else flat_map walkNodes cs
  | Comment _ => []
  end.

(** The text pushed for one [.cm-line] element. *)
Definition lineText (line : node) : jsstring :=
  flat_map walkNodes (childNodes line).

Definition normalizeShell (language : jsstring) : jsstring :=
  if streq language (lit "shell") then lit "bash" else language.

(** [el.getAttribute(a) || '']. *)
Definition attrOrEmpty (a : jsstring) (el : node) : jsstring :=
  default [] (getAttribute a el).

(** The language found in the parsed card. *)
Definition detectLanguage (doc : node) : jsstring :=
  let language :=
    match documentQuery [ByAttr (lit "data-codeblock-mode")] doc with
    | Some el => attrOrEmpty (lit "data-codeblock-mode") el
    | None => []
    end in
  if falsy language then
    match documentQuery [ByAttr (lit "data-language")] doc with
    | Some el => normalizeShell (attrOrEmpty (lit "data-language") el)
    | None => language
    end
  else language.

(** The code found in the parsed card. *)
Definition detectCode (doc : node) : jsstring :=
  match documentQueryAll [ByClass (lit "cm-line")] doc with
  | [] =>
      let fallback :=
        documentQuery [ByClass (lit "cm-content")] doc
        ∪ documentQuery [ByClass (lit "ne-codeblock-inner")] doc
        ∪ documentQueryDescendant (ByTag (lit "pre")) (ByTag (lit "code")) doc
        ∪ documentQuery [ByTag (lit "pre")] doc
        ∪ documentQuery [ByTag (lit "code")] doc in
      match fallback with
      | Some el => textContent el
      | None => []
      end
  | codeLines => join [LF] (map lineText codeLines)
  end.

(** [content.match(re)] where [re] is the attribute name, an equals sign
    and a double-quoted, non-empty value, under the [i] flag: its first
    capture, the value.  [attrValueAt] matches at the start of [t]. *)
Definition attrValueAt (attr : jsstring) (t : jsstring) : option jsstring :=
  let p := attr ++ [61; QUOTE] in
  if startsWithCI t p then
    let rest := drop (length p) t in
    match indexWhere (fun c => c =? QUOTE) rest with
    | Some (S i) => Some (take (S i) rest)
    | _ => None
    end
  else None.

Fixpoint matchAttrValue (attr : jsstring) (s : jsstring) : option jsstring :=
  match attrValueAt attr s with
  | Some v => Some v
  | None => match s with
            | [] => None
            | _ :: s' => matchAttrValue attr s'
            end
  end.

(** The [catch] branch: the language read from the markup itself. *)
Definition languageFromMarkup `{Engine} (content : jsstring) : jsstring :=
  match matchAttrValue (lit "data-codeblock-mode") content
        ∪ matchAttrValue (lit "data-language") content with
  | Some v => normalizeShell (toLowerCase v)
  | None => []
  end.

Definition codeFence (language code : jsstring) : jsstring :=
  [LF] ++ lit "```" ++ language ++ [LF] ++ code ++ [LF] ++ lit "```"
  ++ [LF; LF].

Definition extractCodeFromCard `{Jsdom} `{Engine} (content : jsstring)
  : jsstring :=
  if falsy content then []
  else
    let '(language, codeContent) :=
      match parseDocument (wrapBody content) with
      | Some doc => (detectLanguage doc, detectCode doc)
      | None => (languageFromMarkup content, cleanHtmlTags content true)
      end in
    let codeContent := replaceChar ZWSP [] codeContent in
    match codeContent with
    | [] => []
    | _ => codeFence language codeContent
    end.

End CodeCard.

(** ** The table converter ([convertTableToMarkdown]) *)

Module Table.
Import Js Dom Host Clean.

Definition PIPE : N := 124.

(** [escapeCell], the closure of [convertTableToMarkdown]. *)
Definition escapeCell (s : jsstring) : jsstring :=
  let s1 := filter (fun c => negb ((c =? ZWSP) || (c =? BOM))) s in
  let s2 := replaceChar NBSP [SP] s1 in
  (* /\r\n?/g -> '\n' *)
  let s3 := replaceAll (fun t => match t with
                                 | c :: d :: _ =>
                                     if c =? CR
                                     then Some (if d =? LF then 2%nat else 1%nat, [LF])
                                     else None
                                 | [c] => if c =? CR then Some (1%nat, [LF]) else None
                                 | [] => None
                                 end) s2 in
  let s4 := replaceChar PIPE (lit "\|") s3 in
  join (lit "<br>") (map trimEnd (splitLines [] s4)).

(** [cellMd.replace(/\n{2,}/g, '\n')]. *)
Definition collapseBlankLines (s : jsstring) : jsstring :=
  replaceAll (fun t => match spanLen (fun c => c =? LF) t with
                       | S (S n) => Some (S (S n), [LF])
                       | _ => None
                       end) s.

Section Converter.
(** [this.convertDomNodeToMarkdown(child)], which the table converter
    calls for the child nodes of every cell. *)
Variable convertDomNodeToMarkdown : node -> jsstring.

(** The text pushed to [cellContents] for one cell. *)
Definition cellText (cell : node) : jsstring :=
  let container :=
    match querySelector [ByClass (lit "ne-td-content")] cell with
    | Some contentDiv => contentDiv
    | None => cell
    end in
  let cellMd := flat_map convertDomNodeToMarkdown (childNodes container) in
  orElse (escapeCell (collapseBlankLines cellMd)) [SP].

Definition cellsOf (row : node) : list node :=
  querySelectorAll [ByTag (lit "th"); ByTag (lit "td"); ByClass (lit "ne-td")] row.

Definition hasTh (row : node) : bool :=
  match querySelectorAll [ByTag (lit "th")] row with
  | [] => false
  | _ => true
  end.

Definition rowText (cellContents : list jsstring) : jsstring :=
  lit "| " ++ join (lit " | ") cellContents ++ lit " |" ++ [LF].

(** The body of the [for] loop over the rows; [i] is the index of [row]
    among the rows found, the state is [markdown] and [headerEmitted]. *)
Definition rowStep (i : nat) (row : node) (st : jsstring * bool)
  : jsstring * bool :=
  let '(markdown, headerEmitted) := st in
  match cellsOf row with
  | [] => st                                             (* continue *)
  | cells =>
      let isHeaderRow := hasTh row || (negb headerEmitted && (i =? 0)%nat) in
      let cellContents := map cellText cells in
      let markdown := markdown ++ rowText cellContents in
      if negb headerEmitted && isHeaderRow
      then (markdown ++ rowText (map (fun _ => lit "---") cellContents), true)
      else (markdown, headerEmitted)
  end.

Fixpoint rowLoop (i : nat) (rows : list node) (st : jsstring * bool)
  : jsstring * bool :=
  match rows with
  | [] => st
  | row :: rest => rowLoop (S i) rest (rowStep i row st)
  end.

Definition plainFence (text : jsstring) : jsstring :=
  [LF] ++ lit "```" ++ [LF] ++ text ++ [LF] ++ lit "```" ++ [LF].

(** [cleanContent ? fence : ''] *)
Definition fenceIfText (content : jsstring) : jsstring :=
  let cleanContent := cleanHtmlTags content false in
  if falsy cleanContent then [] else plainFence cleanContent.

Definition wrapTable (content : jsstring) : jsstring :=
  lit "<!DOCTYPE html><html><body><table class=" ++ [QUOTE] ++ lit "__root"
  ++ [QUOTE] ++ lit ">" ++ content ++ lit "</table></body></html>".


Definition convertTableToMarkdown `{Jsdom} (content : jsstring) : jsstring :=
  if falsy content then []
  else
    match parseDocument (wrapTable content) with
    | None => fenceIfText content                        (* catch *)
    | Some doc =>
        match documentQuery [ByTagClass (lit "table") (lit "__root")] doc with
        | None => []
        | Some rootTable =>
            match querySelectorAll [ByTag (lit "tr"); ByClass (lit "ne-tr")]
                    rootTable with
            | [] => fenceIfText content
            | rows =>
                let markdown := (rowLoop 0 rows ([], false)).1 in
                if falsy markdown
                then plainFence (cleanHtmlTags content false)
                else markdown
            end
        end
    end.

(** *** The emitted lines, one by one

    The same loop, with the lines kept apart instead of appended to one
    string: a row line holds the texts of its cells, a separator line the
    number of its columns. *)
Inductive line : Type :=
| RowLine (cells : list jsstring)
| SepLine (columns : nat).








End Converter.

End Table.

(** ** The crawl orchestrator: data, identity keys, the window filter *)

Module Crawl.
Import Js Dom Host.

(** One listing entry; the crawler later sets [content] and may replace
    [title].  An absent field is the empty string. *)
Record Article := mkArticle {
  title : jsstring;
  link : jsstring;
  publishTime : jsstring;
  category : jsstring;
  author : jsstring;
  content : jsstring;
  extractedAt : jsstring
}.

Definition setTitle (t : jsstring) (a : Article) : Article :=
  mkArticle t (link a) (publishTime a) (category a) (author a) (content a)
    (extractedAt a).

Definition setContent (c : jsstring) (a : Article) : Article :=
  mkArticle (title a) (link a) (publishTime a) (category a) (author a) c
    (extractedAt a).

(** An entry of [this.failures]. *)
Record Failure := mkFailure {
  failLink : jsstring;
  failTitle : jsstring;
  failError : jsstring
}.

(** A [Date] object is its time value in milliseconds; [None] is the NaN of
    an invalid date.  A field that holds [null] or a [Date] is an option of
    that. *)
Definition Date := option Z.

(** [a >= b], [a <= b], [a > b] on [Date] objects: a comparison with NaN is
    false. *)
Definition dateGe (a b : Date) : bool :=
  match a, b with Some x, Some y => (y <=? x)%Z | _, _ => false end.
Definition dateLe (a b : Date) : bool :=
  match a, b with Some x, Some y => (x <=? y)%Z | _, _ => false end.
Definition dateGt (a b : Date) : bool :=
  match a, b with Some x, Some y => (y <? x)%Z | _, _ => false end.

(** The fields the constructor derives from its options. *)
Record Config := mkConfig {
  startDate : option Date;
  endDate : option Date;
  targetDate : option Date;
  maxPages : nat;
  fetchFullContent : bool
}.

(** The constructor; an option that is not given is the empty string. *)
Definition configure `{Engine} (optStart optEnd optTarget : jsstring)
    (optMaxPages : nat) (optFetch : bool) : Config :=
  let sd := if falsy optStart then None else Some (dateParse optStart) in
  let ed := if falsy optEnd then None else Some (dateParse optEnd) in
  let td := if falsy optTarget then sd else Some (dateParse optTarget) in
  mkConfig sd ed td (match optMaxPages with O => 1%nat | n => n end) optFetch.

(** The dedup key of [runOne]:
    [(item.link && item.link.trim()) || `${(item.title || '').trim()}|${item.publishTime || ''}`]. *)
Definition identityKey (item : Article) : jsstring :=
  orElse (if falsy (link item) then link item else trim (link item))
         (trim (orElse (title item) []) ++ lit "|"
          ++ orElse (publishTime item) []).

(** The callback of [articlesOnPage.filter]; [new Date] does not throw, so
    the [catch] of the source is never entered. *)
Definition inWindow `{Engine} (c : Config) (article : Article) : bool :=
  if falsy (publishTime article) then false
  else
    let articleDate := dateParse (publishTime article) in
    let include := true in
    let include :=
      match startDate c with
      | Some sd => include && dateGe articleDate sd
      | None => include
      end in
    let include :=
      match endDate c with
      | Some ed => include && dateLe articleDate ed
      | None => include
      end in
    match startDate c, endDate c, targetDate c with
    | None, None, Some td => include && dateGt articleDate td
    | _, _, _ => include
    end.

(** [hasOlderArticles] of the pagination decision. *)
Definition thresholdDate (c : Config) : option Date :=
  startDate c ∪ targetDate c.

Definition hasOlderArticles `{Engine} (c : Config)
    (articlesOnPage : list Article) : bool :=
  match thresholdDate c with
  | Some threshold =>
      existsb (fun article =>
                 if falsy (publishTime article) then false
                 else dateLe (dateParse (publishTime article)) threshold)
              articlesOnPage
  | None => false
  end.

(** ** The crawler state and its environment *)

(** The literals of the source that are not ASCII. *)
Definition sFetchFailed : jsstring :=         (* 抓取失败 *)
  [0x6293; 0x53D6; 0x5931; 0x8D25].
Definition sVisitFailed : jsstring :=         (* 访问失败 *)
  [0x8BBF; 0x95EE; 0x5931; 0x8D25].
Definition sUnknownTitle : jsstring :=        (* 未知标题 *)
  [0x672A; 0x77E5; 0x6807; 0x9898].
Definition sNoContent : jsstring :=           (* 无法获取文章内容 *)
  [0x65E0; 0x6CD5; 0x83B7; 0x53D6; 0x6587; 0x7AE0; 0x5185; 0x5BB9].
Definition sExtractFailed : jsstring :=       (* 提取文章内容失败 *)
  [0x63D0; 0x53D6; 0x6587; 0x7AE0; 0x5185; 0x5BB9; 0x5931; 0x8D25].
Definition sUncategorized : jsstring :=       (* 未分类 *)
  [0x672A; 0x5206; 0x7C7B].
Definition sUnknown : jsstring :=             (* 未知 *)
  [0x672A; 0x77E5].

(** The object [fetchArticleContent] resolves to. *)
Record FetchResult := mkFetchResult {
  resTitle : jsstring;
  resContent : jsstring
}.

(** What one awaited call of [fetchArticleContent] gives its caller: a
    value, which may be [null], or an exception with its message. *)
Inductive Attempt : Type :=
| Returned (res : option FetchResult)
| Threw (message : jsstring).

(** The environment of a run.  Awaits are numbered in the order in which
    the run reaches them; a signal (SIGINT, SIGTERM) can only be handled
    while the run awaits. *)
Record World := mkWorld {
  signalAt : nat -> bool;               (* a signal arrives during await t *)
  listing : nat -> list Article;        (* extractArticlesFromPage on page p *)
  hasNext : nat -> bool;                (* goToNextPage on page p *)
  fetched : nat -> jsstring -> Attempt; (* fetchArticleContent(url) at await t *)
  canWrite : jsstring -> bool           (* writeFileSync to this file succeeds *)
}.

(** The mutable fields of the crawler, the files it owns, and the record of
    what it asked of its environment. *)
Record Crawler := mkCrawler {
  articles : list Article;
  failures : list Failure;
  seenKeys : gset jsstring;
  aborted : bool;
  summaryUpdateCounter : nat;
  papers : gmap jsstring jsstring;      (* papers/<file name> *)
  summaryRealtime : option jsstring;    (* SUMMARY-REALTIME.md *)
  tick : nat;                           (* awaits so far *)
  sleeps : list Z;                      (* arguments of this.sleep so far *)
  pagesRead : list nat;                 (* pages handed to extractArticlesFromPage *)
  nextRequested : list nat;             (* pages on which goToNextPage was called *)
  fetches : list jsstring               (* addresses handed to fetchArticleContent *)
}.

Definition newCrawler (disk : gmap jsstring jsstring) : Crawler :=
  mkCrawler [] [] ∅ false 0 disk None 0 [] [] [] [].

Definition setArticles (x : list Article) (c : Crawler) : Crawler :=
  mkCrawler x (failures c) (seenKeys c) (aborted c) (summaryUpdateCounter c)
    (papers c) (summaryRealtime c) (tick c) (sleeps c) (pagesRead c)
    (nextRequested c) (fetches c).
Definition setFailures (x : list Failure) (c : Crawler) : Crawler :=
  mkCrawler (articles c) x (seenKeys c) (aborted c) (summaryUpdateCounter c)
    (papers c) (summaryRealtime c) (tick c) (sleeps c) (pagesRead c)
    (nextRequested c) (fetches c).
Definition setSeenKeys (x : gset jsstring) (c : Crawler) : Crawler :=
  mkCrawler (articles c) (failures c) x (aborted c) (summaryUpdateCounter c)
    (papers c) (summaryRealtime c) (tick c) (sleeps c) (pagesRead c)
    (nextRequested c) (fetches c).
Definition setAborted (x : bool) (c : Crawler) : Crawler :=
  mkCrawler (articles c) (failures c) (seenKeys c) x (summaryUpdateCounter c)
    (papers c) (summaryRealtime c) (tick c) (sleeps c) (pagesRead c)
    (nextRequested c) (fetches c).
Definition setSummaryUpdateCounter (x : nat) (c : Crawler) : Crawler :=
  mkCrawler (articles c) (failures c) (seenKeys c) (aborted c) x
    (papers c) (summaryRealtime c) (tick c) (sleeps c) (pagesRead c)
    (nextRequested c) (fetches c).
Definition setPapers (x : gmap jsstring jsstring) (c : Crawler) : Crawler :=
  mkCrawler (articles c) (failures c) (seenKeys c) (aborted c)
    (summaryUpdateCounter c) x (summaryRealtime c) (tick c) (sleeps c)
    (pagesRead c) (nextRequested c) (fetches c).
Definition setSummaryRealtime (x : option jsstring) (c : Crawler) : Crawler :=
  mkCrawler (articles c) (failures c) (seenKeys c) (aborted c)
    (summaryUpdateCounter c) (papers c) x (tick c) (sleeps c) (pagesRead c)
    (nextRequested c) (fetches c).
Definition setTick (x : nat) (c : Crawler) : Crawler :=
  mkCrawler (articles c) (failures c) (seenKeys c) (aborted c)
    (summaryUpdateCounter c) (papers c) (summaryRealtime c) x (sleeps c)
    (pagesRead c) (nextRequested c) (fetches c).
Definition setSleeps (x : list Z) (c : Crawler) : Crawler :=
  mkCrawler (articles c) (failures c) (seenKeys c) (aborted c)
    (summaryUpdateCounter c) (papers c) (summaryRealtime c) (tick c) x
    (pagesRead c) (nextRequested c) (fetches c).
Definition setPagesRead (x : list nat) (c : Crawler) : Crawler :=
  mkCrawler (articles c) (failures c) (seenKeys c) (aborted c)
    (summaryUpdateCounter c) (papers c) (summaryRealtime c) (tick c)
    (sleeps c) x (nextRequested c) (fetches c).
Definition setNextRequested (x : list nat) (c : Crawler) : Crawler :=
  mkCrawler (articles c) (failures c) (seenKeys c) (aborted c)
    (summaryUpdateCounter c) (papers c) (summaryRealtime c) (tick c)
    (sleeps c) (pagesRead c) x (fetches c).
Definition setFetches (x : list jsstring) (c : Crawler) : Crawler :=
  mkCrawler (articles c) (failures c) (seenKeys c) (aborted c)
    (summaryUpdateCounter c) (papers c) (summaryRealtime c) (tick c)
    (sleeps c) (pagesRead c) (nextRequested c) x.

(** One [await]: time passes, and the handler installed by
    [setupSignalHandlers] sets [aborted] if a signal arrives meanwhile. *)
Definition await (w : World) (c : Crawler) : Crawler :=
  setTick (S (tick c)) (setAborted (aborted c || signalAt w (tick c)) c).

(** ** Fetching with retries ([fetchArticleContentWithRetry]) *)

(** The [try] body: the result that is returned, or the message of the
    error that is thrown or caught. *)
Definition attemptResult (a : Attempt) : FetchResult + jsstring :=
  match a with
  | Threw m => inr m
  | Returned None => inr sFetchFailed
  | Returned (Some res) =>
      if streq (resTitle res) sVisitFailed
         || falsy (resContent res)
         || includes (resContent res) sNoContent
         || includes (resContent res) sExtractFailed
      then inr (orElse (resTitle res) sFetchFailed)
      else inl res
  end.

(** The [while] loop.  [remaining] is [retries + 1 - attempt], the number
    of iterations the test [attempt <= retries] still allows.  The result
    is the value returned or the message of the error thrown. *)
Fixpoint retryLoop (w : World) (articleUrl : jsstring) (baseDelay : Z)
    (remaining attempt : nat) (lastErr : option jsstring) (c : Crawler)
  : Crawler * (FetchResult + jsstring) :=
  match remaining with
  | O => (c, inr (default sFetchFailed lastErr))
  | S remaining' =>
      if aborted c then (c, inr (default sFetchFailed lastErr))
      else
        let outcome := fetched w (tick c) articleUrl in
        let c := await w (setFetches (fetches c ++ [articleUrl]) c) in
        match attemptResult outcome with
        | inl res => (c, inl res)
        | inr e =>
            match remaining' with
            | O => (c, inr e)                     (* attempt === retries *)
            | S _ =>
                let delay := (baseDelay * 2 ^ Z.of_nat attempt)%Z in
                let c := await w (setSleeps (sleeps c ++ [delay]) c) in
                retryLoop w articleUrl baseDelay remaining' (S attempt)
                  (Some e) c
            end
        end
  end.

Definition fetchArticleContentWithRetry (w : World) (articleUrl : jsstring)
    (retries : nat) (baseDelay : Z) (c : Crawler)
  : Crawler * (FetchResult + jsstring) :=
  retryLoop w articleUrl baseDelay (S retries) 0 None c.

(** ** Writing an article ([generateFileName], [saveArticleImmediately]) *)

(** The text of an article file and the part of the index above its table
    depend on the clock and the locale; they are taken as given, as is the
    order in which [Array.prototype.sort] leaves [this.articles] (the
    comparator subtracts dates that may be NaN).  Sorting permutes. *)
Class Writer := {
  generateSingleArticleMarkdown : Article -> jsstring;
  indexPreamble : list Article -> jsstring;
  sortByPublishTime : list Article -> list Article;
  sortByPublishTime_perm : forall l, sortByPublishTime l ≡ₚ l
}.

Definition UNDERSCORE : N := 95.

(** The class of unsafe characters: the angle brackets, the colon, the
    double quote, both slashes, the bar, the question mark and the star. *)
Definition isUnsafeChar (c : N) : bool :=
  (c =? 60) || (c =? 62) || (c =? 58) || (c =? 34) || (c =? 47)
  || (c =? 92) || (c =? 124) || (c =? 63) || (c =? 42).

(** [[\s()（）\[\]【】]] *)
Definition isSpaceOrBracket (c : N) : bool :=
  isWhiteSpace c || (c =? 40) || (c =? 41) || (c =? 0xFF08) || (c =? 0xFF09)
  || (c =? 91) || (c =? 93) || (c =? 0x3010) || (c =? 0x3011).

(** [.replace(/_+/g, '_')] *)
Definition collapseUnderscores (s : jsstring) : jsstring :=
  replaceAll (fun t => match spanLen (fun c => c =? UNDERSCORE) t with
                       | O => None
                       | n => Some (n, [UNDERSCORE])
                       end) s.

(** [.replace(/^_|_$/g, '')]: an underscore at the start is removed, and so
    is one that ends what is left. *)
Definition stripUnderscoreEnds (s : jsstring) : jsstring :=
  let s1 := match s with
            | c :: t => if c =? UNDERSCORE then t else s
            | [] => []
            end in
  match last s1 with
  | Some c => if c =? UNDERSCORE then take (pred (length s1)) s1 else s1
  | None => s1
  end.

Definition generateFileName `{Crypto} (article : Article) : jsstring :=
  let safeTitle := trim (orElse (title article) []) in
  let fileName :=
    substring0 80
      (stripUnderscoreEnds
         (collapseUnderscores
            (map (fun c => if isSpaceOrBracket c then UNDERSCORE else c)
               (filter (fun c => negb (isUnsafeChar c)) safeTitle)))) in
  let fileName :=
    if falsy fileName
    then lit "article_" ++ take 12 (sha1 (orElse (link article) (lit "unknown")))
    else fileName in
  fileName ++ lit ".md".

(** [saveArticleImmediately]: the file name on success, [None] for the
    [null] of the [catch] branch.  Only [writeFileSync] can throw here;
    creating the [papers] directory is not modelled. *)
Definition saveArticleImmediately `{Crypto} `{Writer} (w : World)
    (c : Crawler) (article : Article) : Crawler * option jsstring :=
  let fileName := generateFileName article in
  let articleMarkdown := generateSingleArticleMarkdown article in
  match papers c !! fileName with
  | Some _ => (c, Some fileName)                 (* exists: not written *)
  | None =>
      if canWrite w fileName
      then (setPapers (<[fileName := articleMarkdown]> (papers c)) c,
            Some fileName)
      else (c, None)
  end.

(** ** The running index ([maybeUpdateSummaryFile], [generateIndexMarkdown]) *)

Definition shortTitle (article : Article) : jsstring :=
  let safeTitle := trim (orElse (title article) sUnknownTitle) in
  if (50 <? length safeTitle)%nat
  then substring0 50 safeTitle ++ lit "..."
  else safeTitle.

(** One row of the table of articles; [index] counts from 0. *)
Definition indexRow `{Crypto} (index : nat) (article : Article) : jsstring :=
  let fileName := generateFileName article in
  lit "| " ++ ofNat (index + 1) ++ lit " | [" ++ shortTitle article
  ++ lit "](papers/" ++ fileName ++ lit ") | "
  ++ orElse (category article) sUncategorized ++ lit " | "
  ++ orElse (author article) sUnknown ++ lit " | "
  ++ orElse (publishTime article) sUnknown
  ++ lit " | [" ++ [0xD83D; 0xDCC4] ++ lit "](papers/" ++ fileName
  ++ lit ") |" ++ [LF].

Definition indexRows `{Crypto} (sortedArticles : list Article)
  : list jsstring :=
  imap indexRow sortedArticles.

(** The closing lines of the index: a rule and a hint
    (提示: 点击标题或文件链接可以查看具体文章内容). *)
Definition indexFooter : jsstring :=
  [LF] ++ lit "---" ++ [LF; LF] ++ lit "> " ++ [0xD83D; 0xDCA1; 32]
  ++ [0x63D0; 0x793A] ++ lit ": "
  ++ [0x70B9; 0x51FB; 0x6807; 0x9898; 0x6216; 0x6587; 0x4EF6; 0x94FE; 0x63A5;
      0x53EF; 0x4EE5; 0x67E5; 0x770B; 0x5177; 0x4F53; 0x6587; 0x7AE0; 0x5185;
      0x5BB9] ++ [LF].

(** [generateIndexMarkdown], after the sort: the heading, the statistics
    and the head of the table, one row per article, the closing lines. *)
Definition generateIndexMarkdown `{Crypto} `{Writer}
    (sortedArticles : list Article) : jsstring :=
  indexPreamble sortedArticles ++ concat (indexRows sortedArticles)
  ++ indexFooter.

(** [updateSummaryFile]: [generateIndexMarkdown] sorts [this.articles] in
    place, then the file is written; a failed write is caught. *)
Definition updateSummaryFile `{Crypto} `{Writer} (w : World) (c : Crawler)
  : Crawler :=
  let sorted := sortByPublishTime (articles c) in
  let c := setArticles sorted c in
  if canWrite w (lit "SUMMARY-REALTIME.md")
  then setSummaryRealtime (Some (generateIndexMarkdown sorted)) c
  else c.

Definition maybeUpdateSummaryFile `{Crypto} `{Writer} (w : World)
    (c : Crawler) : Crawler :=
  let c := setSummaryUpdateCounter (S (summaryUpdateCounter c)) c in
  if (summaryUpdateCounter c mod 3 =? 0)%nat then updateSummaryFile w c else c.

(** ** Fetch and persist ([runOne] of [scrapeArticles]) *)

(** [item.content = articleData.content], and the title of the detail page
    replaces the listing title unless it is empty or a sentinel. *)
Definition refine (articleData : FetchResult) (item : Article) : Article :=
  let item := setContent (resContent articleData) item in
  if negb (falsy (resTitle articleData))
     && negb (streq (resTitle articleData) sUnknownTitle)
     && negb (streq (resTitle articleData) sVisitFailed)
  then setTitle (resTitle articleData) item
  else item.

(** [this._seenKeys.add(key); this.articles.push(item)]. *)
Definition register (key : jsstring) (item : Article) (c : Crawler)
  : Crawler :=
  setArticles (articles c ++ [item]) (setSeenKeys ({[key]} ∪ seenKeys c) c).

(** The lines that follow [await this.saveArticleImmediately(...)] when the
    article was saved and the run is not cancelled: the article is
    registered unless its key has been registered meanwhile, and the running
    index is refreshed.  [maybeUpdateSummaryFile] awaits nothing that
    suspends, so these lines run in one piece. *)
Definition registerSaved `{Crypto} `{Writer} (w : World) (key : jsstring)
    (item : Article) (c : Crawler) : Crawler :=
  let c := if bool_decide (key ∈ seenKeys c) then c
           else register key item c in
  maybeUpdateSummaryFile w c.

(** The rest of the [try] block once the fetch has returned: the article is
    saved unless the run is cancelled, and then registered.  [key] was
    computed from the listing entry before the fetch. *)
Definition persist `{Crypto} `{Writer} (w : World) (key : jsstring)
    (item : Article) (c : Crawler) : Crawler :=
  if aborted c then c
  else
    let '(c, savedFileName) := saveArticleImmediately w c item in
    match savedFileName with
    | None => c
    | Some _ => if aborted c then c else registerSaved w key item c
    end.

(** [String(error && error.message ? error.message : error)] for an [Error]
    with the given message. *)
Definition errorText (message : jsstring) : jsstring :=
  orElse message (lit "Error").

(** The [catch] block when the run is not cancelled. *)
Definition recordFailure (item : Article) (message : jsstring) (c : Crawler)
  : Crawler :=
  setFailures
    (failures c ++
     [mkFailure (link item)
        (orElse (trim (orElse (title item) [])) sUnknownTitle)
        (errorText message)]) c.

(** One turn of the [while] loop of [runOne] for [item]; the boolean is
    [false] when the loop is left by [break]. *)
Definition runOneItem `{Crypto} `{Writer} (w : World) (c : Crawler)
    (item : Article) : Crawler * bool :=
  let key := identityKey item in
  if bool_decide (key ∈ seenKeys c) then (c, true)
  else
    let '(c, result) := fetchArticleContentWithRetry w (link item) 1 800 c in
    match result with
    | inl articleData => (persist w key (refine articleData item) c, true)
    | inr message =>
        if aborted c then (c, false)
        else (recordFailure item message c, true)
    end.

(** The pool with one worker, which is the pool of the source when
    [concurrency] is 1: the worker takes every item of the page, in
    order.  With more workers the turns of [runOne] interleave at their
    awaits; what the workers can do then, whatever their number and their
    schedule, is described by [step] below. *)
Fixpoint runOne `{Crypto} `{Writer} (w : World) (c : Crawler)
    (items : list Article) : Crawler :=
  match items with
  | [] => c
  | item :: rest =>
      if aborted c then c
      else
        let '(c, continue) := runOneItem w c item in
        if continue then runOne w c rest else c
  end.

(** One turn of the [for] loop taken when [fetchFullContent] is off. *)
Definition saveOnlyItem `{Crypto} `{Writer} (w : World) (c : Crawler)
    (item : Article) : Crawler :=
  let key := identityKey item in
  if bool_decide (key ∈ seenKeys c) then c
  else
    let '(c, savedFileName) := saveArticleImmediately w c item in
    match savedFileName with
    | None => c
    | Some _ =>
        if aborted c then c
        else maybeUpdateSummaryFile w (register key item c)
    end.

Fixpoint saveOnly `{Crypto} `{Writer} (w : World) (c : Crawler)
    (items : list Article) : Crawler :=
  match items with
  | [] => c
  | item :: rest =>
      if aborted c then c else saveOnly w (saveOnlyItem w c item) rest
  end.

(** ** The page loop ([scrapeArticles]) *)

(** [remaining] is [maxPages + 1 - currentPage]: the loop runs while
    [currentPage <= maxPages], and [currentPage] grows by one each time the
    loop goes round. *)
Fixpoint pageLoop `{Engine} `{Crypto} `{Writer} (w : World) (cfg : Config)
    (remaining currentPage : nat) (c : Crawler) : Crawler :=
  match remaining with
  | O => c
  | S remaining' =>
      if aborted c then c
      else
        let articlesOnPage := listing w currentPage in
        let c := await w (setPagesRead (pagesRead c ++ [currentPage]) c) in
        match articlesOnPage with
        | [] => c
        | _ =>
            let filteredArticles := filter (inWindow cfg) articlesOnPage in
            let c :=
              if fetchFullContent cfg
              then await w (runOne w c filteredArticles)
              else saveOnly w c filteredArticles in
            if hasOlderArticles cfg articlesOnPage && (3 <? currentPage)%nat
            then c
            else if aborted c then c
            else
              let hasMorePages := hasNext w currentPage in
              let c :=
                await w (setNextRequested (nextRequested c ++ [currentPage]) c) in
              if hasMorePages
              then pageLoop w cfg remaining' (S currentPage) c
              else c
        end
  end.

Definition scrapeArticles `{Engine} `{Crypto} `{Writer} (w : World)
    (cfg : Config) (c : Crawler) : Crawler :=
  pageLoop w cfg (maxPages cfg) 1 c.

(** ** What the crawler can do between two awaits

    With several workers the turns of [runOne] interleave at their awaits.
    Every run, whatever the pool size and the schedule, is a sequence of the
    transitions below: an await returns, a detail page is asked for, a delay
    is requested, a fetched article is saved, a saved article is registered
    under the key of its listing entry, a failure is recorded, an article is
    saved and registered without a fetch (that loop has no second worker), a
    page is read or the next page is requested.  The article that a worker
    registers is the listing entry with what a fetch of its link returned
    ([articleData], which passed the tests of the retry loop). *)
Inductive step `{Crypto} `{Writer} (w : World) : Crawler -> Crawler -> Prop :=
| step_await c :
    step w c (await w c)
| step_fetch c articleUrl :
    step w c (setFetches (fetches c ++ [articleUrl]) c)
| step_sleep c delay :
    step w c (setSleeps (sleeps c ++ [delay]) c)
| step_save c item :
    step w c (saveArticleImmediately w c item).1
| step_register c entry articleData t :
    attemptResult (fetched w t (link entry)) = inl articleData ->
    step w c (registerSaved w (identityKey entry) (refine articleData entry) c)
| step_failure c item message :
    aborted c = false ->
    step w c (recordFailure item message c)
| step_save_only c item :
    step w c (saveOnlyItem w c item)
| step_read c page :
    step w c (setPagesRead (pagesRead c ++ [page]) c)
| step_next c page :
    step w c (setNextRequested (nextRequested c ++ [page]) c).

(** The states a run can be in, from a crawler that has just been
    constructed. *)
Definition reachable `{Crypto} `{Writer} (w : World) (c : Crawler) : Prop :=
  exists disk, rtc (step w) (newCrawler disk) c.

(** No two records of [this.articles] share an identity key, and the key
    of every record is in [this._seenKeys]. *)
Definition uniqueKeys (c : Crawler) : Prop :=
  NoDup (map identityKey (articles c))
  /\ (forall a, a ∈ articles c -> identityKey a ∈ seenKeys c).

(** The log of pages read and of next pages requested is the same in
    both states. *)
Definition samePages (c c' : Crawler) : Prop :=
  pagesRead c' = pagesRead c /\ nextRequested c' = nextRequested c.

(** The rule that stops the page loop on page [p]. *)
Definition cutoffAt `{Engine} (w : World) (cfg : Config) (p : nat) : bool :=
  hasOlderArticles cfg (listing w p) && (3 <? p)%nat.

(** The attempt looks failed to the retry loop. *)
Definition failsAttempt (a : Attempt) : Prop :=
  exists e, attemptResult a = inr e.

(** [articlePage.goto] rejects an address that is empty or blank: the
    visit ends in the outer [catch] of [fetchArticleContent], and the
    attempt looks failed to the retry loop. *)
Definition rejectsBlankUrl (w : World) : Prop :=
  forall t articleUrl,
    trim articleUrl = [] -> failsAttempt (fetched w t articleUrl).

(** Only the clock and the logs of fetches and delays differ between the
    two states. *)
Definition sameData (c c' : Crawler) : Prop :=
  articles c' = articles c /\ failures c' = failures c
  /\ seenKeys c' = seenKeys c /\ papers c' = papers c
  /\ summaryUpdateCounter c' = summaryUpdateCounter c
  /\ summaryRealtime c' = summaryRealtime c
  /\ pagesRead c' = pagesRead c /\ nextRequested c' = nextRequested c.

(** The delays of [k] consecutive retries, the first one after attempt
    number [attempt]. *)
Definition backoff (baseDelay : Z) (attempt k : nat) : list Z :=
  map (fun i => (baseDelay * 2 ^ Z.of_nat (attempt + i))%Z) (seq 0 k).

End Crawl.

(** ** The downloader ([downloadWithReferer])

    The function installs handlers and returns a promise; what happens next
    is a sequence of events of the HTTP client and of the write stream.
    Each handler of the source is one case of [handle]. *)

Module Download.
Import Js.

Inductive event : Type :=
| Response (statusCode : Z) (location : jsstring)
    (* the response callback; an absent Location header is the empty string *)
| Chunk (bytes : list N)         (* [res.pipe(ws)] writes a chunk *)
| StreamFinish                   (* ['finish'] on the write stream *)
| StreamError (message : jsstring)   (* ['error'] on the write stream *)
| RequestError (message : jsstring). (* ['error'] on the request; the timeout
                                        destroys the request with an error *)

(** The promise returned to the caller. *)
Inductive promise : Type :=
| Pending
| Resolved
| Rejected (message : jsstring).

Record state := mkState {
  outcome : promise;
  file : option (list N);     (* the destination file, [None] when absent *)
  redirectCount : nat;
  streaming : bool            (* a write stream is open on the file *)
}.

(** [resolve] and [reject] settle a pending promise and do nothing else. *)
Definition settle (p : promise) (s : state) : state :=
  match outcome s with
  | Pending => mkState p (file s) (redirectCount s) (streaming s)
  | _ => s
  end.

Definition maxRedirects : nat := 5.

Definition handle (s : state) (e : event) : state :=
  match e with
  | Response statusCode location =>
      if streaming s then s
      else if (300 <=? statusCode)%Z && (statusCode <? 400)%Z
              && negb (falsy location)
      then
        if (maxRedirects <=? redirectCount s)%nat
        then settle (Rejected (lit "Too many redirects")) s
        else mkState (outcome s) (file s) (S (redirectCount s)) false
      else if negb (statusCode =? 200)%Z
      then settle (Rejected (lit "HTTP " ++ ofNat (Z.to_nat statusCode))) s
      else mkState (outcome s) (Some []) (redirectCount s) true
            (* fs.createWriteStream(destPath) *)
  | Chunk bytes =>
      if streaming s
      then mkState (outcome s) (Some (default [] (file s) ++ bytes))
             (redirectCount s) true
      else s
  | StreamFinish =>
      if streaming s
      then settle Resolved (mkState (outcome s) (file s) (redirectCount s) false)
      else s
  | StreamError message =>
      if streaming s
      then settle (Rejected message)              (* after fs.unlink *)
             (mkState (outcome s) None (redirectCount s) false)
      else s
  | RequestError message => settle (Rejected message) s
  end.

(** The call on a destination that holds [before], followed by the events. *)
Definition downloadWithReferer (before : option (list N))
    (events : list event) : state :=
  foldl handle (mkState Pending before 0 false) events.

End Download.

(** ** The image localizer ([localizeImagesInPapers]) *)

Module Images.
Import Js Host.

(** *** The three regular expressions

    Each of them is deterministic: every repetition runs over a character
    class up to a character outside it that the next item needs, so the
    match at a position, when there is one, is found by reading ahead once.
    The functions below return what is left of the text after the match. *)

Definition expect (p t : jsstring) : option jsstring :=
  if startsWith t p then Some (drop (length p) t) else None.

Definition expectCI (p t : jsstring) : option jsstring :=
  if startsWithCI t p then Some (drop (length p) t) else None.

(** [[...]*] and [[...]+] for the class of the code units satisfying [f]. *)
Definition many (f : N -> bool) (t : jsstring) : jsstring :=
  drop (spanLen f t) t.

Definition many1 (f : N -> bool) (t : jsstring) : option jsstring :=
  match spanLen f t with
  | O => None
  | n => Some (drop n t)
  end.

Definition isNot (c : N) (d : N) : bool := negb (d =? c).

Definition RBRACKET : N := 93.
Definition RPAREN : N := 41.
Definition COMMA : N := 44.
Definition SEMICOLON : N := 59.

(** The start of an image: an exclamation mark, the alternative text in
    brackets, an opening parenthesis. *)
Definition imageOpen (t : jsstring) : option jsstring :=
  t ← expect (lit "![") t;
  expect (lit "](") (many (isNot RBRACKET) t).

(** The optional title in double quotes after white space, then the
    closing parenthesis. *)
Definition imageClose (t : jsstring) : option jsstring :=
  match expect [RPAREN] t with
  | Some rest => Some rest
  | None =>
      t ← many1 isWhiteSpace t;
      t ← expect [QUOTE] t;
      t ← expect [QUOTE] (many (isNot QUOTE) t);
      expect [RPAREN] t
  end.

(** The text matched between the position where [t] starts and the one
    where [rest] starts. *)
Definition matched (t rest : jsstring) : jsstring :=
  take (length t - length rest) t.

(** The placeholder pattern, with the [i] flag: an image whose target is a
    data URL of type [image/svg+xml]. *)
Definition svgPlaceholderAt (t : jsstring) : option (nat * jsstring) :=
  t1 ← imageOpen t;
  t2 ← expectCI (lit "data:image/svg+xml;") t1;
  t3 ← many1 (isNot RPAREN) t2;
  t4 ← expect [RPAREN] t3;
  Some (length t - length t4, [])%nat.

(** [imageRegex] at the start of [t]: the whole match and the URL. *)
Definition remoteImageAt (t : jsstring) : option (jsstring * jsstring) :=
  t1 ← imageOpen t;
  t2 ← expect (lit "https:") t1 ∪ expect (lit "http:") t1;
  t3 ← many1 (fun c => negb ((c =? RPAREN) || isWhiteSpace c)) t2;
  t4 ← imageClose t3;
  Some (matched t t4, matched t1 t3).

Definition isMediaTypeChar (c : N) : bool :=
  ((97 <=? c) && (c <=? 122)) || ((65 <=? c) && (c <=? 90))
  || ((48 <=? c) && (c <=? 57)) || (c =? 46) || (c =? 43) || (c =? 45).

(** The optional [;charset=...] and [;base64] items and the comma. *)
Definition dataParameters (inCharset : N -> bool) (t : jsstring)
  : option jsstring :=
  let t :=
    match expect (lit ";charset=") t ≫= many1 inCharset with
    | Some rest => rest
    | None => t
    end in
  let t := default t (expect (lit ";base64") t) in
  expect [COMMA] t.

(** [dataRegex] at the start of [t]: the whole match and the data URL. *)
Definition dataImageAt (t : jsstring) : option (jsstring * jsstring) :=
  t1 ← imageOpen t;
  t2 ← expect (lit "data:image/") t1;
  t3 ← many1 isMediaTypeChar t2;
  t4 ← dataParameters
         (fun c => negb ((c =? SEMICOLON) || (c =? COMMA) || (c =? RPAREN))) t3;
  t5 ← many1 (isNot RPAREN) t4;
  t6 ← imageClose t5;
  Some (matched t t6, matched t1 t5).

(** The loop [while ((match = re.exec(raw)) !== null)]: the matches from
    left to right, the search resuming after each match.  [skip] counts
    the code units of the current match that are still to be passed. *)
Fixpoint execAll (at_ : jsstring -> option (jsstring * jsstring))
    (skip : nat) (s : jsstring) : list (jsstring * jsstring) :=
  match s with
  | [] => []
  | _ :: s' =>
      match skip with
      | S k => execAll at_ k s'
      | O => match at_ s with
             | Some (full, capture) =>
                 (full, capture) :: execAll at_ (pred (length full)) s'
             | None => execAll at_ O s'
             end
      end
  end.

(** *** File names *)

(** [inferImageExt]. *)
Definition knownExtensions : list jsstring :=
  [lit "png"; lit "jpeg"; lit "jpg"; lit "gif"; lit "webp"; lit "svg";
   lit "bmp"; lit "ico"].

Definition extensionAt (t : jsstring) : option jsstring :=
  match t with
  | c :: rest =>
      if c =? 46 then
        head (filter (fun e => startsWith rest e
                               && match drop (length e) rest with
                                  | [] => true
                                  | d :: _ => d =? 63
                                  end)
                     knownExtensions)
      else None
  | [] => None
  end.

Fixpoint searchExtension (s : jsstring) : option jsstring :=
  match extensionAt s with
  | Some e => Some e
  | None => match s with
            | [] => None
            | _ :: s' => searchExtension s'
            end
  end.

Definition inferImageExt `{Engine} `{Codec} (urlStr : jsstring) : jsstring :=
  match urlPathname urlStr ≫= (fun p => searchExtension (toLowerCase p)) with
  | Some e => lit "." ++ e
  | None => lit ".jpg"
  end.

(** The extension of an embedded image, from its media type. *)
Definition mediaTypeOf `{Engine} (dataUrl : jsstring) : jsstring :=
  let notSep := fun c => negb ((c =? SEMICOLON) || (c =? COMMA)) in
  match (t1 ← expectCI (lit "data:") dataUrl;
         t2 ← many1 notSep t1;
         _ ← dataParameters notSep t2;
         Some (matched t1 t2)) with
  | Some mime => toLowerCase mime
  | None => lit "image/jpeg"
  end.

Definition extensionOfMediaType (mime : jsstring) : jsstring :=
  if includes mime (lit "png") then lit ".png"
  else if includes mime (lit "jpeg") || includes mime (lit "jpg") then lit ".jpg"
  else if includes mime (lit "gif") then lit ".gif"
  else if includes mime (lit "webp") then lit ".webp"
  else if includes mime (lit "bmp") then lit ".bmp"
  else if includes mime (lit "svg") then lit ".svg"
  else if includes mime (lit "x-icon")
          || includes mime (lit "vnd.microsoft.icon")
          || includes mime (lit "ico") then lit ".ico"
  else lit ".jpg".

(** *** Tasks *)

Record task := mkTask {
  full : jsstring;          (* the whole image reference *)
  locator : jsstring;       (* [url] or [dataUrl] *)
  fileName : jsstring;      (* the name below [papers/images] *)
  ok : bool
}.

Definition localRel (t : task) : jsstring := lit "images/" ++ fileName t.

Definition remoteTask `{Engine} `{Codec} `{Crypto} (m : jsstring * jsstring)
  : task :=
  mkTask m.1 m.2 (take 32 (sha1 m.2) ++ inferImageExt m.2) false.

Definition dataTask `{Engine} `{Crypto} (m : jsstring * jsstring) : task :=
  mkTask m.1 m.2
    (take 32 (sha1 m.2) ++ extensionOfMediaType (mediaTypeOf m.2)) false.

(** *** One pass over one file *)

(** The directory [papers]: the Markdown files and the image files. *)
Record disk := mkDisk {
  markdown : gmap jsstring jsstring;
  images : gmap jsstring (list N)
}.

(** The events that follow the download of each URL. *)
Definition network := jsstring -> list Download.event.

(** What a pass has done so far.  [waiting] is set when the pass awaits a
    download whose promise never settles: the pass does nothing more. *)
Record progress := mkProgress {
  files : disk;
  totalImages : nat;
  downloaded : nat;
  waiting : bool
}.

(** The body of [worker] for one task: the download is started only when
    the target is absent; it counts, and the task succeeds, when the promise
    resolves; whatever the download left in the target stays there. *)
Definition fetchTask (net : network) (p : progress) (t : task)
  : progress * task :=
  match images (files p) !! fileName t with
  | Some _ => (p, mkTask (full t) (locator t) (fileName t) true)
  | None =>
      let d := Download.downloadWithReferer None (net (locator t)) in
      let imgs :=
        match Download.file d with
        | Some bytes => <[fileName t := bytes]> (images (files p))
        | None => images (files p)
        end in
      let p' := mkProgress (mkDisk (markdown (files p)) imgs) (totalImages p) in
      match Download.outcome d with
      | Download.Resolved =>
          (p' (S (downloaded p)) false,
           mkTask (full t) (locator t) (fileName t) true)
      | Download.Rejected _ => (p' (downloaded p) false, t)
      | Download.Pending => (p' (downloaded p) true, t)
      end
  end.

(** The body of the loop over [dataTasks]. *)
Definition writeDataTask `{Codec} (p : progress) (t : task)
  : progress * task :=
  match images (files p) !! fileName t with
  | Some _ => (p, mkTask (full t) (locator t) (fileName t) true)
  | None =>
      let commaIdx := default 0%nat (indexWhere (fun c => c =? COMMA) (locator t)) in
      let header := take commaIdx (locator t) in
      let payload := drop (S commaIdx) (locator t) in
      let isBase64 :=
        match indexOfCI (lit ";base64") header with
        | Some _ => true
        | None => false
        end in
      match decodePayload isBase64 payload with
      | Some (b :: buf) =>
          (mkProgress
             (mkDisk (markdown (files p))
                (<[fileName t := b :: buf]> (images (files p))))
             (totalImages p) (S (downloaded p)) false,
           mkTask (full t) (locator t) (fileName t) true)
      | _ => (p, t)
      end
  end.

(** A loop that takes the tasks in order, each after the one before has
    finished: the pool of [worker]s when it has one worker ([concurrency]
    is 1), and the [for] loop over [dataTasks]. *)
Fixpoint forTasks (body : progress -> task -> progress * task)
    (p : progress) (ts : list task) : progress * list task :=
  match ts with
  | [] => (p, [])
  | t :: rest =>
      if waiting p then (p, ts)
      else
        let '(p, t') := body p t in
        let '(p, rest') := forTasks body p rest in
        (p, t' :: rest')
  end.

(** [updated.split(r.full).join(r.repl)] for the replacement of a task that
    succeeded, with [repl = t.full.replace(locator, t.localRel)]. *)
Definition applyReplacement (updated : jsstring) (t : task) : jsstring :=
  splitJoin (full t) (replaceFirst (locator t) (localRel t) (full t)) updated.

(** The body of the loop over the Markdown files, for the file [mdName]
    whose text is [text]. *)
Definition localizeFile `{Engine} `{Codec} `{Crypto} (net : network)
    (p : progress) (mdName text : jsstring) : progress :=
  let raw := replaceAll svgPlaceholderAt text in
  let tasks := map remoteTask (execAll remoteImageAt 0 raw) in
  let dataTasks := map dataTask (execAll dataImageAt 0 raw) in
  let p := mkProgress (files p)
             (totalImages p + length tasks + length dataTasks) (downloaded p)
             (waiting p) in
  match tasks, dataTasks with
  | [], [] => p                                           (* continue *)
  | _, _ =>
      let '(p, tasks) := forTasks (fetchTask net) p tasks in
      if waiting p then p
      else
        let '(p, dataTasks) := forTasks writeDataTask p dataTasks in
        match filter (fun t => ok t) (tasks ++ dataTasks) with
        | [] => p
        | replacements =>
            let updated := foldl applyReplacement raw replacements in
            mkProgress
              (mkDisk (<[mdName := updated]> (markdown (files p)))
                 (images (files p)))
              (totalImages p) (downloaded p) false
        end
  end.

(** A pass over the files [all] returned by [readdirSync] and filtered by
    their extension: the disk after the pass, with the two counters of the
    final log line. *)
Definition localizeImagesInPapers `{Engine} `{Codec} `{Crypto}
    (net : network) (all : list jsstring) (d : disk) : progress :=
  foldl (fun p mdName =>
           if waiting p then p
           else match markdown (files p) !! mdName with
                | Some text => localizeFile net p mdName text
                | None => p
                end)
        (mkProgress d 0 0 false) all.

End Images.

(** ** Concrete inputs used by the examples *)

Module Examples.
Import Js Dom Host Clean.

(** The text-node branch of [convertDomNodeToMarkdown], which is all the
    converter does on a cell that holds only text. *)
Definition convertTextNode (n : node) : jsstring :=
  match n with
  | Text d => escapeMarkdown d
  | _ => []
  end.

Definition el (tag : string) (attrs : list (string * string))
    (children : list node) : node :=
  Element (lit tag) (map (fun kv => (lit kv.1, lit kv.2)) attrs) children.

Definition txt (s : string) : node := Text (lit s).

Definition document (body : list node) : node :=
  el "html" [] [el "head" [] []; el "body" [] body].

(** A parser that knows one document. *)
Definition parsesTo (html : jsstring) (doc : node) : Jsdom :=
  {| parseDocument s := if streq s html then Some doc else None |}.

(** *** Tables *)

Definition tableDocument (children : list node) : node :=
  document [el "table" [("class", "__root")] children].




(** A first row without cells. *)
Definition emptyFirstRowMarkup : jsstring :=
  lit "<tr></tr><tr><td>a</td></tr>".

Definition emptyFirstRowDom : Jsdom :=
  parsesTo (Table.wrapTable emptyFirstRowMarkup)
    (tableDocument
       [el "tbody" [] [el "tr" [] []; el "tr" [] [el "td" [] [txt "a"]]]]).






(** *** Code cards *)

Definition quoted (s : string) : jsstring := [QUOTE] ++ lit s ++ [QUOTE].

(** A card whose mode attribute says [shell]. *)
Definition shellModeMarkup : jsstring :=
  lit "<div data-codeblock-mode=" ++ quoted "shell" ++ lit "><div class="
  ++ quoted "cm-line" ++ lit ">ls -la</div></div>".

Definition shellModeDocument : node :=
  document
    [el "div" [("data-codeblock-mode", "shell")]
       [el "div" [("class", "cm-line")] [txt "ls -la"]]].

(** The same card with the language attribute instead. *)
Definition shellLanguageMarkup : jsstring :=
  lit "<div data-language=" ++ quoted "shell" ++ lit "><div class="
  ++ quoted "cm-line" ++ lit ">ls -la</div></div>".

Definition shellLanguageDocument : node :=
  document
    [el "div" [("data-language", "shell")]
       [el "div" [("class", "cm-line")] [txt "ls -la"]]].

(** A parser whose constructor always throws. *)
Definition throwingDom : Jsdom := {| parseDocument _ := None |}.

(** *** An engine, a hash and a writer

    The example engine runs in UTC and reads the two date formats of the
    listing, [YYYY-MM-DD] and [YYYY-MM-DD HH:MM]; out-of-range fields make
    the date invalid.  It lower-cases ASCII letters. *)

Definition digit (c : N) : option Z :=
  if (48 <=? c) && (c <=? 57) then Some (Z.of_N (c - 48)) else None.

Definition number (s : jsstring) : option Z :=
  foldl (fun acc c => a ← acc; d ← digit c; Some (10 * a + d)%Z) (Some 0%Z) s.

(** Days from 1970-01-01 to the given day of the proleptic Gregorian
    calendar. *)
Definition daysFromCivil (y m d : Z) : Z :=
  let y' := (if m <=? 2 then y - 1 else y)%Z in
  let era := (y' / 400)%Z in
  let yoe := (y' - era * 400)%Z in
  let mp := (if 2 <? m then m - 3 else m + 9)%Z in
  let doy := ((153 * mp + 2) / 5 + d - 1)%Z in
  let doe := (yoe * 365 + yoe / 4 - yoe / 100 + doy)%Z in
  (era * 146097 + doe - 719468)%Z.

Definition timeValue (y m d h n : Z) : option Z :=
  if ((1 <=? m) && (m <=? 12) && (1 <=? d) && (d <=? 31)
      && (h <=? 23) && (n <=? 59))%Z
  then Some (daysFromCivil y m d * 86400000 + h * 3600000 + n * 60000)%Z
  else None.

Definition utcDateParse (s : jsstring) : option Z :=
  match s with
  | [y1; y2; y3; y4; 45; m1; m2; 45; d1; d2] =>
      y ← number [y1; y2; y3; y4]; m ← number [m1; m2]; d ← number [d1; d2];
      timeValue y m d 0 0
  | [y1; y2; y3; y4; 45; m1; m2; 45; d1; d2; 32; h1; h2; 58; n1; n2] =>
      y ← number [y1; y2; y3; y4]; m ← number [m1; m2]; d ← number [d1; d2];
      h ← number [h1; h2]; n ← number [n1; n2];
      timeValue y m d h n
  | _ => None
  end.

Definition utcEngine : Engine :=
  {| toLowerCase := map lowerAscii; dateParse := utcDateParse |}.

(** A stand-in for SHA-1: forty hexadecimal digits computed from the
    code units. *)
Definition hexDigit (n : N) : N := if n <? 10 then 48 + n else 87 + n.

Fixpoint hexDigits (width : nat) (n : N) : jsstring :=
  match width with
  | O => []
  | S k => hexDigits k (n / 16) ++ [hexDigit (n mod 16)]
  end.

Definition toyCrypto : Crypto :=
  {| sha1 s := hexDigits 40 (foldl (fun a c => (a * 257 + c + 1) mod 16 ^ 40) 7 s) |}.

(** A writer that prints the title and the content, and leaves the order
    of the articles as it is. *)
Definition plainWriter : Crawl.Writer :=
  {| Crawl.generateSingleArticleMarkdown a :=
       lit "# " ++ Crawl.title a ++ [LF; LF] ++ Crawl.content a ++ [LF];
     Crawl.indexPreamble l := lit "# index" ++ [LF];
     Crawl.sortByPublishTime l := l;
     Crawl.sortByPublishTime_perm l := Permutation_refl l |}.

Definition entry (t l p : string) : Crawl.Article :=
  Crawl.mkArticle (lit t) (lit l) (lit p) [] [] [] [].

(** *** A site with pages

    A world in which the listing has the given pages, every page but the
    last has a next page, every fetch returns the given attempt, no signal
    arrives and every write succeeds. *)
Definition site (pages : list (list Crawl.Article)) (a : Crawl.Attempt)
  : Crawl.World :=
  {| Crawl.signalAt _ := false;
     Crawl.listing p := default [] (pages !! pred p);
     Crawl.hasNext p := bool_decide (p < length pages)%nat;
     Crawl.fetched _ _ := a;
     Crawl.canWrite _ := true |}.

Definition goodFetch : Crawl.Attempt :=
  Crawl.Returned
    (Some (Crawl.mkFetchResult (lit "Title of the detail page")
             (lit "The body of the article."))).

Definition failedFetch : Crawl.Attempt :=
  Crawl.Returned
    (Some (Crawl.mkFetchResult Crawl.sVisitFailed (lit "net::ERR_FAILED"))).

(** A site whose detail pages fail twice and load from the third fetch on:
    a failed fetch takes two awaits, the fetch and the delay after it. *)
Definition flakySite (pages : list (list Crawl.Article)) : Crawl.World :=
  {| Crawl.signalAt _ := false;
     Crawl.listing p := default [] (pages !! pred p);
     Crawl.hasNext p := bool_decide (p < length pages)%nat;
     Crawl.fetched t _ := if (t <? 4)%nat then failedFetch else goodFetch;
     Crawl.canWrite _ := true |}.

(** A site whose detail pages never load, and on which the user interrupts
    the run during the first await. *)
Definition interruptedSite (pages : list (list Crawl.Article)) : Crawl.World :=
  {| Crawl.signalAt t := (t =? 0)%nat;
     Crawl.listing p := default [] (pages !! pred p);
     Crawl.hasNext p := bool_decide (p < length pages)%nat;
     Crawl.fetched _ _ := failedFetch;
     Crawl.canWrite _ := true |}.

(** A site whose detail pages load, except that an empty or blank address
    cannot be visited. *)
Definition linkedSite (pages : list (list Crawl.Article)) : Crawl.World :=
  {| Crawl.signalAt _ := false;
     Crawl.listing p := default [] (pages !! pred p);
     Crawl.hasNext p := bool_decide (p < length pages)%nat;
     Crawl.fetched _ url := if falsy (trim url) then failedFetch else goodFetch;
     Crawl.canWrite _ := true |}.

Definition firstArticle : Crawl.Article :=
  entry "Article of June" "https://xz.aliyun.com/news/5" "2025-06-05 10:00".

Definition secondArticle : Crawl.Article :=
  entry "Article of May" "https://xz.aliyun.com/news/4" "2025-05-05 10:00".

(** Five pages of one article each, newest first; the threshold is
    2025-03-01, and the article of page 4 is the first at or before it. *)
Definition afterMarch : Crawl.Config :=
  @Crawl.configure utcEngine [] [] (lit "2025-03-01") 10 true.

Definition boundaryOnPage4 : list (list Crawl.Article) :=
  [[entry "Article of June" "https://xz.aliyun.com/news/5" "2025-06-05 10:00"];
   [entry "Article of May" "https://xz.aliyun.com/news/4" "2025-05-05 10:00"];
   [entry "Article of April" "https://xz.aliyun.com/news/3" "2025-04-05 10:00"];
   [entry "Article of February" "https://xz.aliyun.com/news/2" "2025-02-01 10:00"];
   [entry "Article of January" "https://xz.aliyun.com/news/1" "2025-01-01 10:00"]].

(** The same site with the boundary on page 3. *)
Definition boundaryOnPage3 : list (list Crawl.Article) :=
  [[entry "Article of June" "https://xz.aliyun.com/news/5" "2025-06-05 10:00"];
   [entry "Article of May" "https://xz.aliyun.com/news/4" "2025-05-05 10:00"];
   [entry "Article of February" "https://xz.aliyun.com/news/2" "2025-02-01 10:00"];
   [entry "Article of January" "https://xz.aliyun.com/news/1" "2025-01-01 10:00"];
   [entry "Article of December" "https://xz.aliyun.com/news/0" "2024-12-01 10:00"]].

(** Two pages; the first article of page 2 repeats the link and the time
    of the article of page 1. *)
Definition repeatedAcrossPages : list (list Crawl.Article) :=
  [[firstArticle];
   [entry "Article of June (again)" "https://xz.aliyun.com/news/5"
      "2025-06-05 10:00";
    secondArticle]].

Definition noWindow : Crawl.Config :=
  @Crawl.configure utcEngine [] [] [] 5 true.

(** An entry whose link carries a trailing space, and one without link
    whose title carries leading spaces. *)
Definition spacedLink : Crawl.Article :=
  entry "Article of June" "https://xz.aliyun.com/news/5 " "2025-06-05 10:00".

Definition spacedTitle : Crawl.Article :=
  entry "  Article of June" "" "2025-06-05 10:00".

(** Two articles with different links whose titles give the same file
    name: the slash is removed from the first title. *)
Definition slashTitle : Crawl.Article :=
  entry "Notes on TCP/IP" "https://xz.aliyun.com/news/7" "2025-06-07 10:00".

Definition plainTitle : Crawl.Article :=
  entry "Notes on TCPIP" "https://xz.aliyun.com/news/8" "2025-06-08 10:00".

(** The listing titles are kept: the detail page gives no title. *)
Definition untitledFetch : Crawl.Attempt :=
  Crawl.Returned (Some (Crawl.mkFetchResult [] (lit "The body of the article."))).

(** *** Images

    The example codec takes the path of a URL to be what follows the host,
    up to a question mark or a hash sign, and decodes a payload to its code
    units. *)
Definition pathOfUrl (url : jsstring) : option jsstring :=
  i ← indexOf (lit "://") url;
  let afterScheme := drop (i + 3) url in
  let path := drop (spanLen (fun c => negb (c =? 47)) afterScheme) afterScheme in
  Some (take (spanLen (fun c => negb ((c =? 63) || (c =? 35))) path) path).

Definition plainCodec : Codec :=
  {| urlPathname := pathOfUrl; decodePayload _ payload := Some payload |}.

(** A server that answers 200, sends the bytes and closes the stream. *)
Definition serves (bytes : list N) : list Download.event :=
  [Download.Response 200 []; Download.Chunk bytes; Download.StreamFinish].

(** A server that answers 200, sends half of the image and stalls until the
    request times out. *)
Definition stalls (bytes : list N) : list Download.event :=
  [Download.Response 200 []; Download.Chunk bytes;
   Download.RequestError (lit "Request timeout")].

Definition pngBytes : list N := [137; 80; 78; 71; 13; 10; 26; 10].

(** An article whose image has its own address as alternative text. *)
Definition imageUrl : jsstring := lit "https://xz.aliyun.com/img/a.png".

Definition articleWithImage : jsstring :=
  lit "# Title" ++ [LF; LF] ++ lit "![" ++ imageUrl ++ lit "](" ++ imageUrl
  ++ lit ")" ++ [LF].

Definition oneArticle : Images.disk :=
  Images.mkDisk {[ lit "a.md" := articleWithImage ]} ∅.

Definition firstPass : Images.progress :=
  @Images.localizeImagesInPapers utcEngine plainCodec toyCrypto
    (fun _ => serves pngBytes) [lit "a.md"] oneArticle.

Definition secondPass : Images.progress :=
  @Images.localizeImagesInPapers utcEngine plainCodec toyCrypto
    (fun _ => serves pngBytes) [lit "a.md"] (Images.files firstPass).

(** An article with one ordinary image, on a server that stalls. *)
Definition articleWithPhoto : jsstring :=
  lit "![photo](" ++ imageUrl ++ lit ")" ++ [LF].

Definition onePhoto : Images.disk :=
  Images.mkDisk {[ lit "b.md" := articleWithPhoto ]} ∅.

Definition stalledPass : Images.progress :=
  @Images.localizeImagesInPapers utcEngine plainCodec toyCrypto
    (fun _ => stalls (take 3 pngBytes)) [lit "b.md"] onePhoto.

Definition passAfterStall : Images.progress :=
  @Images.localizeImagesInPapers utcEngine plainCodec toyCrypto
    (fun _ => serves pngBytes) [lit "b.md"] (Images.files stalledPass).

End Examples.

(** ** The Markdown converter ([convertHtmlToMarkdown],
    [convertDomNodeToMarkdown], [convertElementToMarkdown]) *)

Module Markdown.
Import Js Dom Host Clean.

(** [node.innerHTML], the serialization of the children of an element. *)
Class Serializer := { innerHTML : node -> jsstring }.

(** The [context] object.  [parentListType] is ['ordered'], ['unordered']
    or absent, [listIndex] is a number or absent.  The key [inCodeBlock],
    which the ['ne-codeblock'] case sets and clears again, is never read. *)
Inductive listType : Type := Ordered | Unordered.

Record Context := mkContext {
  parentListType : option listType;
  listIndex : option nat
}.

(** The default [{}]. *)
Definition noContext : Context := mkContext None None.

(** The context inside an ordered list after [k] of its items. *)
Definition orderedAt (k : nat) : Context := mkContext (Some Ordered) (Some k).

(** *** The attribute object of [getElementAttributes]

    The object maps every attribute name to its value; the converter reads
    it at fixed names only, none of which is inherited from
    [Object.prototype]. *)
Definition getElementAttributes (element : node) : list (jsstring * jsstring) :=
  match element with
  | Element _ attrs _ => attrs
  | _ => []
  end.

(** [attributes[name] === value] *)
Definition attrIs (attributes : list (jsstring * jsstring)) (name value : string)
  : bool :=
  bool_decide (lookupAttr (lit name) attributes = Some (lit value)).

(** [attributes[name] || fallback] *)
Definition attrOr (attributes : list (jsstring * jsstring)) (name : string)
    (fallback : jsstring) : jsstring :=
  match lookupAttr (lit name) attributes with
  | Some v => orElse v fallback
  | None => fallback
  end.

(** [tagName] is one of the labels of a group of [case]s. *)
Definition isOneOf (tagName : jsstring) (labels : list string) : bool :=
  existsb (fun l => streq tagName (lit l)) labels.

(** *** [convertElementToMarkdown] *)

Definition HASH : N := 35.

(** ['ne-h1'] to ['ne-h6'] *)
Definition headingLevel (tagName : jsstring) : option nat :=
  if streq tagName (lit "ne-h1") then Some 1%nat
  else if streq tagName (lit "ne-h2") then Some 2%nat
  else if streq tagName (lit "ne-h3") then Some 3%nat
  else if streq tagName (lit "ne-h4") then Some 4%nat
  else if streq tagName (lit "ne-h5") then Some 5%nat
  else if streq tagName (lit "ne-h6") then Some 6%nat
  else None.

Definition heading (level : nat) (content : jsstring) : jsstring :=
  [LF] ++ replicate level HASH ++ [SP] ++ content ++ [LF; LF].

(** ['ne-text']: the style attributes wrap the content one after the other. *)
Definition styleText (attributes : list (jsstring * jsstring))
    (content : jsstring) : jsstring :=
  let styledContent := content in
  let styledContent :=
    if attrIs attributes "ne-bold" "true"
    then lit "**" ++ styledContent ++ lit "**" else styledContent in
  let styledContent :=
    if attrIs attributes "ne-italic" "true"
    then lit "*" ++ styledContent ++ lit "*" else styledContent in
  let styledContent :=
    if attrIs attributes "ne-code" "true"
    then [BT] ++ styledContent ++ [BT] else styledContent in
  let styledContent :=
    if attrIs attributes "ne-underline" "true"
    then lit "<u>" ++ styledContent ++ lit "</u>" else styledContent in
  let styledContent :=
    if attrIs attributes "ne-strikethrough" "true"
    then lit "~~" ++ styledContent ++ lit "~~" else styledContent in
  styledContent.

(** ['ne-oli'] and ['ne-li']: a number and a dot in an ordered list, a
    dash otherwise; [context.listIndex || 1] is the number. *)
Definition listItem (content : jsstring) (context : Context) : jsstring :=
  match parentListType context with
  | Some Ordered =>
      let index := match listIndex context with
                   | Some (S n) => S n
                   | _ => 1%nat
                   end in
      ofNat index ++ lit ". " ++ content ++ [LF]
  | _ => lit "- " ++ content ++ [LF]
  end.

(** The class names of the CodeMirror containers that are passed through. *)
Definition containerClasses : list string :=
  ["cm-editor"; "cm-scroller"; "cm-content"; "cm-gutter"; "cm-cursor";
   "cm-selection"; "cm-layer"; "cm-announced"; "ne-codeblock-copy";
   "ne-codeblock-inner"; "ne-card-container"; "ne-v-codeblock-hold"]%string.

(** The statements under [case 'span'], which [case 'div'] falls into. *)
Definition convertSpan (attributes : list (jsstring * jsstring))
    (content : jsstring) : jsstring :=
  let className := attrOr attributes "class" [] in
  if includes className (lit "ne-viewer-b-filler")
     || negb (falsy (attrOr attributes "ne-filler" []))
  then []
  else if includes className (lit "cm-line") then content
  else if existsb (fun c => includes className (lit c)) containerClasses
  then content
  else if includes className (lit "ne-code")
  then InlineCode.fenceInline content
  else if includes className (lit "ne-codeblock") then content
  else content.

Section Converter.
Context `{Jsdom} `{Engine} `{Serializer}.

(** [this.convertTableToMarkdown]; the table converter calls the node
    converter back for the child nodes of every cell. *)
Variable convertTableToMarkdown : jsstring -> jsstring.

Definition convertElementToMarkdown (tagName : jsstring)
    (attributes : list (jsstring * jsstring)) (content : jsstring)
    (context : Context) : jsstring :=
  match headingLevel tagName with
  | Some level => heading level content
  | None =>
  if streq tagName (lit "ne-p")
  then if falsy content then [] else content ++ [LF; LF]
  else if streq tagName (lit "ne-hole") then content
  else if streq tagName (lit "ne-text") then styleText attributes content
  else if streq tagName (lit "ne-code")
  then InlineCode.convertNeCodeElement content
  else if streq tagName (lit "ne-codeblock")
  then CodeCard.codeFence (attrOr attributes "language" []) content
  else if isOneOf tagName ["ne-ul"; "ne-ol"]
  then [LF] ++ content ++ [LF]
  else if isOneOf tagName ["ne-oli"; "ne-li"] then listItem content context
  else if streq tagName (lit "ne-oli-i")
  then if falsy content then [] else content ++ [SP]
  else if streq tagName (lit "ne-oli-c") then content
  else if streq tagName (lit "ne-list-symbol") then []
  else if streq tagName (lit "ne-card")
  then
    if attrIs attributes "data-card-name" "codeblock"
       || attrIs attributes "data-card-type" "block"
    then CodeCard.extractCodeFromCard content
    else if includes content (lit "![")
    then [LF] ++ content ++ [LF; LF]
    else [LF] ++ lit "> " ++ content ++ [LF; LF]
  else if isOneOf tagName
            ["ne-table-hole"; "ne-table-wrap"; "ne-table-inner-wrap";
             "ne-table-box"]
  then content
  else if isOneOf tagName ["ne-table"; "table"]
  then [LF] ++ convertTableToMarkdown content ++ [LF; LF]
  else if isOneOf tagName
            ["ne-table-row"; "ne-tr"; "tr"; "ne-table-cell"; "ne-td"; "td";
             "th"; "ne-td-content"]
  then content
  else if streq tagName (lit "ne-td-break") then []
  else if isOneOf tagName ["colgroup"; "col"; "tbody"; "thead"; "tfoot"]
  then content
  else if streq tagName (lit "br") then [LF]
  else if streq tagName (lit "a")
  then
    let href := attrOr attributes "href" [] in
    if falsy href then content
    else lit "[" ++ content ++ lit "](" ++ href ++ lit ")"
  else if streq tagName (lit "img")
  then
    let src := attrOr attributes "src" [] in
    let alt := attrOr attributes "alt" [0x56FE; 0x7247] in    (* 图片 *)
    if falsy src then []
    else lit "![" ++ alt ++ lit "](" ++ src ++ lit ")"
  else if streq tagName (lit "div")
  then
    if includes (attrOr attributes "class" []) (lit "ne-image-error")
    then []
    else convertSpan attributes content
  else if streq tagName (lit "span") then convertSpan attributes content
  else if isOneOf tagName ["script"; "style"] then []
  else content
  end.

(** *** [convertDomNodeToMarkdown] *)

(** The context handed to the children of an element. *)
Definition childContextOf (tagName : jsstring) (context : Context) : Context :=
  if isOneOf tagName ["ne-ol"; "ol"]
  then mkContext (Some Ordered) (Some 0%nat)
  else if isOneOf tagName ["ne-ul"; "ul"]
  then mkContext (Some Unordered) (listIndex context)
  else context.

Definition isListItem (child : node) : bool :=
  match child with
  | Element ctn _ _ => isOneOf ctn ["ne-li"; "li"; "ne-oli"]
  | _ => false
  end.

(** The update of [childContext] before a child is converted:
    [childContext.listIndex = (childContext.listIndex || 0) + 1] for a list
    item of an ordered list. *)
Definition countItem (child : node) (childContext : Context) : Context :=
  match parentListType childContext with
  | Some Ordered =>
      if isListItem child
      then mkContext (Some Ordered)
             (Some (S (default 0%nat (listIndex childContext))))
      else childContext
  | _ => childContext
  end.

(** The elements that are converted from their markup or their text, not
    from their converted children. *)
Definition isCodeCard (tagName : jsstring)
    (attributes : list (jsstring * jsstring)) : bool :=
  streq tagName (lit "ne-card") && attrIs attributes "data-card-name" "codeblock".

Fixpoint convertDomNodeToMarkdown (node : node) (context : Context)
  : jsstring :=
  match node with
  | Text data => escapeMarkdown data
  | Comment _ => []
  | Element tagName attributes children =>
      if isCodeCard tagName attributes
      then CodeCard.extractCodeFromCard (innerHTML node)
      else if isOneOf tagName ["ne-table"; "table"]
      then [LF] ++ convertTableToMarkdown (innerHTML node) ++ [LF; LF]
      else if streq tagName (lit "ne-code")
      then InlineCode.convertNeCodeNode node
      else
        let content :=
          (fix loop (childNodes : list Dom.node) (childContext : Context)
             : jsstring :=
             match childNodes with
             | [] => []
             | child :: rest =>
                 let childContext := countItem child childContext in
                 convertDomNodeToMarkdown child childContext
                 ++ loop rest childContext
             end) children (childContextOf tagName context) in
        convertElementToMarkdown tagName attributes content context
  end.

(** The loop over [node.childNodes], from the given state of
    [childContext]. *)
Fixpoint convertChildren (childNodes : list node) (childContext : Context)
  : jsstring :=
  match childNodes with
  | [] => []
  | child :: rest =>
      let childContext := countItem child childContext in
      convertDomNodeToMarkdown child childContext
      ++ convertChildren rest childContext
  end.

End Converter.

(** *** Tying the knot

    The node converter and the table converter call each other; the table
    converter parses the serialized table again, so the recursion is not on
    the tree.  [depth] bounds the nesting of tables that is followed: below
    it a table yields nothing.  A tree without tables is converted the same
    way at every depth. *)
Fixpoint convertNode `{Jsdom} `{Engine} `{Serializer} (depth : nat)
    (n : node) (context : Context) : jsstring :=
  convertDomNodeToMarkdown
    (match depth with
     | O => fun _ => []
     | S d => Table.convertTableToMarkdown (fun m => convertNode d m noContext)
     end) n context.

(** [document.body]: the first child of the document element that is a
    [body] or a [frameset]. *)
Definition isBody (n : node) : bool :=
  match n with
  | Element t _ _ => isOneOf t ["body"; "frameset"]
  | _ => false
  end.

Definition bodyOf (doc : node) : option node :=
  head (filter (fun n => isBody n) (childNodes doc)).

(** [convertHtmlToMarkdown]: a [null] body converts to the empty string;
    when the parser throws, the tags are stripped instead. *)
Definition convertHtmlToMarkdown `{Jsdom} `{Engine} `{Serializer}
    (depth : nat) (html : jsstring) : jsstring :=
  match parseDocument (wrapBody html) with
  | Some doc =>
      match bodyOf doc with
      | Some body => convertNode depth body noContext
      | None => []
      end
  | None => cleanHtmlTags html false
  end.

End Markdown.
(** ** Notions used to state and prove properties of the texts produced *)

Module Shape.
Import Js.

Definition BACKSLASH : N := 92.
Definition AMP : N := 38.

(** What the last two replacements of [escapeMarkdown] make of one code
    unit, and what is left of it once [&lt;] has been decoded again. *)
Definition escapedUnit (c : N) : jsstring :=
  if c =? Clean.LT then lit "&lt;"
  else if c =? Clean.GT then lit "&gt;" else [c].

Definition halfDecodedUnit (c : N) : jsstring :=
  if c =? Clean.GT then lit "&gt;" else [c].

(** No bar of [s] stands without a backslash right before it;
    [afterBackslash] tells whether a backslash stands right before [s]. *)
Fixpoint barsEscaped (afterBackslash : bool) (s : jsstring) : bool :=
  match s with
  | [] => true
  | c :: s' =>
      (if c =? Table.PIPE then afterBackslash else true)
      && barsEscaped (c =? BACKSLASH) s'
  end.

End Shape.
(** ** Reading a detail page ([fetchArticleContent]) *)

Module Fetch.
Import Js Dom Host Clean Crawl Markdown.

(** The literals of [fetchArticleContent] that are not ASCII. *)
Definition sInterrupted : jsstring :=          (* 已中断 *)
  [0x5DF2; 0x4E2D; 0x65AD].
Definition sVisitPageFailed : jsstring :=      (* 访问文章页面失败 *)
  [0x8BBF; 0x95EE; 0x6587; 0x7AE0; 0x9875; 0x9762; 0x5931; 0x8D25].
Definition sSiteSuffix : jsstring :=           (* -先知社区 *)
  [45; 0x5148; 0x77E5; 0x793E; 0x533A].

(** What the browser gives for one title selector. *)
Inductive probe : Type :=
| ProbeThrew                            (* [isVisible] or [textContent] throws *)
| NotVisible                            (* [isVisible] is false *)
| Shown (titleText : option jsstring).  (* [textContent]; [None] is [null] *)

(** What the awaited calls of one visit give.  An operation that throws
    gives the message of its error.  [this.aborted] is only ever set, so
    the flag read at a later point is the disjunction of the signals so
    far. *)
Record Visit := mkVisit {
  abortedAtEntry : bool;           (* [this.aborted] when the call starts *)
  newPage : option jsstring;       (* [Some]: [browser.newPage()] throws *)
  signalWhileOpening : bool;       (* a signal arrives before the page is set up *)
  goto : option jsstring;          (* [Some]: [articlePage.goto] throws *)
  titleProbes : list probe;        (* the five title selectors, in order; a
                                      selector without entry is not visible *)
  pageTitle : option jsstring;     (* [articlePage.title()]; [None]: it throws *)
  bodyHtml : jsstring + jsstring;  (* [innerHTML] of [.ne-viewer-body], or the
                                      message of the error it throws *)
  close : option jsstring;         (* [Some]: [articlePage.close()] throws *)
  signalWhileLoading : bool        (* a signal arrives after the page is set up *)
}.

(** The object returned by the outer [catch]. *)
Definition visitFailed (aborted : bool) (message : jsstring) : FetchResult :=
  mkFetchResult sVisitFailed
    (if aborted then sInterrupted
     else sVisitPageFailed ++ lit ": " ++ message).

(** The loop over [titleSelectors]: the first visible element whose
    trimmed text has more than 5 code units; [None] when a call throws. *)
Fixpoint probeTitles (probes : list probe) : option jsstring :=
  match probes with
  | [] => Some []
  | ProbeThrew :: _ => None
  | NotVisible :: rest => probeTitles rest
  | Shown titleText :: rest =>
      let trimmedTitle :=
        match titleText with
        | Some s => if falsy s then [] else trim s
        | None => []
        end in
      if negb (falsy trimmedTitle) && (5 <? length trimmedTitle)%nat
      then Some trimmedTitle
      else probeTitles rest
  end.

(** The first [try] block: [title] after it. *)
Definition extractTitle (v : Visit) : jsstring :=
  match probeTitles (take 5 (titleProbes v)) with
  | None => []
  | Some title =>
      if falsy title then
        match pageTitle v with
        | Some pageTitle =>
            if negb (falsy pageTitle) && includes pageTitle sSiteSuffix
            then trim (replaceFirst sSiteSuffix [] pageTitle)
            else []
        | None => []
        end
      else title
  end.

(** The second [try] block: [content] after it. *)
Definition extractContent `{Jsdom} `{Engine} `{Serializer} (depth : nat)
    (v : Visit) : jsstring :=
  match bodyHtml v with
  | inr message => sExtractFailed ++ lit ": " ++ message
  | inl htmlContent =>
      let content :=
        if negb (falsy htmlContent) && (100 <? length htmlContent)%nat
        then convertHtmlToMarkdown depth htmlContent
        else [] in
      if falsy content then sNoContent else content
  end.

Definition fetchArticleContent `{Jsdom} `{Engine} `{Serializer} (depth : nat)
    (v : Visit) : FetchResult :=
  let abortedWhenSetUp := abortedAtEntry v || signalWhileOpening v in
  let abortedLater := abortedWhenSetUp || signalWhileLoading v in
  if abortedAtEntry v then visitFailed true (lit "aborted")
  else
    match newPage v with
    | Some message => visitFailed abortedWhenSetUp message
    | None =>
        if abortedWhenSetUp then visitFailed true (lit "aborted")
        else
          match goto v with
          | Some message => visitFailed abortedLater message
          | None =>
              let title := extractTitle v in
              let content := extractContent depth v in
              match close v with
              | Some message => visitFailed abortedLater message
              | None =>
                  mkFetchResult (orElse (trim title) sUnknownTitle)
                    (orElse (trim content) sNoContent)
              end
          end
    end.

(** The visit reaches the [return] of the [try] block. *)
Definition pageRead (v : Visit) : bool :=
  negb (abortedAtEntry v || signalWhileOpening v)
  && bool_decide (newPage v = None) && bool_decide (goto v = None)
  && bool_decide (close v = None).

(** The body of the page gives no text: reading it throws, its markup has
    at most 100 code units, or its Markdown is blank. *)
Definition bodyUnusable `{Jsdom} `{Engine} `{Serializer} (depth : nat)
    (v : Visit) : Prop :=
  match bodyHtml v with
  | inr _ => True
  | inl htmlContent =>
      (length htmlContent <= 100)%nat
      \/ trim (convertHtmlToMarkdown depth htmlContent) = []
  end.

End Fetch.
(** ** The final reports ([saveResults]) *)

Module Report.
Import Js Dom Host Crawl.

(** [JSON.stringify(this.failures, null, 2)]. *)
Class Json := { stringify : list Failure -> jsstring }.

(** The files [saveResults] writes: the name and the text of each. *)
Record Reports := mkReports {
  finalIndex : option (jsstring * jsstring);      (* SUMMARY-<timestamp>.md *)
  failuresExport : option (jsstring * jsstring)   (* failures-<timestamp>.json *)
}.

(** [saveResults], with the [timestamp] it derives from the clock.  It
    returns at once when no article was saved.  [generateIndexMarkdown]
    and [generateReport] sort [this.articles] in place.  A write that
    throws ends the function; [run] catches the error. *)
Definition saveResults `{Crypto} `{Writer} `{Json} (w : World)
    (timestamp : jsstring) (c : Crawler) : Crawler * Reports :=
  match articles c with
  | [] => (c, mkReports None None)
  | _ =>
      let finalIndexName := lit "SUMMARY-" ++ timestamp ++ lit ".md" in
      let sorted := sortByPublishTime (articles c) in
      let c := setArticles sorted c in
      let indexContent := generateIndexMarkdown sorted in
      if canWrite w finalIndexName then
        let written := Some (finalIndexName, indexContent) in
        let c := setArticles (sortByPublishTime sorted) c in
        match failures c with
        | [] => (c, mkReports written None)
        | recorded =>
            let failName := lit "failures-" ++ timestamp ++ lit ".json" in
            if canWrite w failName
            then (c, mkReports written (Some (failName, stringify recorded)))
            else (c, mkReports written None)
        end
      else (c, mkReports None None)
  end.

End Report.
(** ** The command line ([main]) *)

Module Cli.
Import Js.

(** [String.prototype.toUpperCase]. *)
Class Casing := { toUpperCase : jsstring -> jsstring }.

Definition EQUALS : N := 61.
Definition HYPHEN : N := 45.

(** [s.split(sep)] for a separator of one code unit: the pieces between
    the separators; never empty. *)
Fixpoint splitOn (sep : N) (cur : jsstring) (s : jsstring) : list jsstring :=
  match s with
  | [] => [reverse cur]
  | c :: s' => if c =? sep then reverse cur :: splitOn sep [] s'
               else splitOn sep (c :: cur) s'
  end.

(** The name an argument sets, if it sets one: what stands between the
    two hyphens and the first equals sign. *)
Definition argName (a : jsstring) : option jsstring :=
  if startsWith a (lit "--") then head (splitOn EQUALS [] (drop 2 a))
  else None.

Section Main.
(** The values that are neither [true] nor a string: those a
    configuration file can hold besides, and the fallbacks. *)
Variable X : Type.

Inductive Value : Type :=
| Flag                  (* [true] *)
| Str (s : jsstring)
| Other (x : X).

(** The body of the loop of [parseArgv]: [const [k, v] = ...split('=')]
    takes the first two pieces.  An assignment to [__proto__] with [true]
    or a string changes nothing. *)
Definition parseArg (out : gmap jsstring Value) (a : jsstring)
  : gmap jsstring Value :=
  if startsWith a (lit "--") then
    match splitOn EQUALS [] (drop 2 a) with
    | k :: rest =>
        if streq k (lit "__proto__") then out
        else <[k := match rest with
                    | v :: _ => Str v
                    | [] => Flag
                    end]> out
    | [] => out
    end
  else out.

Definition parseArgv (args : list jsstring) : gmap jsstring Value :=
  foldl parseArg ∅ args.

(** [key.replace(/([a-z])([A-Z])/g, '$1_$2')] *)
Definition camelToSnake (key : jsstring) : jsstring :=
  replaceAll (fun t => match t with
                       | a :: b :: _ =>
                           if ((97 <=? a) && (a <=? 122))
                              && ((65 <=? b) && (b <=? 90))
                           then Some (2%nat, [a; 95; b])
                           else None
                       | _ => None
                       end) key.

(** [config.json] after [JSON.parse]: [null], or a value whose properties
    are read by name; [fileCfg[k]] throws on [null]. *)
Inductive FileCfg : Type :=
| NullCfg
| ObjectCfg (property : jsstring -> option Value).

Section Pick.
Context `{Casing}.
(** What an object that has no property [k] of its own gives for [k]: the
    property of [Object.prototype], if there is one. *)
Variable inherited : jsstring -> option X.
Variable args : gmap jsstring Value.
(** [process.env[k]]: a string when the variable is set. *)
Variable env : jsstring -> option Value.
Variable fileCfg : FileCfg.

(** [args[k]] *)
Definition argsGet (k : jsstring) : option Value :=
  match args !! k with
  | Some v => Some v
  | None => Other <$> inherited k
  end.

Definition envGet (key : jsstring) : option Value :=
  let cased := [key; toUpperCase key;
                toUpperCase (replaceChar HYPHEN [95] key);
                toUpperCase (camelToSnake key)] in
  head (omap env cased).

(** [pick]: [None] when reading [fileCfg] throws. *)
Fixpoint pick (keys : list jsstring) (fallback : Value) : option Value :=
  match keys with
  | [] => Some fallback
  | k :: rest =>
      match argsGet k with
      | Some v => Some v
      | None =>
          match envGet k with
          | Some envVal => Some envVal
          | None =>
              match fileCfg with
              | NullCfg => None
              | ObjectCfg property =>
                  match property k with
                  | Some v => Some v
                  | None => pick rest fallback
                  end
              end
          end
      end
  end.

End Pick.
End Main.

Arguments Flag {X}.
Arguments Str {X} s.
Arguments Other {X} x.
Arguments NullCfg {X}.
Arguments ObjectCfg {X} property.

End Cli.
(** ** Anchors ([generateAnchor]) *)

Module Anchor.
Import Js Host Crawl.

(** [\w] *)
Definition isWordChar (c : N) : bool :=
  ((97 <=? c) && (c <=? 122)) || ((65 <=? c) && (c <=? 90))
  || ((48 <=? c) && (c <=? 57)) || (c =? 95).

(** [[一-龥]] *)
Definition isHan (c : N) : bool := (0x4E00 <=? c) && (c <=? 0x9FA5).

Definition HYPHEN : N := 45.

(** The class kept by [replace(/[^\w一-龥\s-]/g, '')]. *)
Definition isKept (c : N) : bool :=
  isWordChar c || isHan c || isWhiteSpace c || (c =? HYPHEN).

Definition generateAnchor `{Engine} (title : jsstring) : jsstring :=
  let safeTitle := trim (orElse title sUnknown) in
  let kept := filter (fun c => isKept c) (toLowerCase safeTitle) in
  (* .replace(/\s+/g, '-') *)
  let hyphenated :=
    replaceAll (fun t => match spanLen isWhiteSpace t with
                         | O => None
                         | n => Some (n, [HYPHEN])
                         end) kept in
  (* .replace(/-+/g, '-') *)
  replaceAll (fun t => match spanLen (fun c => c =? HYPHEN) t with
                       | O => None
                       | n => Some (n, [HYPHEN])
                       end) hyphenated.

End Anchor.
(** ** The publish time of a listing entry ([extractArticleInfo]) *)

Module Listing.
Import Js.

Definition isDigit (c : N) : bool := (48 <=? c) && (c <=? 57).

Definition MIDDLE_DOT : N := 0xB7.
Definition sViews : jsstring := [0x6D4F; 0x89C8].      (* 浏览 *)

(** [\d{n}] at the start of [t]: what follows the digits. *)
Fixpoint digits (n : nat) (t : jsstring) : option jsstring :=
  match n with
  | O => Some t
  | S n' =>
      match t with
      | c :: t' => if isDigit c then digits n' t' else None
      | [] => None
      end
  end.

(** [\d{1,2}]: two digits when there are two.  In both patterns the item is
    followed by a hyphen, a colon or white space, so that taking one digit
    where two stand cannot make the rest match. *)
Definition oneOrTwoDigits (t : jsstring) : option jsstring :=
  match t with
  | c :: t' =>
      if isDigit c
      then Some (match t' with
                 | d :: t'' => if isDigit d then t'' else t'
                 | [] => t'
                 end)
      else None
  | [] => None
  end.

(** The group [(\d{4}-\d{1,2}-\d{1,2}\s+\d{1,2}:\d{2})] at the start of
    [t]: what follows the match. *)
Definition timeAt (t : jsstring) : option jsstring :=
  t ← digits 4 t;
  t ← Images.expect [45] t;
  t ← oneOrTwoDigits t;
  t ← Images.expect [45] t;
  t ← oneOrTwoDigits t;
  t ← Images.many1 isWhiteSpace t;
  t ← oneOrTwoDigits t;
  t ← Images.expect [58] t;
  digits 2 t.

(** [simpleTimePattern] at the start of [t]: its capture. *)
Definition simpleTimeAt (t : jsstring) : option jsstring :=
  rest ← timeAt t; Some (Images.matched t rest).

(** [timePattern] at the start of [t]: a middle dot, the number of views,
    a middle dot, the time; its capture. *)
Definition viewsTimeAt (t : jsstring) : option jsstring :=
  t ← Images.expect [MIDDLE_DOT] t;
  t ← Images.many1 isDigit (Images.many isWhiteSpace t);
  t ← Images.expect sViews t;
  t ← Images.expect [MIDDLE_DOT] (Images.many isWhiteSpace t);
  simpleTimeAt (Images.many isWhiteSpace t).

(** [text.match(re)] for an expression without the [g] flag: the capture
    of the leftmost match. *)
Fixpoint firstMatch (at_ : jsstring -> option jsstring) (s : jsstring)
  : option jsstring :=
  match at_ s with
  | Some m => Some m
  | None => match s with
            | [] => None
            | _ :: s' => firstMatch at_ s'
            end
  end.

(** The third [try] block of [extractArticleInfo]: [publishTime] after it.
    [fullText] is [element.textContent()]; on [null] the call of [match]
    throws and [publishTime] stays empty. *)
Definition extractPublishTime (fullText : option jsstring) : jsstring :=
  match fullText with
  | None => []
  | Some text =>
      trim (match firstMatch viewsTimeAt text with
            | Some m => m
            | None => default [] (firstMatch simpleTimeAt text)
            end)
  end.

(** A date and a time as the listing prints them: four digits, a hyphen,
    one or two digits, a hyphen, one or two digits, white space, one or two
    digits, a colon, two digits. *)
Definition timeShaped (t : jsstring) : Prop :=
  exists y m d ws h mi : jsstring,
    t = y ++ [45] ++ m ++ [45] ++ d ++ ws ++ h ++ [58] ++ mi
    /\ length y = 4%nat /\ (1 <= length m <= 2)%nat
    /\ (1 <= length d <= 2)%nat /\ ws ≠ []
    /\ (1 <= length h <= 2)%nat /\ length mi = 2%nat
    /\ Forall (fun c => isDigit c = true) (y ++ m ++ d ++ h ++ mi)
    /\ Forall (fun c => isWhiteSpace c = true) ws.

End Listing.
(** ** More concrete inputs *)

Module Samples.
Import Js Dom Host Examples.

(** A serializer that writes the text of the children and no markup. *)
Definition textOnly : Markdown.Serializer :=
  {| Markdown.innerHTML n := flat_map descendantText (childNodes n) |}.

(** Upper-casing of the ASCII letters. *)
Definition upperAscii (c : N) : N :=
  if (97 <=? c) && (c <=? 122) then c - 32 else c.

Definition asciiCasing : Cli.Casing := {| Cli.toUpperCase := map upperAscii |}.

(** A stand-in for [JSON.stringify]: the links of the failures. *)
Definition linksOnly : Report.Json :=
  {| Report.stringify fs := join (lit ",") (map Crawl.failLink fs) |}.

(** An ordered list of two items. *)
Definition twoItems : node :=
  Element (lit "ne-ol") []
    ([el "ne-oli" [] [txt "a"]] ++ Element (lit "ne-li") [] [txt "b"] :: []).

(** A server that does not know the image. *)
Definition notFound : list Download.event :=
  [Download.Response 404 []; Download.Chunk [1; 2; 3]; Download.StreamFinish].


(** A window from March to May 2025, and an article of 1 March, 00:00. *)
Definition firstOfMarch : Crawl.Article :=
  entry "Article of March" "https://xz.aliyun.com/news/6" "2025-03-01 00:00".

(** One listing page of three articles. *)
Definition threeOnOnePage : list (list Crawl.Article) :=
  [[firstArticle; secondArticle; firstOfMarch]].

(** A visit whose page loads and whose body cannot be read. *)
Definition bodyMissing : Fetch.Visit :=
  Fetch.mkVisit false None false None
    [Fetch.Shown (Some (lit "  A title of the page  "))] (Some [])
    (inr (lit "Timeout 30000ms exceeded.")) None false.

(** An environment that sets [MAX_PAGES] and [START_DATE], and a
    configuration that sets [maxPages]. *)
Definition someEnv (k : jsstring) : option (Cli.Value unit) :=
  if streq k (lit "MAX_PAGES") then Some (Cli.Str (lit "7"))
  else if streq k (lit "START_DATE") then Some (Cli.Str (lit "2024-01-01"))
  else None.

(** Of the properties of [Object.prototype], the constructor. *)
Definition constructorOnly (k : jsstring) : option unit :=
  if streq k (lit "constructor") then Some tt else None.

Definition someCfg : Cli.FileCfg unit :=
  Cli.ObjectCfg (fun k => if streq k (lit "maxPages")
                          then Some (Cli.Str (lit "9")) else None).

End Samples.
(** * Part II: the proofs *)

(** ** Facts on JavaScript strings *)

Section JsFacts.
Import Js.

Lemma startsWith_one (s : jsstring) (c : N) :
  startsWith s [c] = true <-> head s = Some c.
Proof.
  destruct s as [|d s]; simpl; [split; discriminate|].
  rewrite andb_true_r, N.eqb_eq. split; [intros ->; reflexivity | congruence].
Qed.

Lemma endsWith_one (s : jsstring) (c : N) :
  endsWith s [c] = true <-> last s = Some c.
Proof.
  unfold endsWith. change (reverse [c]) with [c].
  rewrite startsWith_one, head_reverse. reflexivity.
Qed.

Lemma occursIn_nil (s : jsstring) : occursIn [] s.
Proof. exists [], s. reflexivity. Qed.

Lemma occursIn_app_l (p a b : jsstring) : occursIn p a -> occursIn p (a ++ b).
Proof.
  intros (x & y & ->). exists x, (y ++ b). by rewrite <- !(assoc_L (++)).
Qed.

Lemma occursIn_app_r (p a b : jsstring) : occursIn p b -> occursIn p (a ++ b).
Proof.
  intros (x & y & ->). exists (a ++ x), y. by rewrite <- !(assoc_L (++)).
Qed.

(** An occurrence of [p] in [a ++ c :: b] that does not use [c] lies in [a]
    or in [b]. *)
Lemma occursIn_split (p a b : jsstring) (c : N) :
  c ∉ p -> occursIn p (a ++ c :: b) -> occursIn p a \/ occursIn p b.
Proof.
  intros Hc (x & y & E).
  apply app_eq_inv in E as [(k & -> & E) | (k & -> & E)].
  - left. symmetry in E.
    apply app_eq_inv in E as [(k' & -> & E) | (k' & -> & E)].
    + exists x, k'. reflexivity.
    + destruct k' as [|d k']; simpl in E.
      * exists x, []. by rewrite !app_nil_r.
      * exfalso. injection E as -> _. apply Hc. set_solver.
  - destruct k as [|d k]; simpl in E.
    + destruct p as [|e p]; [left; apply occursIn_nil|].
      exfalso. injection E as -> _. apply Hc. left.
    + injection E as _ ->. right. exists k, y. reflexivity.
Qed.

(** No occurrence of a longer run inside a run. *)
Lemma occursIn_replicate (k n : nat) (c : N) :
  occursIn (replicate k c) (replicate n c) -> (k <= n)%nat.
Proof.
  intros (x & y & E). apply (f_equal length) in E.
  rewrite !length_app, !length_replicate in E. lia.
Qed.

End JsFacts.
(** ** Inline code *)

Section InlineCodeFacts.
Import Js Dom InlineCode.

Lemma replaceNewlineRuns_no_LF (r : bool) (s : jsstring) :
  LF ∉ replaceNewlineRuns r s.
Proof.
  revert r. induction s as [|c s IH]; intros r; simpl; [set_solver|].
  destruct (N.eqb_spec c LF) as [->|Hc].
  - destruct r; [apply IH|]. rewrite not_elem_of_cons. split; [done|apply IH].
  - rewrite not_elem_of_cons. split; [congruence|apply IH].
Qed.

Lemma replaceNewlineRuns_id (r : bool) (s : jsstring) :
  LF ∉ s -> replaceNewlineRuns r s = s.
Proof.
  revert r. induction s as [|c s IH]; intros r H; simpl; [done|].
  apply not_elem_of_cons in H as [Hc Hs].
  destruct (N.eqb_spec c LF) as [->|_]; [done|]. by rewrite IH.
Qed.

Lemma runAfter_cons (r : bool) (c : N) (a : jsstring) :
  runAfter r (c :: a) = runAfter (c =? LF) a.
Proof.
  unfold runAfter. destruct a as [|d a]; [done|].
  change (last (c :: d :: a)) with (last (d :: a)).
  destruct (last (d :: a)) eqn:El; [done|]. by apply last_None in El.
Qed.

Lemma replaceNewlineRuns_app (r : bool) (a b : jsstring) :
  replaceNewlineRuns r (a ++ b)
  = replaceNewlineRuns r a ++ replaceNewlineRuns (runAfter r a) b.
Proof.
  revert r. induction a as [|c a IH]; intros r; [done|].
  rewrite runAfter_cons. simpl.
  destruct (c =? LF); [destruct r|]; rewrite IH; done.
Qed.

Lemma replaceNewlineRuns_run (k : nat) (b : jsstring) :
  head b ≠ Some LF ->
  replaceNewlineRuns false (replicate (S k) LF ++ b)
  = SP :: replaceNewlineRuns false b.
Proof.
  intros Hb. simpl. f_equal.
  induction k as [|k IH]; simpl; [|exact IH].
  destruct b as [|c b]; simpl; [done|].
  destruct (N.eqb_spec c LF) as [->|_]; [by destruct Hb|done].
Qed.

Lemma replaceNewlineRuns_collapse (a b : jsstring) (k : nat) :
  last a ≠ Some LF -> head b ≠ Some LF ->
  replaceNewlineRuns false (a ++ replicate (S k) LF ++ b)
  = replaceNewlineRuns false a ++ [SP] ++ replaceNewlineRuns false b.
Proof.
  intros Ha Hb. rewrite replaceNewlineRuns_app. f_equal.
  assert (runAfter false a = false) as ->.
  { unfold runAfter. destruct (last a) as [c|]; [|done].
    apply N.eqb_neq. congruence. }
  by apply replaceNewlineRuns_run.
Qed.


(** The longest run read by [matchBacktickRuns] when [n] backticks are
    pending. *)
Lemma matchBacktickRuns_nil (n : nat) :
  max_list (map length (matchBacktickRuns (replicate n BT) [])) = n.
Proof. destruct n; simpl; [done|]. rewrite length_replicate. lia. Qed.

Lemma matchBacktickRuns_BT (n : nat) (s : jsstring) :
  matchBacktickRuns (replicate n BT) (BT :: s)
  = matchBacktickRuns (replicate (S n) BT) s.
Proof. done. Qed.

Lemma matchBacktickRuns_other (n : nat) (c : N) (s : jsstring) :
  c ≠ BT ->
  max_list (map length (matchBacktickRuns (replicate n BT) (c :: s)))
  = (n `max` max_list (map length (matchBacktickRuns [] s)))%nat.
Proof.
  intros Hc. simpl. destruct (N.eqb_spec c BT) as [|_]; [done|].
  destruct n; simpl; [done|]. by rewrite length_replicate.
Qed.

Lemma replicate_app_cons (n : nat) (c : N) (s : jsstring) :
  replicate n c ++ c :: s = replicate (S n) c ++ s.
Proof. by rewrite cons_middle, (assoc_L (++)), <- replicate_S_end. Qed.

Lemma matchBacktickRuns_pending (s : jsstring) (n : nat) :
  (n <= max_list (map length (matchBacktickRuns (replicate n BT) s)))%nat.
Proof.
  revert n. induction s as [|c s IH]; intros n.
  - by rewrite matchBacktickRuns_nil.
  - destruct (decide (c = BT)) as [->|Hc].
    + rewrite matchBacktickRuns_BT. specialize (IH (S n)). lia.
    + rewrite matchBacktickRuns_other by done. lia.
Qed.

Lemma matchBacktickRuns_bound (s : jsstring) (n k : nat) :
  occursIn (replicate k BT) (replicate n BT ++ s) ->
  (k <= max_list (map length (matchBacktickRuns (replicate n BT) s)))%nat.
Proof.
  revert n. induction s as [|c s IH]; intros n H.
  - rewrite app_nil_r in H. apply occursIn_replicate in H.
    by rewrite matchBacktickRuns_nil.
  - destruct (decide (c = BT)) as [->|Hc].
    + rewrite matchBacktickRuns_BT. apply IH. by rewrite <- replicate_app_cons.
    + rewrite matchBacktickRuns_other by done.
      destruct k as [|k]; [lia|].
      apply occursIn_split in H as [H|H].
      * apply occursIn_replicate in H. lia.
      * apply (IH 0%nat) in H. simpl in H. lia.
      * intros Hin. apply elem_of_replicate_inv in Hin. congruence.
Qed.

Lemma matchBacktickRuns_attained (s : jsstring) (n : nat) :
  occursIn
    (replicate (max_list (map length (matchBacktickRuns (replicate n BT) s))) BT)
    (replicate n BT ++ s).
Proof.
  revert n. induction s as [|c s IH]; intros n.
  - rewrite matchBacktickRuns_nil, app_nil_r. exists [], []. by rewrite app_nil_r.
  - destruct (decide (c = BT)) as [->|Hc].
    + rewrite matchBacktickRuns_BT, replicate_app_cons. apply IH.
    + rewrite matchBacktickRuns_other by done.
      destruct (Nat.max_spec n (max_list (map length (matchBacktickRuns [] s))))
        as [[_ ->]|[_ ->]].
      * apply occursIn_app_r. change (c :: s) with ([c] ++ s).
        apply occursIn_app_r. apply (IH 0%nat).
      * apply occursIn_app_l. exists [], []. by rewrite app_nil_r.
Qed.

Lemma fenceLen_max (raw : jsstring) :
  fenceLen raw = S (max_list (map length (matchBacktickRuns [] raw))).
Proof. unfold fenceLen. by destruct (matchBacktickRuns [] raw). Qed.

Lemma needsPadding_spec (raw : jsstring) :
  needsPadding raw = true
  <-> head raw = Some BT \/ last raw = Some BT
      \/ head raw = Some SP \/ last raw = Some SP.
Proof.
  unfold needsPadding.
  rewrite !orb_true_iff, !startsWith_one, !endsWith_one. tauto.
Qed.

Example fenceInline_plain :
  fenceInline (lit "ls -la") = lit "`ls -la`".
Proof. reflexivity. Qed.

Example fenceInline_backticks :
  fenceInline (LF :: lit "a``b`c" ++ [LF; LF] ++ lit "d")
  = lit "```  a``b`c d ```".
Proof. reflexivity. Qed.

Example convertNeCodeNode_nested :
  convertNeCodeNode
    (Element (lit "ne-code") []
       [Text (lit "x`"); Element (lit "span") [] [Text (lit "y")]])
  = lit "``x`y``".
Proof. reflexivity. Qed.

(** C1. Inline code: the text that is fenced is the content with every run
    of line feeds replaced by one space; the fence is one backtick longer
    than the longest run of backticks of that text and at least one backtick
    long; exactly one space separates each fence from the text when the text
    starts or ends with a backtick or a space, and nothing does otherwise;
    the fence does not occur in the text. *)
Theorem inline_code_fence_safe (content : jsstring) :
  let raw := replaceNewlineRuns false content in
  let n := fenceLen raw in
  let fence := replicate n BT in
  (* newline runs become single spaces *)
  ((LF ∉ raw)
   /\ (LF ∉ content -> raw = content)
   /\ (forall a b k, content = a ++ replicate (S k) LF ++ b ->
         last a ≠ Some LF -> head b ≠ Some LF ->
         raw = replaceNewlineRuns false a ++ [SP] ++ replaceNewlineRuns false b))
  (* the fence is the longest backtick run plus one, at least 1 *)
  /\ ((1 <= n)%nat
      /\ occursIn (replicate (n - 1) BT) raw
      /\ (forall k, occursIn (replicate k BT) raw -> (k < n)%nat))
  (* padding *)
  /\ (fenceInline content
      = if needsPadding raw then fence ++ [SP] ++ raw ++ [SP] ++ fence
        else fence ++ raw ++ fence)
  /\ (needsPadding raw = true
      <-> head raw = Some BT \/ last raw = Some BT
          \/ head raw = Some SP \/ last raw = Some SP)
  (* the fence is not a substring of the text *)
  /\ ~ occursIn fence raw.
Proof.
  intros raw n fence. subst n fence.
  assert (Hub : forall k, occursIn (replicate k BT) raw ->
                          (k < fenceLen raw)%nat).
  { intros k Hk. rewrite fenceLen_max.
    apply (matchBacktickRuns_bound raw 0) in Hk. simpl in Hk. lia. }
  repeat split.
  - apply replaceNewlineRuns_no_LF.
  - apply replaceNewlineRuns_id.
  - intros a b k -> Ha Hb. by apply replaceNewlineRuns_collapse.
  - rewrite fenceLen_max. lia.
  - rewrite fenceLen_max. simpl. rewrite Nat.sub_0_r.
    apply (matchBacktickRuns_attained raw 0).
  - exact Hub.
  - apply needsPadding_spec.
  - apply needsPadding_spec.
  - intros H. apply Hub in H. lia.
Qed.

End InlineCodeFacts.
(** ** The code extractor *)

Section CodeCardFacts.
Import Js Dom Host Clean CodeCard.
Context `{Jsdom} `{Engine}.

Lemma replaceChar_removes (c : N) (s : jsstring) : c ∉ replaceChar c [] s.
Proof.
  unfold replaceChar. induction s as [|d s IH]; simpl; [set_solver|].
  destruct (N.eqb_spec d c) as [->|Hd]; simpl; [done|].
  rewrite not_elem_of_cons. split; [congruence|done].
Qed.

(** The extractor returns the empty string or a fence around code that is
    not empty and holds no zero-width space. *)
Lemma extractCodeFromCard_shape (content : jsstring) :
  extractCodeFromCard content = []
  \/ exists language code,
       extractCodeFromCard content = codeFence language code
       /\ code ≠ [] /\ ZWSP ∉ code.
Proof.
  unfold extractCodeFromCard. destruct (falsy content); [by left|].
  destruct (match parseDocument _ with Some _ => _ | None => _ end)
    as [language code].
  pose proof (replaceChar_removes ZWSP code) as Hz.
  destruct (replaceChar ZWSP [] code) as [|c0 cs] eqn:E; [by left|].
  right. exists language, (c0 :: cs). by repeat split.
Qed.

(** With [.cm-line] elements the code is one line per element, joined by
    line feeds; a [br] inside a line adds nothing. *)
Lemma detectCode_lines (doc : node) :
  documentQueryAll [ByClass (lit "cm-line")] doc ≠ [] ->
  detectCode doc
  = join [LF] (map lineText (documentQueryAll [ByClass (lit "cm-line")] doc)).
Proof.
  intros Hne. unfold detectCode.
  by destruct (documentQueryAll [ByClass (lit "cm-line")] doc).
Qed.

Lemma walkNodes_br (attrs : list (jsstring * jsstring)) (cs : list node) :
  walkNodes (Element (lit "br") attrs cs) = [].
Proof. done. Qed.

End CodeCardFacts.

Section CodeCardExamples.
Import Js Dom Host Clean CodeCard Examples.

(** C7, at the failing input.  The card names its language in the mode
    attribute as [shell]: the fence is opened with [shell], not [bash].  The
    same card with the language attribute, and the same markup on the branch
    taken when the parser throws, are both opened with [bash]. *)
Theorem code_card_mode_shell_is_kept :
  @extractCodeFromCard
     (parsesTo (wrapBody shellModeMarkup) shellModeDocument) utcEngine
     shellModeMarkup
  = lit "
```shell
ls -la
```

"
  /\ @extractCodeFromCard
       (parsesTo (wrapBody shellLanguageMarkup) shellLanguageDocument)
       utcEngine shellLanguageMarkup
     = lit "
```bash
ls -la
```

"
  /\ @extractCodeFromCard throwingDom utcEngine shellModeMarkup
     = lit "
```bash
ls -la
```

".
Proof. evaluate. Qed.

End CodeCardExamples.
(** ** The table converter *)

Section TableFacts.
Import Js Dom Host Clean Table.
Context `{Jsdom}.
Variable conv : node -> jsstring.











End TableFacts.

Section TableExamples.
Import Js Dom Host Clean Table Examples.



(** A table whose first row has no cell and whose rows hold no header
    cell: the second row is printed without a separator. *)
Example cell_less_first_row :
  @convertTableToMarkdown convertTextNode emptyFirstRowDom emptyFirstRowMarkup
  = lit "| a |
".
Proof. evaluate. Qed.

End TableExamples.
(** ** The window filter *)

Section WindowFacts.
Import Js Dom Host Crawl.
Context `{Engine}.

Lemma dateGe_true (a b : Date) :
  dateGe a b = true <-> exists x y, a = Some x /\ b = Some y /\ (y <= x)%Z.
Proof.
  destruct a as [x|], b as [y|]; simpl; rewrite ?Z.leb_le;
    (split; [intros Hle; try done; by exists x, y | by intros (? & ? & [= <-] & [= <-] & ?)]).
Qed.

Lemma dateLe_true (a b : Date) :
  dateLe a b = true <-> exists x y, a = Some x /\ b = Some y /\ (x <= y)%Z.
Proof.
  destruct a as [x|], b as [y|]; simpl; rewrite ?Z.leb_le;
    (split; [intros Hle; try done; by exists x, y | by intros (? & ? & [= <-] & [= <-] & ?)]).
Qed.

Lemma dateGt_true (a b : Date) :
  dateGt a b = true <-> exists x y, a = Some x /\ b = Some y /\ (y < x)%Z.
Proof.
  destruct a as [x|], b as [y|]; simpl; rewrite ?Z.ltb_lt;
    (split; [intros Hle; try done; by exists x, y | by intros (? & ? & [= <-] & [= <-] & ?)]).
Qed.

(** The filter, bound by bound. *)
Lemma inWindow_formula (cfg : Config) (article : Article) :
  inWindow cfg article
  = negb (falsy (publishTime article))
    && match startDate cfg with
       | Some sd => dateGe (dateParse (publishTime article)) sd
       | None => true
       end
    && match endDate cfg with
       | Some ed => dateLe (dateParse (publishTime article)) ed
       | None => true
       end
    && match startDate cfg, endDate cfg, targetDate cfg with
       | None, None, Some td => dateGt (dateParse (publishTime article)) td
       | _, _, _ => true
       end.
Proof.
  unfold inWindow. destruct (falsy (publishTime article)); [done|].
  destruct (startDate cfg), (endDate cfg), (targetDate cfg); simpl;
    by rewrite ?andb_true_r.
Qed.

(** With both bounds: the time stamp parses and lies between them. *)
Lemma inWindow_range (cfg : Config) (article : Article) (sd ed : Date) :
  startDate cfg = Some sd -> endDate cfg = Some ed ->
  inWindow cfg article = true
  <-> publishTime article ≠ []
      /\ exists t s e, dateParse (publishTime article) = Some t
           /\ sd = Some s /\ ed = Some e /\ (s <= t <= e)%Z.
Proof.
  intros Hs He. rewrite inWindow_formula, Hs, He, andb_true_r.
  rewrite !andb_true_iff, dateGe_true, dateLe_true, negb_true_iff.
  split.
  - intros [[Hp (t & s & Ht & -> & ?)] (t' & e & Ht' & -> & ?)].
    split; [by destruct (publishTime article)|].
    exists t, s, e. rewrite Ht in Ht'. injection Ht' as <-. done.
  - intros [Hp (t & s & e & Ht & -> & -> & ? & ?)].
    split; [split|]; [by destruct (publishTime article)| |]; eauto 6.
Qed.

(** With the single threshold: the time stamp parses and is strictly later. *)
Lemma inWindow_target (cfg : Config) (article : Article) (td : Date) :
  startDate cfg = None -> endDate cfg = None -> targetDate cfg = Some td ->
  inWindow cfg article = true
  <-> publishTime article ≠ []
      /\ exists t d, dateParse (publishTime article) = Some t
           /\ td = Some d /\ (d < t)%Z.
Proof.
  intros Hs He Ht. rewrite inWindow_formula, Hs, He, Ht, !andb_true_r.
  rewrite andb_true_iff, dateGt_true, negb_true_iff.
  split.
  - intros [Hp ?]. split; [by destruct (publishTime article)|done].
  - intros [Hp ?]. split; [by destruct (publishTime article)|done].
Qed.

(** With no bound at all, every entry that has a time stamp is kept,
    whether the time stamp parses or not. *)
Lemma inWindow_unbounded (cfg : Config) (article : Article) :
  startDate cfg = None -> endDate cfg = None -> targetDate cfg = None ->
  inWindow cfg article = negb (falsy (publishTime article)).
Proof.
  intros Hs He Ht. by rewrite inWindow_formula, Hs, He, Ht, !andb_true_r.
Qed.

End WindowFacts.

Section WindowExamples.
Import Js Dom Host Crawl Examples.

(** The window of the spec's example. *)
Example window_2025 :
  let cfg := @configure utcEngine (lit "2025-03-01") (lit "2025-09-01") [] 5 true in
  let jan := entry "January article" "https://xz.aliyun.com/news/1" "2025-01-01" in
  let jun := entry "June article" "https://xz.aliyun.com/news/2" "2025-06-15" in
  let dec := entry "December article" "https://xz.aliyun.com/news/3" "2025-12-31" in
  filter (@inWindow utcEngine cfg) [jan; jun; dec] = [jun].
Proof. evaluate. Qed.

(** C5, at the failing input.  No date is configured (the default
    configuration); the entry carries a time stamp that the listing pattern
    accepts and that is not a date.  Its time value is NaN, and the filter
    keeps it. *)
Theorem window_keeps_unparseable_without_bounds :
  let cfg := @configure utcEngine [] [] [] 1 true in
  let odd := entry "An article title" "https://xz.aliyun.com/news/1"
               "2025-13-45 99:99" in
  startDate cfg = None /\ endDate cfg = None /\ targetDate cfg = None
  /\ @dateParse utcEngine (publishTime odd) = None
  /\ @inWindow utcEngine cfg odd = true.
Proof. evaluate. Qed.

End WindowExamples.
(** ** The page loop *)

Section PaginationFacts.
Import Js Dom Host Crawl.
Context `{Engine} `{Crypto} `{Writer}.
Variable w : World.

#[local] Instance samePages_refl : Reflexive samePages.
Proof. by intros c. Qed.
#[local] Instance samePages_trans : Transitive samePages.
Proof. intros a b c [? ?] [? ?]. split; congruence. Qed.

Lemma samePages_await (c : Crawler) : samePages c (await w c).
Proof. done. Qed.

Lemma samePages_retryLoop (url : jsstring) (d : Z) (n a : nat)
    (e : option jsstring) (c : Crawler) :
  samePages c (retryLoop w url d n a e c).1.
Proof.
  revert a e c. induction n as [|n IH]; intros a e c; simpl; [done|].
  destruct (aborted c); [done|].
  destruct (attemptResult _); [done|].
  destruct n; [done|]. etrans; [|apply IH]. done.
Qed.

Lemma samePages_maybeUpdateSummaryFile (c : Crawler) :
  samePages c (maybeUpdateSummaryFile w c).
Proof.
  unfold maybeUpdateSummaryFile, updateSummaryFile.
  repeat case_match; done.
Qed.

Lemma samePages_save (c : Crawler) (a : Article) :
  samePages c (saveArticleImmediately w c a).1.
Proof. unfold saveArticleImmediately. repeat case_match; done. Qed.

Lemma samePages_persist (k : jsstring) (a : Article) (c : Crawler) :
  samePages c (persist w k a c).
Proof.
  unfold persist, registerSaved. destruct (aborted c); [done|].
  pose proof (samePages_save c a) as Hs.
  destruct (saveArticleImmediately w c a) as [c1 [f|]]; simpl in Hs; [|done].
  destruct (aborted c1); [done|].
  etrans; [exact Hs|]. etrans; [|apply samePages_maybeUpdateSummaryFile].
  by case_bool_decide.
Qed.

Lemma samePages_runOneItem (c : Crawler) (a : Article) :
  samePages c (runOneItem w c a).1.
Proof.
  unfold runOneItem. case_bool_decide; [done|].
  unfold fetchArticleContentWithRetry.
  pose proof (samePages_retryLoop (link a) 800 2 0 None c) as Hr.
  destruct (retryLoop _ _ _ _ _ _ _) as [c1 [res|msg]]; simpl in *.
  - etrans; [exact Hr|apply samePages_persist].
  - by destruct (aborted c1).
Qed.

Lemma samePages_runOne (items : list Article) (c : Crawler) :
  samePages c (runOne w c items).
Proof.
  revert c. induction items as [|a items IH]; intros c; simpl; [done|].
  destruct (aborted c); [done|].
  pose proof (samePages_runOneItem c a) as Hi.
  destruct (runOneItem w c a) as [c1 [|]]; simpl in Hi; [|done].
  etrans; [exact Hi|apply IH].
Qed.

Lemma samePages_saveOnlyItem (c : Crawler) (a : Article) :
  samePages c (saveOnlyItem w c a).
Proof.
  unfold saveOnlyItem. case_bool_decide; [done|].
  pose proof (samePages_save c a) as Hs.
  destruct (saveArticleImmediately w c a) as [c1 [f|]]; simpl in Hs; [|done].
  destruct (aborted c1); [done|].
  etrans; [exact Hs|]. etrans; [|apply samePages_maybeUpdateSummaryFile]. done.
Qed.

Lemma samePages_saveOnly (items : list Article) (c : Crawler) :
  samePages c (saveOnly w c items).
Proof.
  revert c. induction items as [|a items IH]; intros c; simpl; [done|].
  destruct (aborted c); [done|].
  etrans; [apply samePages_saveOnlyItem|apply IH].
Qed.

Lemma pageLoop_pages (cfg : Config) (remaining cur : nat) (c : Crawler) :
  exists k k' : nat,
    pagesRead (pageLoop w cfg remaining cur c) = pagesRead c ++ seq cur k
    /\ nextRequested (pageLoop w cfg remaining cur c)
       = nextRequested c ++ seq cur k'
    /\ (k' <= k <= S k')%nat
    /\ (forall q, q ∈ seq cur k' -> cutoffAt w cfg q = false).
Proof.
  revert cur c. induction remaining as [|n IH]; intros cur c; simpl.
  { exists 0%nat, 0%nat. rewrite !app_nil_r. repeat split; [lia..|set_solver]. }
  destruct (aborted c).
  { exists 0%nat, 0%nat. rewrite !app_nil_r. repeat split; [lia..|set_solver]. }
  set (c1 := await w (setPagesRead (pagesRead c ++ [cur]) c)).
  assert (Hstop : forall c2, samePages c1 c2 ->
            exists k k' : nat,
              pagesRead c2 = pagesRead c ++ seq cur k
              /\ nextRequested c2 = nextRequested c ++ seq cur k'
              /\ (k' <= k <= S k')%nat
              /\ (forall q, q ∈ seq cur k' -> cutoffAt w cfg q = false)).
  { intros c2 [Hr Hn]. exists 1%nat, 0%nat. rewrite Hr, Hn. simpl.
    rewrite app_nil_r. repeat split; [lia..|set_solver]. }
  destruct (listing w cur) as [|a0 l0] eqn:El; [by apply Hstop|].
  rewrite <- El.
  set (c2 := if fetchFullContent cfg
             then await w (runOne w c1 (filter (inWindow cfg) (listing w cur)))
             else saveOnly w c1 (filter (inWindow cfg) (listing w cur))).
  assert (H12 : samePages c1 c2).
  { subst c2. destruct (fetchFullContent cfg).
    - etrans; [apply samePages_runOne|apply samePages_await].
    - apply samePages_saveOnly. }
  destruct (hasOlderArticles cfg (listing w cur) && (3 <? cur)%nat) eqn:Ecut;
    [by apply Hstop|].
  destruct (aborted c2); [by apply Hstop|].
  set (c3 := await w (setNextRequested (nextRequested c2 ++ [cur]) c2)).
  assert (Hr3 : pagesRead c3 = pagesRead c ++ [cur]).
  { destruct H12 as [Hr _]. simpl. by rewrite Hr. }
  assert (Hn3 : nextRequested c3 = nextRequested c ++ [cur]).
  { destruct H12 as [_ Hn]. simpl. by rewrite Hn. }
  destruct (hasNext w cur).
  - destruct (IH (S cur) c3) as (k & k' & Hr & Hn & Hk & Hq).
    exists (S k), (S k'). rewrite Hr, Hn, Hr3, Hn3, <- !(assoc_L (++)).
    repeat split; [lia..|].
    intros q [->|Hin]%elem_of_cons; [exact Ecut|by apply Hq].
  - exists 1%nat, 1%nat. rewrite Hr3, Hn3. repeat split; [lia..|].
    intros q [->|Hin]%elem_of_cons; [exact Ecut|set_solver].
Qed.

(** An entry at or before the lower bound makes [hasOlderArticles] true. *)
Lemma hasOlderArticles_intro (cfg : Config) (articlesOnPage : list Article)
    (bound t : Z) (article : Article) :
  thresholdDate cfg = Some (Some bound) ->
  article ∈ articlesOnPage ->
  publishTime article ≠ [] ->
  dateParse (publishTime article) = Some t ->
  (t <= bound)%Z ->
  hasOlderArticles cfg articlesOnPage = true.
Proof.
  intros Hth Hin Hne Ht Hle. unfold hasOlderArticles. rewrite Hth.
  apply existsb_exists. exists article. split; [by apply list_elem_of_In|].
  rewrite Ht. simpl. destruct (publishTime article); [done|].
  by apply Z.leb_le.
Qed.

(** C6, as amended.  When the window has a lower bound (the start date, or
    else the target date), some entry of page [p] has a publish time at or
    before that bound, and [p] is greater than 3, that is, at least three
    pages were crawled before page [p]: the next page is never requested
    from page [p] and no page after [p] is read. *)
Theorem pagination_cutoff (cfg : Config) (disk : gmap jsstring jsstring)
    (p : nat) (bound t : Z) (article : Article) :
  (3 < p)%nat ->
  thresholdDate cfg = Some (Some bound) ->
  article ∈ listing w p ->
  publishTime article ≠ [] ->
  dateParse (publishTime article) = Some t ->
  (t <= bound)%Z ->
  (p ∉ nextRequested (scrapeArticles w cfg (newCrawler disk)))
  /\ (forall q, q ∈ pagesRead (scrapeArticles w cfg (newCrawler disk)) ->
        (q <= p)%nat).
Proof.
  intros Hp Hth Hin Hne Ht Hle.
  pose proof (hasOlderArticles_intro cfg _ bound t article Hth Hin Hne Ht Hle)
    as Hold.
  unfold scrapeArticles.
  destruct (pageLoop_pages cfg (maxPages cfg) 1 (newCrawler disk))
    as (k & k' & -> & -> & Hk & Hq). simpl.
  assert (Hcut : cutoffAt w cfg p = true).
  { unfold cutoffAt. rewrite Hold. simpl. by apply Nat.ltb_lt. }
  assert (Hnot : p ∉ seq 1 k').
  { intros Hin'. apply Hq in Hin'. congruence. }
  split; [exact Hnot|].
  intros q Hq'. apply elem_of_seq in Hq'.
  rewrite elem_of_seq in Hnot. lia.
Qed.

End PaginationFacts.

Section PaginationExamples.
Import Js Dom Host Crawl Examples.

(** An instance: the boundary entry, of February, is on page 4. *)
Lemma pagination_cutoff_witness :
  let february :=
    entry "Article of February" "https://xz.aliyun.com/news/2"
      "2025-02-01 10:00" in
  (3 < 4)%nat
  /\ thresholdDate afterMarch = Some (Some 1740787200000%Z)
  /\ february ∈ listing (site boundaryOnPage4 goodFetch) 4
  /\ publishTime february ≠ []
  /\ @dateParse utcEngine (publishTime february) = Some 1738404000000%Z
  /\ (1738404000000 <= 1740787200000)%Z
  /\ (4%nat ∉ nextRequested
                 (@scrapeArticles utcEngine toyCrypto plainWriter
                    (site boundaryOnPage4 goodFetch) afterMarch (newCrawler ∅)))
  /\ (forall q,
        q ∈ pagesRead
              (@scrapeArticles utcEngine toyCrypto plainWriter
                 (site boundaryOnPage4 goodFetch) afterMarch (newCrawler ∅)) ->
        (q <= 4)%nat).
Proof.
  intros february.
  assert (H1 : (3 < 4)%nat) by lia.
  assert (H2 : thresholdDate afterMarch = Some (Some 1740787200000%Z))
    by (vm_compute; reflexivity).
  assert (H3 : february ∈ listing (site boundaryOnPage4 goodFetch) 4)
    by (vm_compute; left).
  assert (H4 : publishTime february ≠ []) by (vm_compute; discriminate).
  assert (H5 : @dateParse utcEngine (publishTime february)
               = Some 1738404000000%Z) by (vm_compute; reflexivity).
  assert (H6 : (1738404000000 <= 1740787200000)%Z) by lia.
  do 6 (split; [assumption|]).
  exact (@pagination_cutoff utcEngine toyCrypto plainWriter
           (site boundaryOnPage4 goodFetch) afterMarch ∅ 4 _ _ february
           H1 H2 H3 H4 H5 H6).
Defined.

(** The claim as stated fails on page 3: three pages have been crawled and
    page 3 holds an entry at or before the threshold, yet the next page is
    requested from page 3 and page 4 is read.  The crawl stops on page 4. *)
Lemma pagination_claim_counterexample :
  let february :=
    entry "Article of February" "https://xz.aliyun.com/news/2"
      "2025-02-01 10:00" in
  thresholdDate afterMarch = Some (Some 1740787200000%Z)
  /\ listing (site boundaryOnPage3 goodFetch) 3 = [february]
  /\ @dateParse utcEngine (publishTime february) = Some 1738404000000%Z
  /\ @hasOlderArticles utcEngine afterMarch
       (listing (site boundaryOnPage3 goodFetch) 3) = true
  /\ nextRequested
       (@scrapeArticles utcEngine toyCrypto plainWriter
          (site boundaryOnPage3 goodFetch) afterMarch (newCrawler ∅))
     = [1; 2; 3]%nat
  /\ pagesRead
       (@scrapeArticles utcEngine toyCrypto plainWriter
          (site boundaryOnPage3 goodFetch) afterMarch (newCrawler ∅))
     = [1; 2; 3; 4]%nat.
Proof. evaluate. Qed.

End PaginationExamples.
(** ** Fetching with retries *)

Section RetryFacts.
Import Js Dom Host Crawl.
Context `{Crypto} `{Writer}.
Variable w : World.
Hypothesis quiet : forall t, signalAt w t = false.

Lemma await_quiet (c : Crawler) :
  aborted (await w c) = aborted c /\ tick (await w c) = S (tick c)
  /\ sleeps (await w c) = sleeps c /\ sameData c (await w c).
Proof using quiet.
  unfold await. simpl. rewrite quiet, orb_false_r. by repeat split.
Qed.


Lemma retryLoop_failed (url : jsstring) (d : Z) (n attempt : nat)
    (e : option jsstring) (c : Crawler) (e0 : jsstring) :
  aborted c = false ->
  attemptResult (fetched w (tick c) url) = inr e0 ->
  retryLoop w url d (S (S n)) attempt e c
  = retryLoop w url d (S n) (S attempt) (Some e0)
      (await w
         (setSleeps (sleeps c ++ [(d * 2 ^ Z.of_nat attempt)%Z])
            (await w (setFetches (fetches c ++ [url]) c)))).
Proof. intros Hab He. cbn [retryLoop]. by rewrite Hab, He. Qed.






End RetryFacts.

Section RetryExamples.
Import Js Dom Host Crawl Examples.

Example backoff_doubles : backoff 800 0 3 = [800; 1600; 3200]%Z.
Proof. reflexivity. Qed.

(** Two failures, then a success, with a budget of two retries. *)
Example third_attempt_succeeds :
  let r := fetchArticleContentWithRetry (flakySite [[firstArticle]])
             (link firstArticle) 2 800 (newCrawler ∅) in
  r.2 = inl (mkFetchResult (lit "Title of the detail page")
               (lit "The body of the article."))
  /\ sleeps r.1 = [800; 1600]%Z.
Proof. evaluate. Qed.


(** When the run is cancelled, which the claim leaves aside: every fetch
    of the article fails and a signal arrives during the first one; the
    retry loop stops after one attempt and one delay, no failure record is
    appended, and the worker leaves its loop without taking the next
    article. *)
Example cancelled_fetch_records_no_failure :
  let w := interruptedSite [[firstArticle; secondArticle]] in
  let c' := @runOne toyCrypto plainWriter w (newCrawler ∅)
              [firstArticle; secondArticle] in
  (forall t, attemptResult (fetched w t (link firstArticle))
             = inr sVisitFailed)
  /\ @runOneItem toyCrypto plainWriter w (newCrawler ∅) firstArticle
     = (c', false)
  /\ failures c' = [] /\ articles c' = []
  /\ sleeps c' = [800%Z] /\ tick c' = 2%nat.
Proof. evaluate. Qed.

End RetryExamples.

(** ** De-duplication *)

Section RunSteps.
Import Js Dom Host Crawl.
Context `{Crypto} `{Writer}.
Variable w : World.

(** *** The sequential run is a sequence of transitions *)

Lemma retryLoop_steps (url : jsstring) (d : Z) (n a : nat)
    (e : option jsstring) (c : Crawler) :
  rtc (step w) c (retryLoop w url d n a e c).1.
Proof.
  revert a e c. induction n as [|n IH]; intros a e c; simpl; [done|].
  destruct (aborted c); [done|].
  destruct (attemptResult _); simpl.
  - eapply rtc_l; [apply step_fetch|]. apply rtc_once, step_await.
  - destruct n.
    { eapply rtc_l; [apply step_fetch|]. apply rtc_once, step_await. }
    eapply rtc_l; [apply step_fetch|].
    eapply rtc_l; [apply step_await|].
    eapply rtc_l; [apply step_sleep|].
    eapply rtc_l; [apply step_await|]. apply IH.
Qed.

(** What the retry loop returns was returned by a fetch of the address. *)
Lemma retryLoop_returned (url : jsstring) (d : Z) (n a : nat)
    (e : option jsstring) (c : Crawler) (res : FetchResult) :
  (retryLoop w url d n a e c).2 = inl res ->
  exists t, attemptResult (fetched w t url) = inl res.
Proof.
  revert a e c. induction n as [|n IH]; intros a e c; simpl; [done|].
  destruct (aborted c); [done|].
  destruct (attemptResult (fetched w (tick c) url)) as [r|msg] eqn:E; simpl.
  - intros [= <-]. by exists (tick c).
  - destruct n; [done|]. apply IH.
Qed.

Lemma persist_steps (entry : Article) (data : FetchResult) (c : Crawler)
    (t : nat) :
  attemptResult (fetched w t (link entry)) = inl data ->
  rtc (step w) c (persist w (identityKey entry) (refine data entry) c).
Proof.
  intros Hdata. unfold persist. destruct (aborted c); [done|].
  pose proof (step_save w c (refine data entry)) as Hs.
  destruct (saveArticleImmediately w c (refine data entry)) as [c1 [f|]];
    simpl in Hs; [|by apply rtc_once].
  destruct (aborted c1); [by apply rtc_once|].
  eapply rtc_l; [exact Hs|]. eapply rtc_once, step_register, Hdata.
Qed.

Lemma runOneItem_steps (c : Crawler) (item : Article) :
  rtc (step w) c (runOneItem w c item).1.
Proof.
  unfold runOneItem. case_bool_decide; [done|].
  unfold fetchArticleContentWithRetry.
  pose proof (retryLoop_steps (link item) 800 2 0 None c) as Hr.
  pose proof (retryLoop_returned (link item) 800 2 0 None c) as Hd.
  destruct (retryLoop _ _ _ _ _ _ _) as [c1 [data|msg]]; simpl in *.
  - destruct (Hd data eq_refl) as [t Ht].
    etrans; [exact Hr|by eapply persist_steps].
  - destruct (aborted c1) eqn:Hab; [done|].
    eapply rtc_r; [exact Hr|by apply step_failure].
Qed.

Lemma runOne_steps (items : list Article) (c : Crawler) :
  rtc (step w) c (runOne w c items).
Proof.
  revert c. induction items as [|item items IH]; intros c; simpl; [done|].
  destruct (aborted c); [done|].
  pose proof (runOneItem_steps c item) as Hi.
  destruct (runOneItem w c item) as [c1 [|]]; simpl in Hi; [|done].
  etrans; [exact Hi|apply IH].
Qed.

Lemma saveOnly_steps (items : list Article) (c : Crawler) :
  rtc (step w) c (saveOnly w c items).
Proof.
  revert c. induction items as [|item items IH]; intros c; simpl; [done|].
  destruct (aborted c); [done|].
  eapply rtc_l; [apply step_save_only|apply IH].
Qed.

Lemma pageLoop_steps `{Engine} (cfg : Config) (n cur : nat) (c : Crawler) :
  rtc (step w) c (pageLoop w cfg n cur c).
Proof.
  revert cur c. induction n as [|n IH]; intros cur c; simpl; [done|].
  destruct (aborted c); [done|].
  eapply rtc_l; [apply (step_read w c cur)|].
  eapply rtc_l; [apply step_await|].
  set (c1 := await w _).
  destruct (listing w cur) as [|a0 l0] eqn:El; [done|]. rewrite <- El.
  set (c2 := if fetchFullContent cfg then _ else _).
  assert (H12 : rtc (step w) c1 c2).
  { subst c2. destruct (fetchFullContent cfg).
    - eapply rtc_r; [apply runOne_steps|apply step_await].
    - apply saveOnly_steps. }
  etrans; [exact H12|].
  destruct (_ && _); [done|]. destruct (aborted c2); [done|].
  eapply rtc_l; [apply (step_next w c2 cur)|].
  eapply rtc_l; [apply step_await|].
  destruct (hasNext w cur); [apply IH|done].
Qed.

Lemma scrapeArticles_reachable `{Engine} (cfg : Config)
    (disk : gmap jsstring jsstring) :
  reachable w (scrapeArticles w cfg (newCrawler disk)).
Proof. exists disk. apply pageLoop_steps. Qed.

(** *** What the transitions keep *)

Lemma articles_maybeUpdateSummaryFile (c : Crawler) :
  articles c ≡ₚ articles (maybeUpdateSummaryFile w c)
  /\ seenKeys (maybeUpdateSummaryFile w c) = seenKeys c
  /\ papers (maybeUpdateSummaryFile w c) = papers c.
Proof.
  unfold maybeUpdateSummaryFile, updateSummaryFile.
  repeat case_match; simpl; repeat split; try done;
    by rewrite sortByPublishTime_perm.
Qed.

Lemma articles_save (c : Crawler) (a : Article) :
  articles (saveArticleImmediately w c a).1 = articles c
  /\ seenKeys (saveArticleImmediately w c a).1 = seenKeys c
  /\ aborted (saveArticleImmediately w c a).1 = aborted c.
Proof. unfold saveArticleImmediately. by repeat case_match. Qed.

Lemma papers_save (c : Crawler) (item : Article) (name text : jsstring) :
  papers c !! name = Some text ->
  papers (saveArticleImmediately w c item).1 !! name = Some text.
Proof.
  intros Hn. unfold saveArticleImmediately.
  destruct (papers c !! generateFileName item) eqn:Ef; [done|].
  destruct (canWrite w _); [|done]. simpl.
  rewrite lookup_insert_ne; [done|congruence].
Qed.

(** No transition rewrites or removes a file of [papers]. *)
Lemma papers_step (c c' : Crawler) (name text : jsstring) :
  step w c c' -> papers c !! name = Some text -> papers c' !! name = Some text.
Proof.
  intros Hstep Hn. destruct Hstep; try done.
  - by apply papers_save.
  - unfold registerSaved.
    destruct (articles_maybeUpdateSummaryFile
                (if bool_decide (identityKey entry ∈ seenKeys c) then c
                 else register (identityKey entry) (refine articleData entry) c))
      as (_ & _ & ->).
    by case_bool_decide.
  - unfold saveOnlyItem. case_bool_decide; [done|].
    pose proof (papers_save c item name text Hn) as Hs.
    destruct (saveArticleImmediately w c item) as [c1 [f|]]; [|done].
    destruct (aborted c1); [done|].
    by destruct (articles_maybeUpdateSummaryFile
                   (register (identityKey item) item c1)) as (_ & _ & ->).
Qed.

Lemma papers_steps (c c' : Crawler) (name text : jsstring) :
  rtc (step w) c c' ->
  papers c !! name = Some text -> papers c' !! name = Some text.
Proof.
  intros Hr. induction Hr as [|c c1 c' Hstep _ IH]; [done|].
  intros Hn. by eapply IH, papers_step.
Qed.



End RunSteps.

Section DedupFacts.
Import Js Dom Host Crawl.
Context `{Crypto} `{Writer}.
Variable w : World.

(** The key, case by case. *)
Lemma identityKey_cases (item : Article) :
  identityKey item
  = if falsy (trim (link item))
    then trim (title item) ++ lit "|" ++ publishTime item
    else trim (link item).
Proof.
  unfold identityKey.
  assert (E : (if falsy (link item) then link item else trim (link item))
              = trim (link item)) by (by destruct (link item)).
  rewrite E.
  assert (Et : orElse (title item) [] = title item) by (by destruct (title item)).
  assert (Ep : orElse (publishTime item) [] = publishTime item)
    by (by destruct (publishTime item)).
  rewrite Et, Ep. by destruct (trim (link item)).
Qed.

(** With a link, the key does not change when the detail page replaces
    the title and sets the content. *)
Lemma identityKey_refine (data : FetchResult) (item : Article) :
  trim (link item) ≠ [] -> identityKey (refine data item) = identityKey item.
Proof.
  intros Hl. rewrite !identityKey_cases. unfold refine.
  destruct (_ && _); simpl; by destruct (trim (link item)).
Qed.

(** An address that a fetch returned something for is not blank. *)
Lemma fetched_linked (t : nat) (url : jsstring) (data : FetchResult) :
  rejectsBlankUrl w ->
  attemptResult (fetched w t url) = inl data -> trim url ≠ [].
Proof.
  intros Hw Hdata Hblank. destruct (Hw t url Hblank) as [e He]. congruence.
Qed.

Lemma uniqueKeys_new (disk : gmap jsstring jsstring) :
  uniqueKeys (newCrawler disk).
Proof. split; [constructor|]. intros a Ha. by apply elem_of_nil in Ha. Qed.

Lemma uniqueKeys_perm (c c' : Crawler) :
  articles c ≡ₚ articles c' -> seenKeys c ⊆ seenKeys c' ->
  uniqueKeys c -> uniqueKeys c'.
Proof.
  intros Hp Hs [Hn Hin]. split.
  - by rewrite <- Hp.
  - intros a Ha. rewrite <- Hp in Ha. apply Hs, Hin, Ha.
Qed.

Lemma uniqueKeys_register (key : jsstring) (item : Article) (c : Crawler) :
  uniqueKeys c -> key ∉ seenKeys c -> identityKey item = key ->
  uniqueKeys (register key item c).
Proof.
  intros [Hn Hin] Hkey Hitem. split; simpl.
  - rewrite map_app. apply NoDup_app. split; [done|].
    split; [|apply NoDup_singleton].
    intros k Hk ->%list_elem_of_singleton.
    apply list_elem_of_fmap in Hk as (a & Ha & Hin').
    apply Hkey. rewrite <- Hitem, Ha. by apply Hin.
  - intros a [Ha| ->%list_elem_of_singleton]%elem_of_app.
    + apply elem_of_union_r, Hin, Ha.
    + apply elem_of_union_l, elem_of_singleton. exact Hitem.
Qed.

Lemma uniqueKeys_save (item : Article) (c : Crawler) :
  uniqueKeys c -> uniqueKeys (saveArticleImmediately w c item).1.
Proof.
  intros Hc. destruct (articles_save w c item) as (Ha & Hs & _).
  eapply uniqueKeys_perm; [| |exact Hc]; [by rewrite Ha|by rewrite Hs].
Qed.

Lemma uniqueKeys_maybeUpdateSummaryFile (c : Crawler) :
  uniqueKeys c -> uniqueKeys (maybeUpdateSummaryFile w c).
Proof.
  intros Hc. destruct (articles_maybeUpdateSummaryFile w c) as (Hp & Hk & _).
  eapply uniqueKeys_perm; [exact Hp|by rewrite Hk|exact Hc].
Qed.

Lemma uniqueKeys_registerSaved (entry : Article) (data : FetchResult)
    (c : Crawler) :
  trim (link entry) ≠ [] -> uniqueKeys c ->
  uniqueKeys (registerSaved w (identityKey entry) (refine data entry) c).
Proof.
  intros Hl Hc. unfold registerSaved.
  apply uniqueKeys_maybeUpdateSummaryFile.
  case_bool_decide; [done|].
  apply uniqueKeys_register; [done..|by apply identityKey_refine].
Qed.

Lemma uniqueKeys_saveOnlyItem (item : Article) (c : Crawler) :
  uniqueKeys c -> uniqueKeys (saveOnlyItem w c item).
Proof.
  intros Hc. unfold saveOnlyItem. case_bool_decide as Hkey; [done|].
  pose proof (uniqueKeys_save item c Hc) as Hc1.
  destruct (articles_save w c item) as (_ & Hs & _).
  destruct (saveArticleImmediately w c item) as [c1 [f|]]; simpl in *;
    [|done].
  destruct (aborted c1); [done|].
  apply uniqueKeys_maybeUpdateSummaryFile.
  apply uniqueKeys_register; [done|by rewrite Hs|done].
Qed.

Lemma uniqueKeys_step (c c' : Crawler) :
  rejectsBlankUrl w -> step w c c' -> uniqueKeys c -> uniqueKeys c'.
Proof.
  intros Hw Hstep Hc. destruct Hstep; try exact Hc.
  - by apply uniqueKeys_save.
  - apply uniqueKeys_registerSaved; [|done]. by eapply fetched_linked.
  - by apply uniqueKeys_saveOnlyItem.
Qed.

Lemma uniqueKeys_reachable (c : Crawler) :
  rejectsBlankUrl w -> reachable w c -> uniqueKeys c.
Proof.
  intros Hw [disk Hr]. revert c Hr. apply rtc_ind_r.
  - apply uniqueKeys_new.
  - intros y z _ Hstep Hy. by eapply uniqueKeys_step.
Qed.

(** C3, as amended.  The identity key of an entry is its trimmed link when
    that is not empty, and otherwise its trimmed title, a bar and its
    publish time.  An empty or blank address cannot be visited; then, in
    every state a run can reach, whatever the number of workers and their
    schedule, no two records of the article list share an identity key, and
    the key of every record is in the set of seen keys; so it is at the end
    of a crawl.  An entry whose key is already seen is skipped without a
    fetch, and a fetched article whose key was registered meanwhile is not
    appended again. *)
Theorem dedup_by_identity_key `{Engine} :
  rejectsBlankUrl w ->
  (forall item,
     identityKey item
     = if falsy (trim (link item))
       then trim (title item) ++ lit "|" ++ publishTime item
       else trim (link item))
  /\ (forall c, reachable w c ->
        NoDup (map identityKey (articles c))
        /\ (forall a, a ∈ articles c -> identityKey a ∈ seenKeys c))
  /\ (forall cfg disk,
        NoDup (map identityKey
                 (articles (scrapeArticles w cfg (newCrawler disk)))))
  /\ (forall c item,
        identityKey item ∈ seenKeys c ->
        runOneItem w c item = (c, true)
        /\ saveOnlyItem w c item = c
        /\ forall data,
             articles c
               ≡ₚ articles (persist w (identityKey item) (refine data item) c)
             /\ seenKeys (persist w (identityKey item) (refine data item) c)
                = seenKeys c).
Proof.
  intros Hw. split; [exact identityKey_cases|].
  split; [intros c Hr; by apply uniqueKeys_reachable|].
  split.
  { intros cfg disk.
    by apply (uniqueKeys_reachable _ Hw), scrapeArticles_reachable. }
  intros c item Hseen. unfold runOneItem, saveOnlyItem.
  rewrite !bool_decide_eq_true_2 by done. do 2 (split; [done|]).
  intros data. unfold persist, registerSaved. destruct (aborted c); [done|].
  destruct (articles_save w c (refine data item)) as (Ha & Hs & _).
  destruct (saveArticleImmediately w c (refine data item)) as [c1 [f|]];
    simpl in *; [|by rewrite Ha, Hs].
  destruct (aborted c1); [by rewrite Ha, Hs|].
  rewrite bool_decide_eq_true_2 by (by rewrite Hs).
  destruct (articles_maybeUpdateSummaryFile w c1) as (Hp & Hk & _).
  by rewrite <- Hp, Hk, Ha, Hs.
Qed.

End DedupFacts.

Section DedupExamples.
Import Js Dom Host Crawl Examples.

(** A link and a publish time repeated on a later page are counted once. *)
Example repeated_entry_counted_once :
  map link
    (articles (@scrapeArticles utcEngine toyCrypto plainWriter
                 (site repeatedAcrossPages goodFetch) noWindow (newCrawler ∅)))
  = [lit "https://xz.aliyun.com/news/5"; lit "https://xz.aliyun.com/news/4"].
Proof. evaluate. Qed.

(** An instance: the site whose first article is repeated on page 2. *)
Lemma dedup_by_identity_key_witness :
  rejectsBlankUrl (linkedSite repeatedAcrossPages)
  /\ map identityKey
       (articles (@scrapeArticles utcEngine toyCrypto plainWriter
                    (linkedSite repeatedAcrossPages) noWindow (newCrawler ∅)))
     = [lit "https://xz.aliyun.com/news/5"; lit "https://xz.aliyun.com/news/4"]
  /\ NoDup (map identityKey
              (articles (@scrapeArticles utcEngine toyCrypto plainWriter
                           (linkedSite repeatedAcrossPages) noWindow
                           (newCrawler ∅)))).
Proof.
  assert (H1 : rejectsBlankUrl (linkedSite repeatedAcrossPages)).
  { intros t url Hblank. simpl. rewrite Hblank. by eexists. }
  split; [exact H1|]. split; [vm_compute; reflexivity|].
  exact (proj1 (proj2 (proj2
    (@dedup_by_identity_key toyCrypto plainWriter
       (linkedSite repeatedAcrossPages) utcEngine H1))) noWindow ∅).
Defined.

(** The claim as stated fails: the key of an entry with a link is the
    trimmed link, not the link, and the key of an entry without link starts
    with the trimmed title, not the title. *)
Lemma dedup_claim_counterexample :
  trim (link spacedLink) ≠ []
  /\ identityKey spacedLink ≠ link spacedLink
  /\ identityKey spacedLink = lit "https://xz.aliyun.com/news/5"
  /\ trim (link spacedTitle) = []
  /\ identityKey spacedTitle
     ≠ title spacedTitle ++ lit "|" ++ publishTime spacedTitle
  /\ identityKey spacedTitle = lit "Article of June|2025-06-05 10:00".
Proof. evaluate. Qed.

End DedupExamples.
(** ** Writing an article *)

Section SaveFacts.
Import Js Dom Host Crawl Report.
Context `{Crypto} `{Writer} `{Json}.
Variable w : World.









End SaveFacts.

Section SaveExamples.
Import Js Dom Host Crawl Report Examples Samples.

(** Two articles whose titles give the same file name: both are listed,
    one file is written, and it holds the first article. *)
Example same_file_name_first_wins :
  let c := @scrapeArticles utcEngine toyCrypto plainWriter
             (site [[slashTitle; plainTitle]] untitledFetch) noWindow
             (newCrawler ∅) in
  @generateFileName toyCrypto slashTitle = lit "Notes_on_TCPIP.md"
  /\ @generateFileName toyCrypto plainTitle = lit "Notes_on_TCPIP.md"
  /\ map link (articles c) = [link slashTitle; link plainTitle]
  /\ papers c
     = {[ lit "Notes_on_TCPIP.md" :=
            lit "# Notes on TCP/IP

The body of the article.
" ]}.
Proof. evaluate. Qed.


End SaveExamples.
(** ** The downloader and the image localizer *)

Section DownloadFacts.
Import Js Download.

(** A write-stream error unlinks the file, then rejects. *)
Lemma handle_stream_error (s : state) (message : jsstring) :
  streaming s = true -> outcome s = Pending ->
  file (handle s (StreamError message)) = None
  /\ outcome (handle s (StreamError message)) = Rejected message.
Proof. intros Hs Ho. simpl. rewrite Hs. unfold settle. simpl. by rewrite Ho. Qed.

(** A status that is neither a redirect nor 200 rejects and creates no
    file. *)
Lemma download_bad_status (statusCode : Z) :
  ~ (300 <= statusCode < 400)%Z -> statusCode ≠ 200%Z ->
  forall location,
    file (downloadWithReferer None [Response statusCode location]) = None
    /\ outcome (downloadWithReferer None [Response statusCode location])
       = Rejected (lit "HTTP " ++ ofNat (Z.to_nat statusCode)).
Proof.
  intros Hr Hs location. unfold downloadWithReferer. simpl.
  assert ((300 <=? statusCode)%Z && (statusCode <? 400)%Z = false) as ->.
  { apply andb_false_iff. rewrite Z.leb_gt, Z.ltb_ge. lia. }
  simpl. by rewrite (proj2 (Z.eqb_neq _ _) Hs).
Qed.

(** The sixth redirect in a row rejects and creates no file. *)
Lemma download_too_many_redirects (location : jsstring) :
  location ≠ [] ->
  file (downloadWithReferer None (replicate 6 (Response 302 location))) = None
  /\ outcome (downloadWithReferer None (replicate 6 (Response 302 location)))
     = Rejected (lit "Too many redirects").
Proof. intros Hl. destruct location; [done|]. by vm_compute. Qed.

(** A download that goes well leaves the bytes and resolves. *)
Lemma download_success (bytes : list N) :
  file (downloadWithReferer None
          [Response 200 []; Chunk bytes; StreamFinish]) = Some bytes
  /\ outcome (downloadWithReferer None
                [Response 200 []; Chunk bytes; StreamFinish]) = Resolved.
Proof. done. Qed.

End DownloadFacts.

Section ImageFacts.
Import Js Host Images.
Context `{Engine} `{Codec} `{Crypto}.

(** A reference whose target exists is not downloaded and not written. *)
Lemma fetchTask_existing (net : network) (p : progress) (t : task)
    (bytes : list N) :
  images (files p) !! fileName t = Some bytes ->
  (fetchTask net p t).1 = p /\ ok (fetchTask net p t).2 = true.
Proof. intros Hb. unfold fetchTask. by rewrite Hb. Qed.

Lemma writeDataTask_existing (p : progress) (t : task) (bytes : list N) :
  images (files p) !! fileName t = Some bytes ->
  (writeDataTask p t).1 = p /\ ok (writeDataTask p t).2 = true.
Proof. intros Hb. unfold writeDataTask. by rewrite Hb. Qed.

(** Hence a loop over tasks whose targets all exist leaves the disk and
    the counters as they are. *)
Lemma forTasks_existing (body : progress -> task -> progress * task)
    (p : progress) (ts : list task) :
  (forall t, t ∈ ts -> (body p t).1 = p) ->
  (forTasks body p ts).1 = p.
Proof.
  induction ts as [|t ts IH]; intros Hb; simpl; [done|].
  destruct (waiting p); [done|].
  pose proof (Hb t (list_elem_of_here _ _)) as Ht.
  destruct (body p t) as [p1 t']. simpl in Ht. subst p1.
  assert (Hts : (forTasks body p ts).1 = p).
  { apply IH. intros t0 Ht0. apply Hb. by right. }
  destruct (forTasks body p ts) as [p2 ts']. done.
Qed.

Lemma fetch_all_existing (net : network) (p : progress) (ts : list task) :
  (forall t, t ∈ ts -> is_Some (images (files p) !! fileName t)) ->
  (forTasks (fetchTask net) p ts).1 = p.
Proof.
  intros Hex. apply forTasks_existing. intros t Ht.
  destruct (Hex t Ht) as [bytes Hb]. by apply (fetchTask_existing net p t bytes).
Qed.

End ImageFacts.

Section ImageExamples.
Import Js Host Images Examples.

(** C8, at the failing input.  The article holds one image whose
    alternative text is the address of the image.  The first pass finds one
    image, downloads it and rewrites the file, but [String.prototype.replace] replaces
    the first occurrence of the address, the one in the alternative text, so
    the reference stays remote.  The second pass downloads nothing and
    rewrites the file again: its content changes. *)
Theorem localizer_second_pass_changes_file :
  totalImages firstPass = 1%nat
  /\ downloaded firstPass = 1%nat
  /\ markdown (files firstPass) !! lit "a.md"
     = Some (lit "# Title

![images/c83e29788d0c7d78257b763fd18887ac.png](https://xz.aliyun.com/img/a.png)
")
  /\ downloaded secondPass = 0%nat
  /\ images (files secondPass) = images (files firstPass)
  /\ markdown (files secondPass) !! lit "a.md"
     = Some (lit "# Title

![images/c83e29788d0c7d78257b763fd18887ac.png](images/c83e29788d0c7d78257b763fd18887ac.png)
")
  /\ markdown (files secondPass) ≠ markdown (files firstPass).
Proof. evaluate. Qed.

(** C10, at the failing input.  The server answers 200 and sends a part of
    the image, then the request fails (the 30 s timeout destroys it): the
    promise is rejected and the part that was written stays in the
    destination. *)
Theorem download_request_error_leaves_partial_file :
  Download.outcome (Download.downloadWithReferer None (stalls (take 3 pngBytes)))
  = Download.Rejected (lit "Request timeout")
  /\ Download.file (Download.downloadWithReferer None (stalls (take 3 pngBytes)))
     = Some [137; 80; 78].
Proof. evaluate. Qed.

(** The next pass takes the partial file for the image: it downloads
    nothing and points the article to it. *)
Example partial_file_is_reused :
  markdown (files stalledPass) = markdown onePhoto
  /\ images (files stalledPass)
     = {[ lit "c83e29788d0c7d78257b763fd18887ac.png" := [137; 80; 78] ]}
  /\ downloaded passAfterStall = 0%nat
  /\ images (files passAfterStall) = images (files stalledPass)
  /\ markdown (files passAfterStall) !! lit "b.md"
     = Some (lit "![photo](images/c83e29788d0c7d78257b763fd18887ac.png)
").
Proof. evaluate. Qed.

End ImageExamples.
(** ** The Markdown converter *)

Section MarkdownFacts.
Import Js Dom Host Clean Markdown.
Context `{Jsdom} `{Engine} `{Serializer}.
Variable tbl : jsstring -> jsstring.

Lemma isOneOf_elem (tagName : jsstring) (labels : list string) :
  isOneOf tagName labels = true <-> exists l, l ∈ labels /\ tagName = lit l.
Proof.
  unfold isOneOf. rewrite existsb_exists. split.
  - intros (l & Hl & Heq). exists l. split; [by apply list_elem_of_In|].
    by apply bool_decide_eq_true in Heq.
  - intros (l & Hl & ->). exists l. split; [by apply list_elem_of_In|].
    by apply bool_decide_eq_true.
Qed.

(** The element branch of the node converter, with its loop named. *)
Lemma convertDomNodeToMarkdown_children (tagName : jsstring)
    (attributes : list (jsstring * jsstring)) (children : list node)
    (context : Context) :
  isCodeCard tagName attributes = false ->
  isOneOf tagName ["ne-table"; "table"] = false ->
  streq tagName (lit "ne-code") = false ->
  convertDomNodeToMarkdown tbl (Element tagName attributes children) context
  = convertElementToMarkdown tbl tagName attributes
      (convertChildren tbl children (childContextOf tagName context)) context.
Proof.
  intros Hc Ht Hn. cbn [convertDomNodeToMarkdown]. by rewrite Hc, Ht, Hn.
Qed.

Lemma countItem_ordered (child : node) (k : nat) :
  countItem child (orderedAt k)
  = orderedAt (if isListItem child then S k else k).
Proof. unfold countItem, orderedAt. simpl. by destruct (isListItem child). Qed.

Lemma convertChildren_ordered_app (pre post : list node) (k : nat) :
  convertChildren tbl (pre ++ post) (orderedAt k)
  = convertChildren tbl pre (orderedAt k)
    ++ convertChildren tbl post
         (orderedAt (k + length (filter (fun n => isListItem n) pre))).
Proof.
  revert k. induction pre as [|child pre IH]; intros k.
  { simpl. by rewrite Nat.add_0_r. }
  cbn [app convertChildren]. rewrite countItem_ordered, IH, filter_cons.
  rewrite <- (assoc_L (++)). do 3 f_equal.
  destruct (isListItem child) eqn:E.
  - rewrite decide_True by done. f_equal. simpl. lia.
  - rewrite decide_False by (by intros []). done.
Qed.

(** X1.  In an ordered list ([ne-ol]) the item ([ne-oli], [ne-li]) that has
    [j] list items among the siblings before it is printed with the number
    [j + 1], a dot and a space, whatever else the list holds, whatever the
    item holds and whatever the context of the list is; the children of the
    item and the siblings after it are converted with the counter at
    [j + 1]. *)
Theorem ordered_list_numbering (attributes a : list (jsstring * jsstring))
    (pre post cs : list node) (t : jsstring) (context : Context) :
  isOneOf t ["ne-oli"; "ne-li"] = true ->
  convertDomNodeToMarkdown tbl
    (Element (lit "ne-ol") attributes (pre ++ Element t a cs :: post)) context
  = [LF]
    ++ convertChildren tbl pre (orderedAt 0)
    ++ (ofNat (S (length (filter (fun n => isListItem n) pre))) ++ lit ". "
        ++ convertChildren tbl cs
             (orderedAt (S (length (filter (fun n => isListItem n) pre))))
        ++ [LF])
    ++ convertChildren tbl post
         (orderedAt (S (length (filter (fun n => isListItem n) pre))))
    ++ [LF].
Proof.
  intros Ht.
  assert (Hitem : isListItem (Element t a cs) = true).
  { apply isOneOf_elem in Ht as (l & Hl & ->). cbn [isListItem].
    apply isOneOf_elem.
    exists l. split; [|done].
    apply elem_of_cons in Hl as [->|Hl];
      [|apply list_elem_of_singleton in Hl as ->];
      apply list_elem_of_In; simpl; auto. }
  rewrite convertDomNodeToMarkdown_children by by vm_compute.
  change (childContextOf (lit "ne-ol") context) with (orderedAt 0).
  rewrite convertChildren_ordered_app. cbn [convertChildren].
  rewrite countItem_ordered, Hitem. simpl Nat.add.
  set (j := length (filter (fun n => isListItem n) pre)).
  assert (Hconv : forall ctx,
    convertDomNodeToMarkdown tbl (Element t a cs) ctx
    = listItem (convertChildren tbl cs ctx) ctx).
  { intros ctx. apply isOneOf_elem in Ht as (l & Hl & ->).
    apply elem_of_cons in Hl as [->|Hl];
      [|apply list_elem_of_singleton in Hl as ->];
      by rewrite convertDomNodeToMarkdown_children by by vm_compute. }
  rewrite Hconv. unfold listItem. simpl.
  change (convertElementToMarkdown tbl (lit "ne-ol") attributes ?c context)
    with ([LF] ++ c ++ [LF]).
  by rewrite <- !(assoc_L (++)).
Qed.

Lemma replaceChar_fresh (x c : N) (r s : jsstring) :
  x ∉ r -> x ∈ replaceChar c r s -> x ∈ s /\ x ≠ c.
Proof.
  intros Hr. unfold replaceChar. rewrite list_elem_of_In, in_flat_map.
  intros (d & Hd & Hx). apply list_elem_of_In in Hd, Hx.
  destruct (d =? c) eqn:E; [done|].
  apply list_elem_of_singleton in Hx as ->. split; [done|].
  by apply N.eqb_neq.
Qed.

Lemma entity_has_no_angle_bracket (x : N) (name : string) :
  x ∈ lit ("&" ++ name ++ ";") -> x ∈ lit name \/ x = 38 \/ x = 59.
Proof.
  change (lit ("&" ++ name ++ ";")) with (38 :: lit (name ++ ";")).
  intros [->|Hx]%elem_of_cons; [auto|].
  induction name as [|a name IH]; simpl in Hx.
  - apply list_elem_of_singleton in Hx. auto.
  - change (lit (String a (name ++ ";"))) with (N_of_ascii a :: lit (name ++ ";"))
      in Hx.
    change (lit (String a name)) with (N_of_ascii a :: lit name).
    apply elem_of_cons in Hx as [->|Hx]; [left; left|].
    destruct (IH Hx) as [?|?]; [left; by right|by right].
Qed.

(** X2.  Whatever a text node holds, its Markdown holds no angle bracket:
    a [<] or [>] of the text, written out or as an entity, comes out as an
    entity. *)
Theorem text_has_no_angle_bracket (data : jsstring) (context : Context) :
  (LT ∉ convertDomNodeToMarkdown tbl (Text data) context)
  /\ (GT ∉ convertDomNodeToMarkdown tbl (Text data) context).
Proof.
  cbn [convertDomNodeToMarkdown]. unfold escapeMarkdown.
  destruct (falsy data); [split; apply not_elem_of_nil|].
  assert (Hgt : forall x, x = LT \/ x = GT -> x ∉ lit "&gt;").
  { intros x Hx [Hin|[->| ->]]%(entity_has_no_angle_bracket x "gt");
      [|by destruct Hx..].
    apply elem_of_cons in Hin as [->|Hin];
      [|apply list_elem_of_singleton in Hin as ->]; by destruct Hx. }
  assert (Hlt : LT ∉ lit "&lt;").
  { intros [Hin|[?|?]]%(entity_has_no_angle_bracket LT "lt"); [|done..].
    apply elem_of_cons in Hin as [?|Hin]; [done|].
    by apply list_elem_of_singleton in Hin. }
  split.
  - intros [[_ Hne]%replaceChar_fresh _]%replaceChar_fresh; auto.
  - intros [_ Hne]%replaceChar_fresh; auto.
Qed.

(** X19.  A code card ([ne-card] named [codeblock]) is converted from its
    markup, whatever the converter would make of its children, and gives
    either nothing or one fenced block whose code is not empty and holds no
    zero-width space. *)
Theorem code_card_is_a_fence_or_nothing
    (attributes : list (jsstring * jsstring)) (children : list node)
    (context : Context) :
  attrIs attributes "data-card-name" "codeblock" = true ->
  convertDomNodeToMarkdown tbl (Element (lit "ne-card") attributes children)
    context
  = CodeCard.extractCodeFromCard
      (innerHTML (Element (lit "ne-card") attributes children))
  /\ (convertDomNodeToMarkdown tbl
        (Element (lit "ne-card") attributes children) context = []
      \/ exists language code,
           convertDomNodeToMarkdown tbl
             (Element (lit "ne-card") attributes children) context
           = CodeCard.codeFence language code
           /\ code ≠ [] /\ (ZWSP ∉ code)).
Proof.
  intros Hname.
  assert (Heq : convertDomNodeToMarkdown tbl
                  (Element (lit "ne-card") attributes children) context
                = CodeCard.extractCodeFromCard
                    (innerHTML (Element (lit "ne-card") attributes children))).
  { cbn [convertDomNodeToMarkdown]. unfold isCodeCard. by rewrite Hname. }
  split; [exact Heq|]. rewrite Heq. apply extractCodeFromCard_shape.
Qed.

End MarkdownFacts.

Section MarkdownExamples.
Import Js Dom Host Clean Markdown Examples Samples.

(** An instance: the second item of a list of two. *)
Lemma ordered_list_numbering_witness :
  isOneOf (lit "ne-li") ["ne-oli"; "ne-li"] = true
  /\ @convertDomNodeToMarkdown throwingDom utcEngine textOnly (fun _ => [])
       twoItems noContext
     = [LF] ++ lit "1. a" ++ [LF] ++ lit "2. b" ++ [LF; LF].
Proof.
  assert (H1 : isOneOf (lit "ne-li") ["ne-oli"; "ne-li"] = true)
    by reflexivity.
  split; [exact H1|].
  etrans;
    [exact (@ordered_list_numbering throwingDom utcEngine textOnly
              (fun _ => []) [] [] [el "ne-oli" [] [txt "a"]] [] [txt "b"]
              (lit "ne-li") noContext H1)
    |vm_compute; reflexivity].
Defined.

(** An instance: a card that holds one line of shell. *)
Lemma code_card_is_a_fence_or_nothing_witness :
  attrIs [(lit "data-card-name", lit "codeblock")] "data-card-name" "codeblock"
  = true
  /\ @convertDomNodeToMarkdown throwingDom utcEngine textOnly (fun _ => [])
       (Element (lit "ne-card") [(lit "data-card-name", lit "codeblock")]
          [el "div" [("class", "cm-line")] [txt "ls -la"]]) noContext
     = CodeCard.codeFence [] (lit "ls -la").
Proof.
  assert (H1 : attrIs [(lit "data-card-name", lit "codeblock")]
                 "data-card-name" "codeblock" = true) by reflexivity.
  split; [exact H1|].
  etrans;
    [exact (proj1
       (@code_card_is_a_fence_or_nothing throwingDom utcEngine textOnly
          (fun _ => []) [(lit "data-card-name", lit "codeblock")]
          [el "div" [("class", "cm-line")] [txt "ls -la"]] noContext H1))
    |vm_compute; reflexivity].
Defined.

End MarkdownExamples.
(** ** Regular-expression replacement, [cleanHtmlTags] *)

Section ReplaceFacts.
Import Js.
Variable at_ : jsstring -> option (nat * jsstring).

(** The code units of a match are passed over. *)
Lemma replaceAllFrom_drop (k : nat) (s : jsstring) :
  replaceAllFrom at_ k s = replaceAllFrom at_ 0 (drop k s).
Proof.
  revert k. induction s as [|c s IH]; intros [|k]; simpl; done.
Qed.


(** Where the expression matches nowhere, the text is left as it is. *)
Lemma replaceAllFrom_none (s : jsstring) :
  (forall a b, s = a ++ b -> at_ b = None) ->
  replaceAllFrom at_ 0 s = s.
Proof.
  induction s as [|c s IH]; intros Hn; [done|].
  cbn [replaceAllFrom]. rewrite (Hn [] (c :: s) eq_refl). f_equal.
  apply IH. intros a b ->. by apply (Hn (c :: a) b).
Qed.

End ReplaceFacts.

Section CleanFacts.
Import Js Clean.

Lemma spanLen_zero (f : N -> bool) (s : jsstring) :
  spanLen f s = 0%nat -> match s with c :: _ => f c = false | [] => True end.
Proof. destruct s as [|c s]; [done|]. simpl. by destruct (f c). Qed.

Lemma spanLen_drop (f : N -> bool) (s : jsstring) :
  match drop (spanLen f s) s with c :: _ => f c = false | [] => True end.
Proof.
  induction s as [|c s IH]; [done|]. simpl.
  destruct (f c) eqn:E; [exact IH|done].
Qed.

(** [replace(/[...]+/g, r)]: a code unit of the result is [r] or a code
    unit of the text that is not in the class. *)
Lemma collapse_runs_elem (f : N -> bool) (r : N) (k : nat) (s : jsstring)
    (c : N) :
  c ∈ replaceAllFrom (fun t => match spanLen f t with
                               | O => None
                               | n => Some (n, [r])
                               end) k s ->
  c = r \/ (c ∈ s /\ f c = false).
Proof.
  revert k. induction s as [|x s IH]; intros k; cbn [replaceAllFrom].
  { by intros ?%elem_of_nil. }
  assert (Hrest : forall k', c ∈ replaceAllFrom
                    (fun t => match spanLen f t with
                              | O => None
                              | n => Some (n, [r])
                              end) k' s -> c = r \/ (c ∈ x :: s /\ f c = false)).
  { intros k' Hc. destruct (IH k' Hc) as [?|[? ?]]; [by left|right].
    split; [by right|done]. }
  destruct k as [|k]; [|apply Hrest]. cbn [spanLen].
  destruct (f x) eqn:Ex.
  - intros [->|Hc]%elem_of_cons; [by left|by eapply Hrest].
  - intros [->|Hc]%elem_of_cons; [right; split; [by left|done]|by eapply Hrest].
Qed.

(** [replace(/[...]+/g, r)] for a class [f] and a replacement [r] of one
    code unit that is in the class: in the result, a code unit of the class
    is [r], and [r] is never followed by a code unit of the class. *)
Lemma collapse_runs_normal (f : N -> bool) (r : N) (n : nat) (s : jsstring) :
  let out := replaceAllFrom (fun t => match spanLen f t with
                                      | O => None
                                      | n => Some (n, [r])
                                      end) 0 in
  f r = true -> (length s <= n)%nat ->
  (forall c, c ∈ out s -> c = r \/ (c ∈ s /\ f c = false))
  /\ (forall i c, out s !! i = Some r -> out s !! S i = Some c -> f c = false)
  /\ (forall c, head (out s) = Some c -> f c = true ->
        exists d s', s = d :: s' /\ f d = true).
Proof.
  intros out Hr. revert s.
  induction n as [|n IH]; intros s Hlen.
  { destruct s; [|simpl in Hlen; lia]. simpl. repeat split; try done.
    intros c Hc. by apply elem_of_nil in Hc. }
  destruct s as [|c s]; [apply IH; simpl; lia|].
  unfold out. cbn [replaceAllFrom]. cbn [spanLen].
  destruct (f c) eqn:Ec.
  - rewrite replaceAllFrom_drop.
    pose proof (spanLen_drop f s) as Hd.
    set (rest := drop (spanLen f s) s) in *.
    assert (Hrest : (length rest <= n)%nat).
    { subst rest. rewrite length_drop. simpl in Hlen. lia. }
    destruct (IH rest Hrest) as (Ha & Hb & Hc).
    split; [|split].
    + intros x [->|Hx]%elem_of_cons; [by left|].
      destruct (Ha x Hx) as [->|[Hin Hf]]; [by left|right].
      split; [|done]. right. subst rest. by eapply subseteq_drop.
    + intros [|i] x; simpl.
      * intros _ Hx. destruct (f x) eqn:Ex; [|done].
        destruct (Hc x) as (d & s' & Heq & Hw); [by rewrite head_lookup|done|].
        rewrite Heq in Hd. congruence.
      * apply Hb.
    + intros x _ _. by exists c, s.
  - assert (Hlen' : (length s <= n)%nat) by (simpl in Hlen; lia).
    destruct (IH s Hlen') as (Ha & Hb & Hc).
    split; [|split].
    + intros x [->|Hx]%elem_of_cons; [right; split; [by left|done]|].
      destruct (Ha x Hx) as [->|[Hin Hf]]; [by left|right].
      split; [by right|done].
    + intros [|i] x; simpl.
      * intros [= ->]. congruence.
      * apply Hb.
    + intros x [= <-]. congruence.
Qed.

(** X3.  [cleanHtmlTags] without [preserveWhitespace]: every white-space
    character of the result is a space, and the result holds no two spaces
    in a row. *)
Theorem clean_text_has_single_spaces (html : jsstring) :
  (forall c, c ∈ cleanHtmlTags html false -> isWhiteSpace c = true -> c = SP)
  /\ (forall i, cleanHtmlTags html false !! i = Some SP ->
        cleanHtmlTags html false !! S i ≠ Some SP).
Proof.
  unfold cleanHtmlTags. destruct (falsy html).
  { split; [intros c Hc; by apply elem_of_nil in Hc|done]. }
  match goal with |- context [collapseWhiteSpace ?s] =>
    destruct (collapse_runs_normal isWhiteSpace SP (length s) s eq_refl (le_n _))
      as (Ha & Hb & _)
  end.
  split.
  - intros c Hc Hw. destruct (Ha c Hc) as [->|[_ Hf]]; [done|congruence].
  - intros i Hi Hi'. by specialize (Hb i SP Hi Hi').
Qed.

End CleanFacts.

Section RoundTrip.
Import Js Clean Shape.

Lemma replaceLit_absent (p r s : jsstring) (x : N) :
  head p = Some x -> x ∉ s -> replaceLit p r s = s.
Proof.
  intros Hp Hs. unfold replaceLit, replaceAll. apply replaceAllFrom_none.
  intros a b ->. destruct p as [|c p]; [done|]. injection Hp as ->.
  destruct b as [|d b]; [done|]. simpl.
  destruct (N.eqb_spec x d) as [->|Hne]; [|done].
  destruct Hs. apply elem_of_app. right. by left.
Qed.

Lemma replaceAll_miss (at_ : jsstring -> option (nat * jsstring)) (c : N)
    (s : jsstring) :
  at_ (c :: s) = None ->
  replaceAllFrom at_ 0 (c :: s) = c :: replaceAllFrom at_ 0 s.
Proof. intros Hn. cbn [replaceAllFrom]. by rewrite Hn. Qed.

Lemma replaceAll_hit (at_ : jsstring -> option (nat * jsstring)) (c : N)
    (s r : jsstring) (k : nat) :
  at_ (c :: s) = Some (S k, r) ->
  replaceAllFrom at_ 0 (c :: s) = r ++ replaceAllFrom at_ 0 (drop k s).
Proof.
  intros Hn. cbn [replaceAllFrom]. by rewrite Hn, replaceAllFrom_drop.
Qed.

Lemma escaped_units (text : jsstring) :
  replaceChar GT (lit "&gt;") (replaceChar LT (lit "&lt;") text)
  = flat_map escapedUnit text.
Proof.
  unfold replaceChar. induction text as [|c text IH]; [done|].
  cbn [flat_map]. rewrite flat_map_app, IH. f_equal. unfold escapedUnit.
  destruct (c =? LT); [done|]. cbn [flat_map]. by rewrite app_nil_r.
Qed.

(** Comparisons of two given code units are evaluated. *)
Ltac compare_units :=
  repeat match goal with
         | |- context [N.eqb ?a ?b] =>
             let v := eval vm_compute in (N.eqb a b) in
             lazymatch v with
             | true => change (N.eqb a b) with true
             | false => change (N.eqb a b) with false
             end
         end.

(** A literal that starts with an ampersand and goes on with a letter
    that is neither [l] nor [g] matches nowhere in an escaped text. *)
Lemma other_entity_absent (p r text : jsstring) (x : N) :
  AMP ∉ text -> x ≠ 108 -> x ≠ 103 ->
  replaceLit (AMP :: x :: p) r (flat_map escapedUnit text)
  = flat_map escapedUnit text.
Proof.
  intros Ht Hl Hg. unfold replaceLit, replaceAll, escapedUnit.
  change (lit "&lt;") with [38; 108; 116; 59].
  change (lit "&gt;") with [38; 103; 116; 59].
  induction text as [|c text IH]; [done|].
  apply not_elem_of_cons in Ht as [Hc Ht]. specialize (IH Ht).
  cbn [flat_map].
  destruct (c =? LT); [|destruct (c =? GT)]; cbn [app].
  - rewrite !replaceAll_miss, IH; [done|..]; cbn [startsWith]; unfold AMP;
      compare_units; rewrite ?(proj2 (N.eqb_neq x 108)) by done; reflexivity.
  - rewrite !replaceAll_miss, IH; [done|..]; cbn [startsWith]; unfold AMP;
      compare_units; rewrite ?(proj2 (N.eqb_neq x 103)) by done; reflexivity.
  - rewrite replaceAll_miss, IH; [done|]. cbn [startsWith].
    by rewrite (proj2 (N.eqb_neq AMP c)).
Qed.

Lemma lt_decoded (text : jsstring) :
  AMP ∉ text ->
  replaceLit (lit "&lt;") [LT] (flat_map escapedUnit text)
  = flat_map halfDecodedUnit text.
Proof.
  intros Ht. unfold replaceLit, replaceAll, escapedUnit, halfDecodedUnit.
  change (lit "&lt;") with [38; 108; 116; 59].
  change (lit "&gt;") with [38; 103; 116; 59].
  induction text as [|c text IH]; [done|].
  apply not_elem_of_cons in Ht as [Hc Ht]. specialize (IH Ht).
  cbn [flat_map].
  destruct (N.eqb_spec c LT) as [->|Hlt]; cbn [app].
  - rewrite (replaceAll_hit _ _ _ [LT] 3); [|cbn [startsWith]; by compare_units].
    change (drop 3 (?a :: ?b :: ?c :: ?rest)) with rest.
    rewrite IH. unfold GT, LT. by compare_units.
  - destruct (c =? GT); cbn [app].
    + rewrite !replaceAll_miss, IH; [done|..]; cbn [startsWith];
        by compare_units.
    + rewrite replaceAll_miss, IH; [done|]. cbn [startsWith].
      by rewrite (proj2 (N.eqb_neq 38 c)).
Qed.

Lemma gt_decoded (text : jsstring) :
  AMP ∉ text ->
  replaceLit (lit "&gt;") [GT] (flat_map halfDecodedUnit text) = text.
Proof.
  intros Ht. unfold replaceLit, replaceAll, halfDecodedUnit.
  change (lit "&gt;") with [38; 103; 116; 59].
  induction text as [|c text IH]; [done|].
  apply not_elem_of_cons in Ht as [Hc Ht]. specialize (IH Ht).
  cbn [flat_map].
  destruct (N.eqb_spec c GT) as [->|Hgt]; cbn [app].
  - rewrite (replaceAll_hit _ _ _ [GT] 3); [|cbn [startsWith]; by compare_units].
    change (drop 3 (?a :: ?b :: ?c :: ?rest)) with rest. by rewrite IH.
  - rewrite replaceAll_miss, IH; [done|]. cbn [startsWith].
    by rewrite (proj2 (N.eqb_neq 38 c)).
Qed.

Lemma entities_decoded (text : jsstring) :
  AMP ∉ text -> decodeEntities (flat_map escapedUnit text) = text.
Proof.
  intros Ht. unfold decodeEntities.
  change (lit "&nbsp;") with (AMP :: 110 :: lit "bsp;").
  rewrite (other_entity_absent (lit "bsp;") [SP] text 110) by done.
  rewrite lt_decoded, gt_decoded by done.
  by rewrite !(replaceLit_absent _ _ text AMP).
Qed.

Lemma startsWithCI_angle (b name : jsstring) :
  match b with d :: _ => d ≠ LT | [] => True end ->
  startsWithCI b (LT :: name) = false.
Proof.
  destruct b as [|d b]; [done|]. intros Hd. cbn [startsWithCI].
  apply andb_false_iff. left. apply N.eqb_neq.
  change (lowerAscii LT) with LT. unfold lowerAscii.
  destruct ((65 <=? d) && (d <=? 90)) eqn:E; [|congruence].
  apply andb_true_iff in E as [E1 E2].
  apply N.leb_le in E1, E2. unfold LT. lia.
Qed.

(** X20.  Escaping loses nothing: for a text without ampersand,
    [cleanHtmlTags] in its white-space preserving mode gives back the text
    from what [escapeMarkdown] made of it. *)
Theorem escaped_text_is_recovered (text : jsstring) :
  AMP ∉ text -> cleanHtmlTags (escapeMarkdown text) true = text.
Proof.
  intros Ht. unfold escapeMarkdown.
  destruct (decide (text = [])) as [->|Hne]; [done|].
  assert (falsy text = false) as -> by (by destruct text).
  assert (Hdec : decodeEntities text = text).
  { unfold decodeEntities. by rewrite !(replaceLit_absent _ _ text AMP). }
  rewrite Hdec, (replaceLit_absent _ _ text AMP), escaped_units by done.
  unfold cleanHtmlTags.
  destruct (falsy (flat_map escapedUnit text)) eqn:Ef.
  { destruct text as [|c text]; [done|]. exfalso. revert Ef.
    cbn [flat_map]. unfold escapedUnit at 1.
    by destruct (c =? LT), (c =? GT). }
  assert (Hno : forall a b, flat_map escapedUnit text = a ++ b ->
                  match b with d :: _ => d ≠ LT | [] => True end).
  { intros a b Heq. destruct b as [|d b]; [done|]. intros ->.
    assert (Hin : LT ∈ flat_map escapedUnit text).
    { rewrite Heq. apply elem_of_app. right. by left. }
    apply list_elem_of_In in Hin. apply in_flat_map in Hin as (c & _ & Hin).
    apply list_elem_of_In in Hin. unfold escapedUnit in Hin.
    destruct (c =? LT) eqn:E1; [|destruct (c =? GT)].
    - vm_compute in Hin.
      repeat (apply elem_of_cons in Hin as [Heq'|Hin]; [discriminate Heq'|]).
      by apply elem_of_nil in Hin.
    - vm_compute in Hin.
      repeat (apply elem_of_cons in Hin as [Heq'|Hin]; [discriminate Heq'|]).
      by apply elem_of_nil in Hin.
    - apply list_elem_of_singleton in Hin. subst c. by vm_compute in E1. }
  unfold replaceAll.
  rewrite (replaceAllFrom_none (blockAt (lit "script"))).
  2:{ intros a b Heq. unfold blockAt.
      by rewrite startsWithCI_angle by (by eapply Hno). }
  rewrite (replaceAllFrom_none (blockAt (lit "style"))).
  2:{ intros a b Heq. unfold blockAt.
      by rewrite startsWithCI_angle by (by eapply Hno). }
  rewrite (replaceAllFrom_none tagAt).
  2:{ intros a b Heq. specialize (Hno a b Heq). destruct b as [|d b]; [done|].
      simpl. by rewrite (proj2 (N.eqb_neq d LT)). }
  by apply entities_decoded.
Qed.

End RoundTrip.

Section RoundTripExamples.
Import Js Clean Shape.

(** An instance: a comparison written in a paragraph. *)
Lemma escaped_text_is_recovered_witness :
  (AMP ∉ lit "if a < b then x > y")
  /\ cleanHtmlTags (escapeMarkdown (lit "if a < b then x > y")) true
     = lit "if a < b then x > y".
Proof.
  assert (H1 : AMP ∉ lit "if a < b then x > y")
    by (apply (bool_decide_unpack _); vm_compute; exact I).
  split; [exact H1|]. exact (escaped_text_is_recovered _ H1).
Defined.

End RoundTripExamples.
(** ** File names ([generateFileName]) *)

Section FileNameFacts.
Import Js Dom Host Crawl.
Context `{Crypto}.



End FileNameFacts.
(** ** Table cells ([escapeCell]) *)

Section CellFacts.
Import Js Dom Host Clean Table Shape.

Lemma barsEscaped_app (p : bool) (a b : jsstring) :
  barsEscaped p (a ++ b)
  = barsEscaped p a
    && barsEscaped (match last a with Some c => c =? BACKSLASH | None => p end) b.
Proof.
  revert p. induction a as [|c a IH]; intros p; [done|].
  cbn [app barsEscaped]. rewrite IH, andb_assoc. do 2 f_equal.
  rewrite last_cons. by destruct (last a).
Qed.

Lemma barsEscaped_weaken (p : bool) (s : jsstring) :
  barsEscaped false s = true -> barsEscaped p s = true.
Proof.
  destruct s as [|c s]; [done|]. simpl. destruct (c =? PIPE), p; done.
Qed.

Lemma barsEscaped_lookup (p : bool) (s : jsstring) (i : nat) :
  barsEscaped p s = true -> s !! i = Some PIPE ->
  (i = 0%nat /\ p = true) \/ exists j, i = S j /\ s !! j = Some BACKSLASH.
Proof.
  revert p i. induction s as [|c s IH]; intros p i; [done|].
  cbn [barsEscaped]. intros [Hc Hs]%andb_true_iff. destruct i as [|i]; simpl.
  - intros [= ->]. by left.
  - intros Hi. right. exists i. split; [done|].
    destruct (IH _ _ Hs Hi) as [[-> Hb]|(j & -> & Hj)].
    + simpl. f_equal. by apply N.eqb_eq.
    + done.
Qed.

Lemma trimStart_suffix (s : jsstring) : exists a, s = a ++ trimStart s.
Proof.
  induction s as [|c s [a IH]]; [by exists []|]. simpl.
  destruct (isWhiteSpace c); [|by exists []].
  exists (c :: a). simpl. by f_equal.
Qed.

Lemma trimEnd_prefix (s : jsstring) : exists b, s = trimEnd s ++ b.
Proof.
  unfold trimEnd. destruct (trimStart_suffix (reverse s)) as [a Ha].
  exists (reverse a). rewrite <- reverse_app, <- Ha. by rewrite reverse_involutive.
Qed.

Lemma splitLines_ok (P : jsstring -> Prop) (cur s : jsstring) :
  (forall a b, P (a ++ b) -> P a) ->
  (forall a b, P (a ++ LF :: b) -> P b) ->
  P (reverse cur ++ s) -> Forall P (splitLines cur s).
Proof.
  intros Hl Hr. revert cur. induction s as [|c s IH]; intros cur Hp; simpl.
  { rewrite app_nil_r in Hp. by repeat constructor. }
  destruct (c =? LF) eqn:E.
  - apply N.eqb_eq in E as ->. constructor; [by eapply Hl|].
    apply IH. simpl. by eapply Hr.
  - apply IH. by rewrite reverse_cons, <- (assoc_L (++)).
Qed.

Lemma join_ok (P : jsstring -> Prop) (sep : jsstring) (parts : list jsstring) :
  P [] -> (forall a b, P a -> P b -> P (a ++ sep ++ b)) ->
  Forall P parts -> P (join sep parts).
Proof.
  intros Hnil Happ. induction 1 as [|p parts Hp Hps IH]; [done|].
  simpl. destruct parts as [|q parts]; [done|]. by apply Happ.
Qed.

Lemma splitLines_no_LF (cur s : jsstring) :
  LF ∉ cur -> Forall (fun t => LF ∉ t) (splitLines cur s).
Proof.
  revert cur. induction s as [|c s IH]; intros cur Hcur; simpl.
  { repeat constructor. by rewrite elem_of_reverse. }
  destruct (c =? LF) eqn:E.
  - constructor; [by rewrite elem_of_reverse|]. apply IH, not_elem_of_nil.
  - apply IH. apply N.eqb_neq in E. by intros [?|?]%elem_of_cons.
Qed.

(** [replace(/\r\n?/g, '\n')] leaves no carriage return. *)
Lemma newlines_unified (k : nat) (s : jsstring) :
  CR ∉ replaceAllFrom
         (fun t => match t with
                   | c :: d :: _ =>
                       if c =? CR
                       then Some (if d =? LF then 2%nat else 1%nat, [LF])
                       else None
                   | [c] => if c =? CR then Some (1%nat, [LF]) else None
                   | [] => None
                   end) k s.
Proof.
  revert k. induction s as [|c s IH]; intros k; [apply not_elem_of_nil|].
  cbn [replaceAllFrom]. destruct k as [|k]; [|apply IH].
  destruct s as [|d s].
  - destruct (c =? CR) eqn:E; simpl.
    + by intros ?%list_elem_of_singleton.
    + apply N.eqb_neq in E. intros ?%list_elem_of_singleton. congruence.
  - destruct (c =? CR) eqn:E.
    + destruct (d =? LF); cbn [app];
        (intros [?|?]%elem_of_cons; [done|by eapply IH]).
    + apply N.eqb_neq in E.
      intros [?|?]%elem_of_cons; [congruence|by eapply IH].
Qed.

Lemma bars_escaped (s : jsstring) :
  barsEscaped false (replaceChar PIPE (lit "\|") s) = true.
Proof.
  unfold replaceChar. induction s as [|c s IH]; [done|]. cbn [flat_map].
  rewrite barsEscaped_app. destruct (c =? PIPE) eqn:E.
  - simpl. by apply barsEscaped_weaken.
  - simpl. rewrite E. simpl. by apply barsEscaped_weaken.
Qed.

(** The text of a cell after [escapeCell]: no line break, and no bar
    without a backslash before it. *)
Lemma escapeCell_ok (s : jsstring) :
  (LF ∉ escapeCell s) /\ (CR ∉ escapeCell s)
  /\ barsEscaped false (escapeCell s) = true.
Proof.
  unfold escapeCell.
  match goal with |- context [splitLines [] ?t] => set (s4 := t) end.
  assert (H4 : CR ∉ s4).
  { subst s4. intros [? _]%replaceChar_fresh; [by eapply newlines_unified|].
    by intros [?|[?|?%elem_of_nil]%elem_of_cons]%elem_of_cons. }
  assert (H4' : barsEscaped false s4 = true) by apply bars_escaped.
  set (P := fun t : jsstring =>
              (LF ∉ t) /\ (CR ∉ t) /\ barsEscaped false t = true).
  assert (Hpieces : Forall P (map trimEnd (splitLines [] s4))).
  { apply Forall_map.
    pose proof (splitLines_no_LF [] s4 (not_elem_of_nil _)) as Hlf.
    pose proof (splitLines_ok
                  (fun t => (CR ∉ t) /\ barsEscaped false t = true) [] s4)
      as Hok.
    eapply Forall_impl; [apply Forall_and; split; [exact Hlf|apply Hok]|].
    - intros a b (Hc & Hb). split; [set_solver|].
      rewrite barsEscaped_app in Hb. by apply andb_true_iff in Hb as [-> _].
    - intros a b (Hc & Hb). split; [set_solver|].
      rewrite barsEscaped_app in Hb. apply andb_true_iff in Hb as [_ Hb].
      exact Hb.
    - done.
    - intros t (Hl & Hc & Hb). destruct (trimEnd_prefix t) as [b Hb'].
      rewrite Hb' in Hl, Hc, Hb. unfold P.
      split; [set_solver|]. split; [set_solver|].
      rewrite barsEscaped_app in Hb. by apply andb_true_iff in Hb as [-> _]. }
  apply (join_ok P);
    [split; [apply not_elem_of_nil|split; [apply not_elem_of_nil|done]]|..|done].
  intros a b (Hal & Hac & Hab) (Hbl & Hbc & Hbb). unfold P.
  assert (Hbr : forall x, x = LF \/ x = CR -> x ∉ lit "<br>").
  { intros x Hx Hin. vm_compute in Hin.
    repeat (apply elem_of_cons in Hin as [->|Hin]; [by destruct Hx|]).
    by apply elem_of_nil in Hin. }
  split; [|split].
  - rewrite !elem_of_app. intros [?|[?|?]]; [done| |done].
    apply (Hbr LF); [by left|done].
  - rewrite !elem_of_app. intros [?|[?|?]]; [done| |done].
    apply (Hbr CR); [by right|done].
  - rewrite !barsEscaped_app, Hab. simpl. by apply barsEscaped_weaken.
Qed.

Section Cells.
Context `{Jsdom}.
Variable conv : node -> jsstring.

(** X5.  The text of a table cell cannot break its row: it is not empty,
    it holds no line feed and no carriage return, and every bar in it has a
    backslash right before it.  Hence a row is written on one line. *)
Theorem table_cell_stays_in_its_row (cell : node) (cells : list node) :
  cellText conv cell ≠ []
  /\ (LF ∉ cellText conv cell) /\ (CR ∉ cellText conv cell)
  /\ (forall i, cellText conv cell !! i = Some PIPE ->
        exists j, i = S j /\ cellText conv cell !! j = Some BACKSLASH)
  /\ exists body, rowText (map (cellText conv) cells) = body ++ [LF]
                  /\ (LF ∉ body).
Proof.
  assert (Hcell : forall c, cellText conv c ≠ []
            /\ (LF ∉ cellText conv c) /\ (CR ∉ cellText conv c)
            /\ barsEscaped false (cellText conv c) = true).
  { intros c. unfold cellText.
    match goal with |- context [escapeCell ?t] =>
      destruct (escapeCell_ok t) as (Hl & Hc & Hb);
      destruct (escapeCell t) as [|x e] eqn:E
    end; simpl.
    - repeat split; try done; by intros ?%list_elem_of_singleton.
    - done. }
  destruct (Hcell cell) as (Hne & Hl & Hc & Hb).
  repeat split; try done.
  - intros i Hi. by destruct (barsEscaped_lookup _ _ _ Hb Hi) as [[_ ?]|?].
  - unfold rowText. eexists. split; [by rewrite !(assoc_L (++))|].
    rewrite !elem_of_app.
    assert (Hjoin : LF ∉ join (lit " | ") (map (cellText conv) cells)).
    { apply (join_ok (fun t => LF ∉ t)).
      - apply not_elem_of_nil.
      - intros a b Ha Hb'. rewrite !elem_of_app. intros [?|[Hin|?]]; [done| |done].
        vm_compute in Hin.
        repeat (apply elem_of_cons in Hin as [?|Hin]; [done|]).
        by apply elem_of_nil in Hin.
      - apply Forall_map, Forall_forall. intros c _. apply Hcell. }
    intros [[Hin|?]|Hin]; [|done|];
      vm_compute in Hin;
      repeat (apply elem_of_cons in Hin as [?|Hin]; [done|]);
      by apply elem_of_nil in Hin.
Qed.

End Cells.

End CellFacts.
(** ** The downloader and the image files *)

Section DownloadInvariants.
Import Js Download.


Lemma handle_without_ok (s : state) (e : event) :
  (forall location, e ≠ Response 200 location) ->
  streaming s = false -> outcome s ≠ Resolved ->
  streaming (handle s e) = false /\ outcome (handle s e) ≠ Resolved
  /\ file (handle s e) = file s.
Proof.
  intros He Hs Ho.
  assert (Hsettle : forall m,
            streaming (settle (Rejected m) s) = false
            /\ outcome (settle (Rejected m) s) ≠ Resolved
            /\ file (settle (Rejected m) s) = file s).
  { intros m. unfold settle. destruct (outcome s) eqn:E; simpl; by rewrite ?E. }
  destruct e as [statusCode location| | | |]; cbn [handle]; rewrite ?Hs;
    try done; try apply Hsettle.
  destruct (_ && _).
  { destruct (maxRedirects <=? redirectCount s)%nat; [apply Hsettle|done]. }
  destruct (statusCode =? 200)%Z eqn:E; [|apply Hsettle].
  apply Z.eqb_eq in E as ->. by destruct (He location).
Qed.

(** X7.  Only a response with status 200 opens the destination file:
    after events among which there is none, the destination is what it was
    before the call, and the promise has not resolved. *)
Theorem download_needs_status_200 (before : option (list N))
    (events : list event) :
  (forall location, Response 200 location ∉ events) ->
  file (downloadWithReferer before events) = before
  /\ outcome (downloadWithReferer before events) ≠ Resolved.
Proof.
  intros Hev. unfold downloadWithReferer.
  assert (Hinv : forall s, streaming s = false -> outcome s ≠ Resolved ->
            streaming (foldl handle s events) = false
            /\ outcome (foldl handle s events) ≠ Resolved
            /\ file (foldl handle s events) = file s).
  { induction events as [|e events IH]; intros s Hs Ho; [done|]. simpl.
    destruct (handle_without_ok s e) as (Hs' & Ho' & Hf); [|done..|].
    { intros location ->. apply (Hev location). by left. }
    destruct (IH (fun l Hin => Hev l (list_elem_of_further _ _ _ Hin))
                (handle s e) Hs' Ho') as (? & ? & ->).
    done. }
  by destruct (Hinv (mkState Pending before 0 false)) as (_ & ? & ?).
Qed.



End DownloadInvariants.

Section ImageInvariants.
Import Js Host Images.
Context `{Engine} `{Codec} `{Crypto}.

Lemma searchExtension_known (s e : jsstring) :
  searchExtension s = Some e -> e ∈ knownExtensions.
Proof.
  induction s as [|c s IH]; cbn [searchExtension].
  - by simpl.
  - destruct (extensionAt (c :: s)) as [e'|] eqn:E; [|exact IH].
    intros [= <-]. unfold extensionAt in E.
    destruct (c =? 46); [|done].
    apply head_Some_elem_of in E. by apply list_elem_of_filter in E as [_ ?].
Qed.

(** X9.  The file of a localized image is named after the SHA-1 of its
    address: the first 32 characters of the digest, a dot, and one of the
    eight known extensions, for remote images and for embedded ones. *)
Theorem image_file_names (m : jsstring * jsstring) :
  (exists e, e ∈ knownExtensions
     /\ fileName (remoteTask m) = take 32 (sha1 m.2) ++ lit "." ++ e)
  /\ (exists e, e ∈ knownExtensions
        /\ fileName (dataTask m) = take 32 (sha1 m.2) ++ lit "." ++ e).
Proof.
  assert (Hin : forall e : string, In (lit e) knownExtensions ->
                  exists e', e' ∈ knownExtensions /\ lit ("." ++ e) = lit "." ++ e').
  { intros e He. exists (lit e). split; [by apply list_elem_of_In|done]. }
  split; cbn [remoteTask dataTask fileName].
  - unfold inferImageExt.
    destruct (urlPathname m.2 ≫= _) as [e|] eqn:E.
    + exists e. split; [|done].
      apply bind_Some in E as (p & _ & Hs). by eapply searchExtension_known.
    + destruct (Hin "jpg"%string) as (e & He & Heq); [simpl; tauto|].
      exists e. split; [done|]. by rewrite <- Heq.
  - unfold extensionOfMediaType.
    repeat case_match;
      match goal with
      | |- exists e, _ /\ _ ++ lit (String "." ?x) = _ =>
          destruct (Hin x) as (e & He & Heq); [simpl; tauto|];
          exists e; split; [done|]; by rewrite <- Heq
      end.
Qed.

(** An image file that exists is not touched by a task. *)
Lemma fetchTask_keeps (net : network) (p : progress) (t : task)
    (name : jsstring) (bytes : list N) :
  images (files p) !! name = Some bytes ->
  images (files (fetchTask net p t).1) !! name = Some bytes.
Proof.
  intros Hn. unfold fetchTask.
  destruct (images (files p) !! fileName t) eqn:Et; [done|].
  assert (Hne : fileName t ≠ name) by congruence.
  destruct (Download.file _), (Download.outcome _); simpl;
    by rewrite ?lookup_insert_ne.
Qed.

Lemma writeDataTask_keeps (p : progress) (t : task)
    (name : jsstring) (bytes : list N) :
  images (files p) !! name = Some bytes ->
  images (files (writeDataTask p t).1) !! name = Some bytes.
Proof.
  intros Hn. unfold writeDataTask.
  destruct (images (files p) !! fileName t) eqn:Et; [done|].
  assert (Hne : fileName t ≠ name) by congruence.
  destruct (decodePayload _ _) as [[|b buf]|]; simpl;
    by rewrite ?lookup_insert_ne.
Qed.

Lemma forTasks_keeps (body : progress -> task -> progress * task)
    (name : jsstring) (bytes : list N) (ts : list task) (p : progress) :
  (forall p t, images (files p) !! name = Some bytes ->
               images (files (body p t).1) !! name = Some bytes) ->
  images (files p) !! name = Some bytes ->
  images (files (forTasks body p ts).1) !! name = Some bytes.
Proof.
  intros Hbody. revert p. induction ts as [|t ts IH]; intros p Hp; [done|].
  cbn [forTasks]. destruct (waiting p); [done|].
  pose proof (Hbody p t Hp) as Hp1. destruct (body p t) as [p1 t'].
  specialize (IH p1 Hp1). by destruct (forTasks body p1 ts).
Qed.

Lemma localizeFile_keeps (net : network) (p : progress)
    (mdName text name : jsstring) (bytes : list N) :
  images (files p) !! name = Some bytes ->
  images (files (localizeFile net p mdName text)) !! name = Some bytes.
Proof.
  intros Hp. unfold localizeFile.
  set (tasks := map remoteTask _). set (dataTasks := map dataTask _).
  set (p0 := mkProgress (files p) _ _ _).
  assert (Hp0 : images (files p0) !! name = Some bytes) by done.
  assert (Hgo :
    images (files
      (let '(p1, tasks1) := forTasks (fetchTask net) p0 tasks in
       if waiting p1 then p1
       else
         let '(p2, dataTasks2) := forTasks writeDataTask p1 dataTasks in
         match filter (fun t => ok t) (tasks1 ++ dataTasks2) with
         | [] => p2
         | replacements =>
             mkProgress
               (mkDisk (<[mdName := foldl applyReplacement
                                      (replaceAll svgPlaceholderAt text)
                                      replacements]> (markdown (files p2)))
                  (images (files p2)))
               (totalImages p2) (downloaded p2) false
         end)) !! name = Some bytes).
  { pose proof (forTasks_keeps (fetchTask net) name bytes tasks p0
                  (fun p t => fetchTask_keeps net p t name bytes) Hp0) as Hk1.
    destruct (forTasks (fetchTask net) p0 tasks) as [p1 tasks1].
    destruct (waiting p1); [done|].
    pose proof (forTasks_keeps writeDataTask name bytes dataTasks p1
                  (fun p t => writeDataTask_keeps p t name bytes) Hk1) as Hk2.
    destruct (forTasks writeDataTask p1 dataTasks) as [p2 dataTasks2].
    by destruct (filter _ _). }
  destruct tasks; [destruct dataTasks; [done|]|]; exact Hgo.
Qed.

(** X10.  A pass of the localizer never overwrites and never removes an
    image file: a file that exists under [papers/images] before the pass
    holds the same bytes after it, whatever the network does. *)
Theorem localizer_keeps_image_files (net : network) (all : list jsstring)
    (d : disk) (name : jsstring) (bytes : list N) :
  images d !! name = Some bytes ->
  images (files (localizeImagesInPapers net all d)) !! name = Some bytes.
Proof.
  intros Hd. unfold localizeImagesInPapers.
  assert (Hinv : forall p, images (files p) !! name = Some bytes ->
    images (files
      (foldl (fun p mdName =>
                if waiting p then p
                else match markdown (files p) !! mdName with
                     | Some text => localizeFile net p mdName text
                     | None => p
                     end) p all)) !! name = Some bytes).
  { induction all as [|mdName all IH]; intros p Hp; [done|]. simpl.
    apply IH. destruct (waiting p); [done|].
    destruct (markdown (files p) !! mdName); [|done].
    by apply localizeFile_keeps. }
  by apply Hinv.
Qed.

End ImageInvariants.

Section DownloadExamples.
Import Js Host Download Images Examples Samples.

(** An instance: a 404 whose body is sent all the same. *)
Lemma download_needs_status_200_witness :
  (forall location, Response 200 location ∉ notFound)
  /\ file (downloadWithReferer (Some [9]) notFound) = Some [9]
  /\ outcome (downloadWithReferer (Some [9]) notFound) ≠ Resolved.
Proof.
  assert (H1 : forall location, Response 200 location ∉ notFound).
  { intros location Hin. unfold notFound in Hin.
    repeat (apply elem_of_cons in Hin as [Heq|Hin]; [discriminate Heq|]).
    by apply elem_of_nil in Hin. }
  split; [exact H1|].
  exact (download_needs_status_200 (Some [9]) notFound H1).
Defined.


(** An instance: the image of the first pass, on a server that now sends
    other bytes. *)
Lemma localizer_keeps_image_files_witness :
  let name := take 32 (@sha1 toyCrypto imageUrl) ++ lit ".png" in
  images (files firstPass) !! name = Some pngBytes
  /\ images (files (@localizeImagesInPapers utcEngine plainCodec toyCrypto
                      (fun _ => serves [0; 0]) [lit "a.md"] (files firstPass)))
       !! name = Some pngBytes.
Proof.
  intros name.
  assert (H1 : images (files firstPass) !! name = Some pngBytes)
    by (vm_compute; reflexivity).
  split; [exact H1|].
  exact (@localizer_keeps_image_files utcEngine plainCodec toyCrypto
           (fun _ => serves [0; 0]) [lit "a.md"] (files firstPass) name
           pngBytes H1).
Defined.

End DownloadExamples.
(** ** The crawl: window, pages, interruption, article files *)

Section CrawlInvariants.
Import Js Dom Host Crawl.
Context `{Engine} `{Crypto} `{Writer}.
Variable w : World.

(** X11.  The bounds of the window, as the constructor and the filter
    treat them together.  When both a start and an end date are configured,
    an article is kept exactly when its time lies between them, both bounds
    included, and a target date given besides plays no part.  When only a
    target date is configured, an article is kept exactly when it is
    strictly later. *)
Theorem window_bounds (optStart optEnd optTarget : jsstring)
    (optMaxPages : nat) (optFetch : bool) (article : Article) (t : Z) :
  publishTime article ≠ [] ->
  dateParse (publishTime article) = Some t ->
  (forall s e,
     optStart ≠ [] -> optEnd ≠ [] ->
     dateParse optStart = Some s -> dateParse optEnd = Some e ->
     inWindow (configure optStart optEnd optTarget optMaxPages optFetch)
       article = true
     <-> (s <= t <= e)%Z)
  /\ (forall d,
        optTarget ≠ [] -> dateParse optTarget = Some d ->
        inWindow (configure [] [] optTarget optMaxPages optFetch) article
        = true
        <-> (d < t)%Z).
Proof.
  intros Hp Ht. split.
  - intros s e Hs He Hds Hde.
    rewrite (inWindow_range _ article (Some s) (Some e)).
    + split.
      * intros (_ & t' & s' & e' & Ht' & [= <-] & [= <-] & Hle). congruence.
      * intros Hle. split; [done|]. by exists t, s, e.
    + unfold configure. by destruct optStart; [|simpl; rewrite Hds].
    + unfold configure. by destruct optEnd; [|simpl; rewrite Hde].
  - intros d Hd Hdd.
    rewrite (inWindow_target _ article (Some d)); try done.
    + split.
      * intros (_ & t' & d' & Ht' & [= <-] & Hlt). congruence.
      * intros Hlt. split; [done|]. by exists t, d.
    + unfold configure. by destruct optTarget; [|simpl; rewrite Hdd].
Qed.

Lemma pageLoop_pages_bound (cfg : Config) (remaining cur : nat) (c : Crawler) :
  (length (pagesRead (pageLoop w cfg remaining cur c))
   <= length (pagesRead c) + remaining)%nat.
Proof.
  revert cur c. induction remaining as [|n IH]; intros cur c; simpl; [lia|].
  destruct (aborted c); [lia|].
  set (c1 := await w (setPagesRead (pagesRead c ++ [cur]) c)).
  assert (Hlen1 : length (pagesRead c1) = S (length (pagesRead c))).
  { subst c1. simpl. rewrite length_app. simpl. lia. }
  destruct (listing w cur) as [|a0 l0] eqn:El; [lia|]. rewrite <- El.
  set (c2 := if fetchFullContent cfg
             then await w (runOne w c1 (filter (inWindow cfg) (listing w cur)))
             else saveOnly w c1 (filter (inWindow cfg) (listing w cur))).
  assert (H12 : pagesRead c2 = pagesRead c1).
  { subst c2. destruct (fetchFullContent cfg).
    - by destruct (samePages_runOne w (filter (inWindow cfg) (listing w cur)) c1).
    - by destruct (samePages_saveOnly w (filter (inWindow cfg) (listing w cur)) c1). }
  destruct (_ && _); [rewrite H12; lia|].
  destruct (aborted c2); [rewrite H12; lia|].
  destruct (hasNext w cur); [|simpl; rewrite H12; lia].
  etrans; [apply IH|]. simpl. rewrite H12. lia.
Qed.

(** X12.  The pages are read in order from page 1, at most [maxPages] of
    them, and the next page is requested from every page read but possibly
    the last one: the pages read are [1, ..., k] with [k <= maxPages], and
    the pages on which [goToNextPage] was called are [1, ..., k'] with
    [k' = k] or [k' = k - 1]. *)
Theorem pages_are_read_in_order (cfg : Config) (disk : gmap jsstring jsstring) :
  exists k k' : nat,
    (k <= maxPages cfg)%nat
    /\ pagesRead (scrapeArticles w cfg (newCrawler disk)) = seq 1 k
    /\ nextRequested (scrapeArticles w cfg (newCrawler disk)) = seq 1 k'
    /\ (k' <= k <= S k')%nat.
Proof.
  unfold scrapeArticles.
  destruct (pageLoop_pages w cfg (maxPages cfg) 1 (newCrawler disk))
    as (k & k' & Hr & Hn & Hk & _).
  exists k, k'. split; [|done].
  pose proof (pageLoop_pages_bound cfg (maxPages cfg) 1 (newCrawler disk)) as Hb.
  rewrite Hr in Hb. simpl in Hb. by rewrite length_seq in Hb.
Qed.

(** A state that differs from [c] in the clock, the flag and the logs
    only. *)
Lemma runOne_aborted (c : Crawler) (items : list Article) :
  aborted c = true -> runOne w c items = c.
Proof. intros Ha. destruct items; simpl; [done|by rewrite Ha]. Qed.

Lemma await_aborted (c : Crawler) :
  aborted c = true -> aborted (await w c) = true.
Proof. intros Ha. simpl. by rewrite Ha. Qed.

Lemma saveOnly_aborted (c : Crawler) (items : list Article) :
  aborted c = true -> saveOnly w c items = c.
Proof. intros Ha. destruct items; simpl; [done|by rewrite Ha]. Qed.

(** X13.  A signal that arrives while the listing of a page is read stops
    the crawl on that page: no detail page is asked for, no article of the
    page is saved or registered, no failure is recorded, no delay is
    requested, the index is not written and the next page is not
    requested. *)
Theorem interrupt_during_listing (cfg : Config) (remaining currentPage : nat)
    (c : Crawler) :
  aborted c = false -> signalAt w (tick c) = true ->
  fetches (pageLoop w cfg (S remaining) currentPage c) = fetches c
  /\ articles (pageLoop w cfg (S remaining) currentPage c) = articles c
  /\ failures (pageLoop w cfg (S remaining) currentPage c) = failures c
  /\ seenKeys (pageLoop w cfg (S remaining) currentPage c) = seenKeys c
  /\ papers (pageLoop w cfg (S remaining) currentPage c) = papers c
  /\ summaryRealtime (pageLoop w cfg (S remaining) currentPage c)
     = summaryRealtime c
  /\ sleeps (pageLoop w cfg (S remaining) currentPage c) = sleeps c
  /\ nextRequested (pageLoop w cfg (S remaining) currentPage c)
     = nextRequested c
  /\ pagesRead (pageLoop w cfg (S remaining) currentPage c)
     = pagesRead c ++ [currentPage]
  /\ aborted (pageLoop w cfg (S remaining) currentPage c) = true.
Proof.
  intros Ha Hsig.
  set (c1 := await w (setPagesRead (pagesRead c ++ [currentPage]) c)).
  assert (Ha1 : aborted c1 = true).
  { subst c1. simpl. by rewrite Hsig, orb_true_r. }
  assert (Hres : pageLoop w cfg (S remaining) currentPage c = c1
                 \/ pageLoop w cfg (S remaining) currentPage c = await w c1).
  { cbn [pageLoop]. rewrite Ha. fold c1.
    destruct (listing w currentPage) as [|a0 l0] eqn:El; [by left|].
    rewrite <- El. rewrite runOne_aborted, saveOnly_aborted by done.
    destruct (fetchFullContent cfg).
    - destruct (_ && _); [by right|].
      rewrite await_aborted by done. by right.
    - destruct (_ && _); [by left|]. rewrite Ha1. by left. }
  destruct Hres as [-> | ->]; subst c1; simpl; by rewrite Hsig, !orb_true_r.
Qed.

(** X14.  The crawl never rewrites an article file: whatever the number
    of workers and their schedule, no transition of [scrapeArticles]
    rewrites or removes a file of [papers] that exists; in particular the
    files that are there before the crawl are there, unchanged, after it.
    (The image localizer, which [run] calls after the crawl, is another
    matter: it rewrites the articles whose images it has localized.) *)
Theorem article_files_keep_their_content (name text : jsstring) :
  (forall c c', rtc (step w) c c' ->
     papers c !! name = Some text -> papers c' !! name = Some text)
  /\ (forall cfg disk,
        disk !! name = Some text ->
        papers (scrapeArticles w cfg (newCrawler disk)) !! name = Some text).
Proof.
  split; [intros c c'; apply papers_steps|]. intros cfg disk Hd.
  by apply (papers_steps w (newCrawler disk)); [apply pageLoop_steps|].
Qed.

End CrawlInvariants.

Section CrawlExamples.
Import Js Dom Host Crawl Examples Samples.

(** An instance: an article stamped at the very start of a window from
    1 March to 31 May 2025 is kept, although the target date given besides
    is 1 April; with the target date alone it is dropped. *)
Lemma window_bounds_witness :
  publishTime firstOfMarch ≠ []
  /\ @dateParse utcEngine (publishTime firstOfMarch) = Some 1740787200000%Z
  /\ @inWindow utcEngine
       (@configure utcEngine (lit "2025-03-01") (lit "2025-05-31")
          (lit "2025-04-01") 5 true) firstOfMarch = true
  /\ @inWindow utcEngine
       (@configure utcEngine [] [] (lit "2025-03-01") 5 true) firstOfMarch
     ≠ true.
Proof.
  assert (H1 : publishTime firstOfMarch ≠ []) by (vm_compute; discriminate).
  assert (H2 : @dateParse utcEngine (publishTime firstOfMarch)
               = Some 1740787200000%Z) by (vm_compute; reflexivity).
  split; [exact H1|]. split; [exact H2|].
  pose proof (@window_bounds utcEngine (lit "2025-03-01") (lit "2025-05-31")
                (lit "2025-04-01") 5 true firstOfMarch _ H1 H2) as Hrange.
  pose proof (@window_bounds utcEngine (lit "2025-03-01") (lit "2025-05-31")
                (lit "2025-03-01") 5 true firstOfMarch _ H1 H2) as Htarget.
  split.
  - apply (proj1 Hrange 1740787200000%Z 1748649600000%Z);
      [vm_compute; discriminate..|vm_compute; reflexivity
      |vm_compute; reflexivity|lia].
  - intros Hin.
    apply (proj2 Htarget 1740787200000%Z) in Hin;
      [lia|vm_compute; discriminate|vm_compute; reflexivity].
Defined.

(** An instance: the user interrupts the run while page 1 is read. *)
Lemma interrupt_during_listing_witness :
  aborted (newCrawler ∅) = false
  /\ signalAt (interruptedSite [[firstArticle]; [secondArticle]])
       (tick (newCrawler ∅)) = true
  /\ fetches (@pageLoop utcEngine toyCrypto plainWriter
                (interruptedSite [[firstArticle]; [secondArticle]])
                noWindow 5 1 (newCrawler ∅)) = []
  /\ articles (@pageLoop utcEngine toyCrypto plainWriter
                 (interruptedSite [[firstArticle]; [secondArticle]])
                 noWindow 5 1 (newCrawler ∅)) = []
  /\ failures (@pageLoop utcEngine toyCrypto plainWriter
                 (interruptedSite [[firstArticle]; [secondArticle]])
                 noWindow 5 1 (newCrawler ∅)) = []
  /\ papers (@pageLoop utcEngine toyCrypto plainWriter
               (interruptedSite [[firstArticle]; [secondArticle]])
               noWindow 5 1 (newCrawler ∅)) = ∅
  /\ nextRequested (@pageLoop utcEngine toyCrypto plainWriter
                      (interruptedSite [[firstArticle]; [secondArticle]])
                      noWindow 5 1 (newCrawler ∅)) = []
  /\ pagesRead (@pageLoop utcEngine toyCrypto plainWriter
                  (interruptedSite [[firstArticle]; [secondArticle]])
                  noWindow 5 1 (newCrawler ∅)) = [1%nat].
Proof.
  assert (H1 : aborted (newCrawler ∅) = false) by reflexivity.
  assert (H2 : signalAt (interruptedSite [[firstArticle]; [secondArticle]])
                 (tick (newCrawler ∅)) = true) by reflexivity.
  split; [exact H1|]. split; [exact H2|].
  pose proof (@interrupt_during_listing utcEngine toyCrypto plainWriter
                (interruptedSite [[firstArticle]; [secondArticle]])
                noWindow 4 1 (newCrawler ∅) H1 H2)
    as (Hf & Ha & Hfail & _ & Hp & _ & _ & Hn & Hr & _).
  split; [exact Hf|]. split; [exact Ha|]. split; [exact Hfail|].
  split; [exact Hp|]. split; [exact Hn|exact Hr].
Defined.

End CrawlExamples.

Section RunInvariants.
Import Js Dom Host Crawl.
Context `{Crypto} `{Writer}.
Variable w : World.

Lemma indexed_maybeUpdateSummaryFile (c : Crawler) :
  (forall text, summaryRealtime c = Some text ->
     exists l, text = generateIndexMarkdown l /\ l ⊆+ articles c) ->
  forall text, summaryRealtime (maybeUpdateSummaryFile w c) = Some text ->
    exists l, text = generateIndexMarkdown l
              /\ l ⊆+ articles (maybeUpdateSummaryFile w c).
Proof.
  intros Hc text. unfold maybeUpdateSummaryFile, updateSummaryFile.
  destruct (_ =? _)%nat; [|exact (Hc text)].
  destruct (canWrite w _); cbn.
  - intros [= <-]. by eexists.
  - intros (l & -> & Hl)%Hc. exists l. split; [done|].
    by rewrite sortByPublishTime_perm.
Qed.

Lemma indexed_register (key : jsstring) (item : Article) (c : Crawler) :
  (forall text, summaryRealtime c = Some text ->
     exists l, text = generateIndexMarkdown l /\ l ⊆+ articles c) ->
  forall text, summaryRealtime (register key item c) = Some text ->
    exists l, text = generateIndexMarkdown l
              /\ l ⊆+ articles (register key item c).
Proof.
  intros Hc text (l & -> & Hl)%Hc. exists l. split; [done|]. simpl.
  etrans; [exact Hl|]. by apply submseteq_inserts_r.
Qed.

Lemma summary_save (c : Crawler) (item : Article) :
  summaryRealtime (saveArticleImmediately w c item).1 = summaryRealtime c
  /\ articles (saveArticleImmediately w c item).1 = articles c
  /\ failures (saveArticleImmediately w c item).1 = failures c.
Proof. unfold saveArticleImmediately. by repeat case_match. Qed.

Lemma failures_maybeUpdateSummaryFile (c : Crawler) :
  failures (maybeUpdateSummaryFile w c) = failures c.
Proof.
  unfold maybeUpdateSummaryFile, updateSummaryFile. by repeat case_match.
Qed.

(** X22.  The running index never lists an article that is not
    registered: in every state a run can reach, whatever the schedule of the
    workers, the text of [SUMMARY-REALTIME.md], when the file has been
    written, is the index of articles that are all in the article list. *)
Theorem realtime_index_lists_registered_articles (c : Crawler)
    (text : jsstring) :
  reachable w c -> summaryRealtime c = Some text ->
  exists l, text = generateIndexMarkdown l /\ l ⊆+ articles c.
Proof.
  intros [disk Hr]. revert text. revert c Hr.
  apply (rtc_ind_r (fun c => forall text, summaryRealtime c = Some text ->
           exists l, text = generateIndexMarkdown l /\ l ⊆+ articles c));
    [done|].
  intros c1 c2 Hr Hstep IH.
  destruct Hstep; try exact IH.
  - destruct (summary_save c item) as (-> & -> & _). exact IH.
  - unfold registerSaved. apply indexed_maybeUpdateSummaryFile.
    case_bool_decide; [exact IH|by apply indexed_register].
  - unfold saveOnlyItem. case_bool_decide; [exact IH|].
    destruct (summary_save c item) as (Hs & Ha & _).
    destruct (saveArticleImmediately w c item) as [c' [f|]]; simpl in *;
      [|by rewrite Hs, Ha].
    destruct (aborted c'); [by rewrite Hs, Ha|].
    apply indexed_maybeUpdateSummaryFile, indexed_register.
    by rewrite Hs, Ha.
Qed.

(** X23.  A failure record is never blank: in every state a run can
    reach, each record of the failure list has a title and an error text
    that are not empty. *)
Theorem failure_records_are_filled (c : Crawler) (f : Failure) :
  reachable w c -> f ∈ failures c -> failTitle f ≠ [] /\ failError f ≠ [].
Proof.
  intros [disk Hr]. revert f. revert c Hr.
  apply (rtc_ind_r (fun c => forall f, f ∈ failures c ->
           failTitle f ≠ [] /\ failError f ≠ [])).
  { intros f Hf. by apply elem_of_nil in Hf. }
  intros c1 c2 Hr Hstep IH.
  destruct Hstep; try exact IH.
  - by destruct (summary_save c item) as (_ & _ & ->).
  - unfold registerSaved. rewrite failures_maybeUpdateSummaryFile.
    by case_bool_decide.
  - intros f [Hf| ->%list_elem_of_singleton]%elem_of_app; [by apply IH|].
    simpl. unfold errorText. split.
    + by destruct (trim (orElse (title item) [])).
    + by destruct message.
  - unfold saveOnlyItem. case_bool_decide; [exact IH|].
    destruct (summary_save c item) as (_ & _ & Hf).
    destruct (saveArticleImmediately w c item) as [c' [n|]]; simpl in *;
      [|by rewrite Hf].
    destruct (aborted c'); [by rewrite Hf|].
    by rewrite failures_maybeUpdateSummaryFile; simpl; rewrite Hf.
Qed.

End RunInvariants.

Section RunExamples.
Import Js Dom Host Crawl Examples Samples.

(** An instance: after three articles of one listing page the running index
    has been written. *)
Lemma realtime_index_lists_registered_articles_witness :
  @reachable toyCrypto plainWriter (site threeOnOnePage goodFetch)
    (@scrapeArticles utcEngine toyCrypto plainWriter
       (site threeOnOnePage goodFetch) noWindow (newCrawler ∅))
  /\ exists l,
       summaryRealtime
         (@scrapeArticles utcEngine toyCrypto plainWriter
            (site threeOnOnePage goodFetch) noWindow (newCrawler ∅))
       = Some (@generateIndexMarkdown toyCrypto plainWriter l)
       /\ l ⊆+ articles
                 (@scrapeArticles utcEngine toyCrypto plainWriter
                    (site threeOnOnePage goodFetch) noWindow (newCrawler ∅)).
Proof.
  assert (Hr : @reachable toyCrypto plainWriter (site threeOnOnePage goodFetch)
                 (@scrapeArticles utcEngine toyCrypto plainWriter
                    (site threeOnOnePage goodFetch) noWindow (newCrawler ∅)))
    by apply scrapeArticles_reachable.
  split; [exact Hr|].
  destruct (summaryRealtime
              (@scrapeArticles utcEngine toyCrypto plainWriter
                 (site threeOnOnePage goodFetch) noWindow (newCrawler ∅)))
    as [text|] eqn:E; [|exfalso; vm_compute in E; discriminate].
  destruct (@realtime_index_lists_registered_articles toyCrypto plainWriter
              _ _ text Hr E) as (l & -> & Hl).
  exists l. split; [reflexivity|exact Hl].
Defined.

(** An instance: a site whose detail pages fail. *)
Lemma failure_records_are_filled_witness :
  @reachable toyCrypto plainWriter
    (site [[firstArticle; secondArticle]] failedFetch)
    (@scrapeArticles utcEngine toyCrypto plainWriter
       (site [[firstArticle; secondArticle]] failedFetch) noWindow
       (newCrawler ∅))
  /\ exists f,
       head (failures
               (@scrapeArticles utcEngine toyCrypto plainWriter
                  (site [[firstArticle; secondArticle]] failedFetch) noWindow
                  (newCrawler ∅))) = Some f
       /\ failTitle f ≠ [] /\ failError f ≠ [].
Proof.
  assert (Hr : @reachable toyCrypto plainWriter
                 (site [[firstArticle; secondArticle]] failedFetch)
                 (@scrapeArticles utcEngine toyCrypto plainWriter
                    (site [[firstArticle; secondArticle]] failedFetch)
                    noWindow (newCrawler ∅)))
    by apply scrapeArticles_reachable.
  split; [exact Hr|].
  destruct (failures
              (@scrapeArticles utcEngine toyCrypto plainWriter
                 (site [[firstArticle; secondArticle]] failedFetch) noWindow
                 (newCrawler ∅))) as [|f fs] eqn:E;
    [exfalso; vm_compute in E; discriminate|].
  exists f. split; [reflexivity|].
  apply (@failure_records_are_filled toyCrypto plainWriter _ _ f Hr).
  rewrite E. left.
Defined.

End RunExamples.
(** ** Reading a detail page *)

Section FetchFacts.
Import Js Dom Host Clean Crawl Markdown Fetch.
Context `{Jsdom} `{Engine} `{Serializer}.

Lemma trimStart_app (a b : jsstring) :
  match b with c :: _ => isWhiteSpace c = false | [] => False end ->
  trimStart (a ++ b) = trimStart a ++ b.
Proof.
  intros Hb. induction a as [|x a IH]; simpl.
  - destruct b as [|c b]; [done|]. simpl. by rewrite Hb.
  - by destruct (isWhiteSpace x).
Qed.

(** Trimming keeps a prefix that neither starts nor ends with white space. *)
Lemma trim_keeps_prefix (m rest : jsstring) (first last_ : N) :
  head m = Some first -> last m = Some last_ ->
  isWhiteSpace first = false -> isWhiteSpace last_ = false ->
  exists rest', trim (m ++ rest) = m ++ rest'.
Proof.
  intros Hf Hl Hwf Hwl. unfold trim.
  assert (Hs : trimStart (m ++ rest) = m ++ rest).
  { destruct m as [|c m]; [done|]. simpl in *. injection Hf as ->.
    by rewrite Hwf. }
  rewrite Hs. unfold trimEnd. rewrite reverse_app.
  rewrite trimStart_app.
  - exists (reverse (trimStart (reverse rest))).
    by rewrite reverse_app, reverse_involutive.
  - rewrite <- (reverse_involutive m) in Hl. rewrite last_reverse in Hl.
    destruct (reverse m) as [|c r]; [done|]. simpl in Hl. by injection Hl as ->.
Qed.

Lemma includes_prefix (m rest : jsstring) : includes (m ++ rest) m = true.
Proof.
  assert (Hs : startsWith (m ++ rest) m = true).
  { induction m as [|c m IH]; [done|]. simpl. by rewrite N.eqb_refl, IH. }
  destruct (m ++ rest); simpl in *; by rewrite Hs.
Qed.

(** X15.  What [fetchArticleContent] returns is never blank, and every
    visit that did not give the text of the article is taken for a failure
    by the retry loop: when the page could not be opened, loaded or closed,
    or the run was interrupted, the attempt fails with the message of the
    sentinel title; when the page was read but its body throws, is at most
    100 code units long or converts to blank Markdown, the attempt fails
    with the title of the page as its message. *)
Theorem unreadable_page_is_a_failed_attempt (depth : nat) (v : Visit) :
  resTitle (fetchArticleContent depth v) ≠ []
  /\ resContent (fetchArticleContent depth v) ≠ []
  /\ (pageRead v = false ->
      attemptResult (Returned (Some (fetchArticleContent depth v)))
      = inr sVisitFailed)
  /\ (pageRead v = true -> bodyUnusable depth v ->
      attemptResult (Returned (Some (fetchArticleContent depth v)))
      = inr (resTitle (fetchArticleContent depth v))).
Proof.
  assert (Hfailed : forall a m,
            resTitle (visitFailed a m) ≠ []
            /\ resContent (visitFailed a m) ≠ []
            /\ attemptResult (Returned (Some (visitFailed a m)))
               = inr sVisitFailed).
  { intros a m. split; [done|]. split; [by destruct a|done]. }
  assert (Hor : forall a b : jsstring, b ≠ [] -> orElse a b ≠ []).
  { intros a b Hb. by destruct a. }
  unfold fetchArticleContent, pageRead, bodyUnusable.
  destruct (abortedAtEntry v); cbn [orb negb andb].
  { destruct (Hfailed true (lit "aborted")) as (? & ? & ?). by repeat split. }
  destruct (newPage v) as [m|].
  { destruct (Hfailed (signalWhileOpening v) m) as (? & ? & ?).
    rewrite bool_decide_eq_false_2 by done. rewrite andb_false_r.
    by repeat split. }
  destruct (signalWhileOpening v); cbn [orb negb andb].
  { destruct (Hfailed true (lit "aborted")) as (? & ? & ?). by repeat split. }
  destruct (goto v) as [m|].
  { destruct (Hfailed (signalWhileLoading v) m) as (? & ? & ?).
    rewrite (bool_decide_eq_false_2 (Some m = None)) by done.
    by repeat split. }
  destruct (close v) as [m|].
  { destruct (Hfailed (signalWhileLoading v) m) as (? & ? & ?).
    rewrite (bool_decide_eq_false_2 (Some m = None)) by done.
    rewrite andb_false_r. by repeat split. }
  cbn [resTitle resContent].
  split; [by apply Hor|]. split; [by apply Hor|]. split; [done|].
  intros _ Hbody. unfold attemptResult. cbn [resTitle resContent].
  set (title := orElse (trim (extractTitle v)) sUnknownTitle).
  assert (Htitle : orElse title sFetchFailed = title).
  { assert (title ≠ []) by (by apply Hor). by destruct title. }
  assert (Hmarked :
    includes (orElse (trim (extractContent depth v)) sNoContent) sNoContent
    || includes (orElse (trim (extractContent depth v)) sNoContent)
         sExtractFailed = true).
  { unfold extractContent. destruct (bodyHtml v) as [htmlContent|message].
    - assert (Hblank : forall content,
                trim content = [] ->
                trim (if falsy content then sNoContent else content)
                = [] \/ trim (if falsy content then sNoContent else content)
                        = sNoContent).
      { intros content Hc. destruct content; [by right|by left]. }
      assert (Hcontent :
        trim (if negb (falsy htmlContent) && (100 <? length htmlContent)%nat
              then convertHtmlToMarkdown depth htmlContent else []) = []).
      { destruct Hbody as [Hlen|Hblank'].
        - apply Nat.ltb_ge in Hlen. by rewrite Hlen, andb_false_r.
        - by destruct (_ && _). }
      destruct (Hblank _ Hcontent) as [-> | ->]; done.
    - destruct (trim_keeps_prefix sExtractFailed (lit ": " ++ message)
                  0x63D0 0x8D25) as [rest' ->]; try done.
      apply orb_true_iff. right.
      change (orElse (sExtractFailed ++ rest') sNoContent)
        with (sExtractFailed ++ rest').
      apply includes_prefix. }
  destruct (streq title sVisitFailed); cbn [orb]; [by rewrite Htitle|].
  destruct (falsy _); cbn [orb]; [by rewrite Htitle|].
  by rewrite Hmarked, Htitle.
Qed.

End FetchFacts.

Section FetchExamples.
Import Js Dom Host Clean Crawl Markdown Fetch Examples Samples.

(** An instance: the page loads and the body cannot be read; the fetch
    counts as failed, under the title of the page. *)
Lemma unreadable_page_is_a_failed_attempt_witness :
  pageRead bodyMissing = true
  /\ @bodyUnusable throwingDom utcEngine textOnly 1 bodyMissing
  /\ resTitle (@fetchArticleContent throwingDom utcEngine textOnly 1
                 bodyMissing) = lit "A title of the page"
  /\ attemptResult
       (Returned
          (Some (@fetchArticleContent throwingDom utcEngine textOnly 1
                   bodyMissing)))
     = inr (resTitle (@fetchArticleContent throwingDom utcEngine textOnly 1
                        bodyMissing)).
Proof.
  assert (H1 : pageRead bodyMissing = true) by reflexivity.
  assert (H2 : @bodyUnusable throwingDom utcEngine textOnly 1 bodyMissing)
    by exact I.
  split; [exact H1|]. split; [exact H2|]. split; [vm_compute; reflexivity|].
  exact (proj2 (proj2 (proj2
    (@unreadable_page_is_a_failed_attempt throwingDom utcEngine textOnly 1
       bodyMissing))) H1 H2).
Defined.

End FetchExamples.
(** ** A run in which no detail page can be read *)

Section ReportFacts.
Import Js Dom Host Crawl Report.
Context `{Engine} `{Crypto} `{Writer} `{Json}.
Variable w : World.
Hypothesis unreadable : forall t url, failsAttempt (fetched w t url).

Lemma retryLoop_unreadable (url : jsstring) (d : Z) (n attempt : nat)
    (e : option jsstring) (c : Crawler) :
  articles (retryLoop w url d n attempt e c).1 = articles c
  /\ papers (retryLoop w url d n attempt e c).1 = papers c
  /\ exists msg, (retryLoop w url d n attempt e c).2 = inr msg.
Proof using unreadable.
  revert attempt e c. induction n as [|n IH]; intros attempt e c.
  { simpl. repeat split. by eexists. }
  destruct (aborted c) eqn:Hab.
  { cbn [retryLoop]. rewrite Hab. repeat split. by eexists. }
  destruct (unreadable (tick c) url) as [msg Hmsg].
  destruct n as [|n].
  { cbn [retryLoop]. rewrite Hab, Hmsg. repeat split. by eexists. }
  rewrite (retryLoop_failed w url d n attempt e c msg Hab Hmsg).
  destruct (IH (S attempt) (Some msg)
              (await w
                 (setSleeps (sleeps c ++ [(d * 2 ^ Z.of_nat attempt)%Z])
                    (await w (setFetches (fetches c ++ [url]) c)))))
    as (Ha & Hp & Hm).
  by rewrite Ha, Hp.
Qed.

Lemma runOne_unreadable (items : list Article) (c : Crawler) :
  articles (runOne w c items) = articles c
  /\ papers (runOne w c items) = papers c.
Proof using unreadable.
  revert c. induction items as [|item items IH]; intros c; simpl; [done|].
  destruct (aborted c); [done|].
  unfold runOneItem. case_bool_decide; [apply IH|].
  unfold fetchArticleContentWithRetry.
  destruct (retryLoop_unreadable (link item) 800 2 0 None c)
    as (Ha & Hp & msg & Hm).
  destruct (retryLoop w (link item) 800 2 0 None c) as [c1 result].
  simpl in Ha, Hp, Hm. subst result.
  destruct (aborted c1); [done|].
  destruct (IH (recordFailure item msg c1)) as [-> ->]. done.
Qed.

Lemma pageLoop_unreadable (cfg : Config) (remaining cur : nat) (c : Crawler) :
  fetchFullContent cfg = true ->
  articles (pageLoop w cfg remaining cur c) = articles c
  /\ papers (pageLoop w cfg remaining cur c) = papers c.
Proof using unreadable.
  intros Hfull. revert cur c.
  induction remaining as [|n IH]; intros cur c; simpl; [done|].
  destruct (aborted c); [done|]. rewrite Hfull.
  destruct (listing w cur) as [|a0 l0] eqn:El; [done|]. rewrite <- El.
  set (c1 := await w (setPagesRead (pagesRead c ++ [cur]) c)).
  destruct (runOne_unreadable (filter (inWindow cfg) (listing w cur)) c1)
    as [Ha Hp].
  set (c2 := await w (runOne w c1 (filter (inWindow cfg) (listing w cur)))).
  assert (Hc2 : articles c2 = articles c /\ papers c2 = papers c).
  { subst c2. simpl. by rewrite Ha, Hp. }
  destruct (_ && _); [done|]. destruct (aborted c2); [done|].
  destruct (hasNext w cur); [|done].
  destruct (IH (S cur)
              (await w (setNextRequested (nextRequested c2 ++ [cur]) c2)))
    as [-> ->].
  done.
Qed.

(** X16.  When no detail page can be read, a crawl that fetches the
    articles saves nothing and reports nothing: no article is registered, no
    file is written under [papers], and [saveResults] returns at once, so
    that neither the final index nor the export of the failures is written,
    whatever failures were recorded. *)
Theorem unreadable_site_leaves_no_report (cfg : Config)
    (disk : gmap jsstring jsstring) (timestamp : jsstring) :
  fetchFullContent cfg = true ->
  articles (scrapeArticles w cfg (newCrawler disk)) = []
  /\ papers (scrapeArticles w cfg (newCrawler disk)) = disk
  /\ saveResults w timestamp (scrapeArticles w cfg (newCrawler disk))
     = (scrapeArticles w cfg (newCrawler disk), mkReports None None).
Proof using unreadable.
  intros Hfull.
  destruct (pageLoop_unreadable cfg (maxPages cfg) 1 (newCrawler disk) Hfull)
    as [Ha Hp].
  unfold scrapeArticles. split; [done|]. split; [done|].
  unfold saveResults. by rewrite Ha.
Qed.

End ReportFacts.

Section ReportExamples.
Import Js Dom Host Crawl Report Examples Samples.

(** An instance: a site of two articles whose detail pages fail; two
    failures are recorded and none is exported. *)
Lemma unreadable_site_leaves_no_report_witness :
  (forall t url,
     failsAttempt
       (fetched (site [[firstArticle; secondArticle]] failedFetch) t url))
  /\ fetchFullContent noWindow = true
  /\ length (failures
               (@scrapeArticles utcEngine toyCrypto plainWriter
                  (site [[firstArticle; secondArticle]] failedFetch)
                  noWindow (newCrawler ∅))) = 2%nat
  /\ @saveResults toyCrypto plainWriter linksOnly
       (site [[firstArticle; secondArticle]] failedFetch) (lit "2025-06-06")
       (@scrapeArticles utcEngine toyCrypto plainWriter
          (site [[firstArticle; secondArticle]] failedFetch)
          noWindow (newCrawler ∅))
     = (@scrapeArticles utcEngine toyCrypto plainWriter
          (site [[firstArticle; secondArticle]] failedFetch)
          noWindow (newCrawler ∅),
        mkReports None None).
Proof.
  assert (H1 : forall t url,
            failsAttempt
              (fetched (site [[firstArticle; secondArticle]] failedFetch) t url)).
  { intros t url. exists sVisitFailed. reflexivity. }
  assert (H2 : fetchFullContent noWindow = true) by reflexivity.
  split; [exact H1|]. split; [exact H2|].
  split; [vm_compute; reflexivity|].
  exact (proj2 (proj2
    (@unreadable_site_leaves_no_report utcEngine toyCrypto plainWriter
       linksOnly (site [[firstArticle; secondArticle]] failedFetch) H1
       noWindow ∅ (lit "2025-06-06") H2))).
Defined.

End ReportExamples.
(** ** The command line *)

Section CliFacts.
Import Js Cli.
Context {X : Type} `{Casing}.

Lemma splitOn_plain (sep : N) (cur s : jsstring) :
  sep ∉ s -> splitOn sep cur s = [reverse cur ++ s].
Proof.
  revert cur. induction s as [|c s IH]; intros cur Hs; simpl.
  { by rewrite app_nil_r. }
  apply not_elem_of_cons in Hs as [Hc Hs].
  rewrite (proj2 (N.eqb_neq c sep)) by done.
  by rewrite IH, reverse_cons, <- (assoc_L (++)).
Qed.

Lemma splitOn_first (sep : N) (cur k v : jsstring) :
  sep ∉ k ->
  splitOn sep cur (k ++ sep :: v) = (reverse cur ++ k) :: splitOn sep [] v.
Proof.
  revert cur. induction k as [|c k IH]; intros cur Hk; simpl.
  { by rewrite N.eqb_refl, app_nil_r. }
  apply not_elem_of_cons in Hk as [Hc Hk].
  rewrite (proj2 (N.eqb_neq c sep)) by done.
  by rewrite IH, reverse_cons, <- (assoc_L (++)).
Qed.

Lemma parseArg_other (out : gmap jsstring (Value X)) (a k : jsstring) :
  argName a ≠ Some k -> parseArg X out a !! k = out !! k.
Proof.
  unfold argName, parseArg. destruct (startsWith a (lit "--")); [|done].
  destruct (splitOn EQUALS [] (drop 2 a)) as [|k' rest]; [done|]. simpl.
  intros Hk. destruct (streq k' (lit "__proto__")); [done|].
  rewrite lookup_insert_ne; [done|congruence].
Qed.

Lemma parseArgv_last (out : gmap jsstring (Value X)) (post : list jsstring)
    (k : jsstring) :
  (forall a, a ∈ post -> argName a ≠ Some k) ->
  foldl (parseArg X) out post !! k = out !! k.
Proof.
  revert out. induction post as [|a post IH]; intros out Hpost; [done|].
  simpl. rewrite IH by (intros a' Ha'; apply Hpost; by right).
  apply parseArg_other, Hpost. by left.
Qed.

Lemma parseArgv_unnamed (argv : list jsstring) (k : jsstring) :
  (forall a, a ∈ argv -> argName a ≠ Some k) -> parseArgv X argv !! k = None.
Proof. intros Hargv. unfold parseArgv. by rewrite parseArgv_last. Qed.

(** X17.  [pick] goes through the names of its key list in order, and
    only for one name at a time does the command line come before the
    environment and the environment before [config.json].  So an option
    given under the first name wins: when the last argument that names [k]
    is [--k=v], the option read under a list that starts with [k] has the
    value [v], whatever the environment and [config.json] hold (even when
    [config.json] holds [null]); when it is [--k], the value is [true].
    An option given under a later name does not: when no argument names the
    first name and the environment holds a value for it, that value is
    picked, whatever the command line gives for the other names. *)
Theorem first_name_on_command_line_wins (keys : list jsstring)
    (k : jsstring) (inherited : jsstring -> option X)
    (env : jsstring -> option (Value X)) (fileCfg : FileCfg X)
    (fallback : Value X) :
  (forall pre post v,
     (EQUALS ∉ k) -> (EQUALS ∉ v) -> k ≠ lit "__proto__" ->
     (forall a, a ∈ post -> argName a ≠ Some k) ->
     pick X inherited
       (parseArgv X (pre ++ [lit "--" ++ k ++ [EQUALS] ++ v] ++ post))
       env fileCfg (k :: keys) fallback = Some (Str v)
     /\ pick X inherited (parseArgv X (pre ++ [lit "--" ++ k] ++ post))
          env fileCfg (k :: keys) fallback = Some Flag)
  /\ (forall argv envVal,
        (forall a, a ∈ argv -> argName a ≠ Some k) ->
        inherited k = None ->
        envGet X env k = Some envVal ->
        pick X inherited (parseArgv X argv) env fileCfg (k :: keys) fallback
        = Some envVal).
Proof.
  split.
  - intros pre post v Hk Hv Hproto Hpost.
    assert (Hstart : forall rest,
              startsWith (lit "--" ++ rest) (lit "--") = true) by done.
    assert (Hname : streq k (lit "__proto__") = false)
      by (by apply bool_decide_eq_false).
    split; unfold parseArgv; rewrite !foldl_app; cbn [foldl pick];
      unfold argsGet; rewrite parseArgv_last by done; unfold parseArg;
      rewrite Hstart; change (drop 2 (lit "--" ++ ?rest)) with rest.
    + change (k ++ [EQUALS] ++ v) with (k ++ EQUALS :: v).
      rewrite splitOn_first, splitOn_plain by done. simpl.
      by rewrite Hname, lookup_insert_eq.
    + rewrite splitOn_plain by done. simpl.
      by rewrite Hname, lookup_insert_eq.
  - intros argv envVal Hargv Hin Henv. cbn [pick]. unfold argsGet.
    by rewrite parseArgv_unnamed, Hin, Henv.
Qed.

End CliFacts.

Section CliExamples.
Import Js Cli Samples.

(** An instance: [--maxPages] is given twice, and the environment and the
    configuration file set it too; the last argument wins.  The start date
    is given as [--start-date] and, in the environment, as [START_DATE]:
    read under the names [startDate] and [start-date], it is the value of
    the environment. *)
Lemma first_name_on_command_line_wins_witness :
  let argv := [lit "--maxPages=2"; lit "crawl"] ++
              [lit "--" ++ lit "maxPages" ++ [EQUALS] ++ lit "3"]
              ++ [lit "--image"] in
  (EQUALS ∉ lit "maxPages") /\ (EQUALS ∉ lit "3")
  /\ lit "maxPages" ≠ lit "__proto__"
  /\ (forall a, a ∈ [lit "--image"] -> argName a ≠ Some (lit "maxPages"))
  /\ @pick unit asciiCasing constructorOnly (parseArgv unit argv) someEnv
       someCfg
       [lit "maxPages"; lit "max-pages"] (Other tt) = Some (Str (lit "3"))
  /\ (forall a, a ∈ [lit "--start-date=2025-01-01"] ->
        argName a ≠ Some (lit "startDate"))
  /\ constructorOnly (lit "startDate") = None
  /\ @envGet unit asciiCasing someEnv (lit "startDate")
     = Some (Str (lit "2024-01-01"))
  /\ @pick unit asciiCasing constructorOnly
       (parseArgv unit [lit "--start-date=2025-01-01"]) someEnv someCfg
       [lit "startDate"; lit "start-date"] (Other tt)
     = Some (Str (lit "2024-01-01")).
Proof.
  intros argv.
  assert (H1 : EQUALS ∉ lit "maxPages")
    by (apply (bool_decide_unpack _); vm_compute; exact I).
  assert (H2 : EQUALS ∉ lit "3")
    by (apply (bool_decide_unpack _); vm_compute; exact I).
  assert (H3 : lit "maxPages" ≠ lit "__proto__") by (vm_compute; discriminate).
  assert (H4 : forall a, a ∈ [lit "--image"] ->
                 argName a ≠ Some (lit "maxPages")).
  { intros a ->%list_elem_of_singleton. vm_compute. discriminate. }
  assert (H5 : forall a, a ∈ [lit "--start-date=2025-01-01"] ->
                 argName a ≠ Some (lit "startDate")).
  { intros a ->%list_elem_of_singleton. vm_compute. discriminate. }
  assert (H6 : constructorOnly (lit "startDate") = None)
    by (vm_compute; reflexivity).
  assert (H7 : @envGet unit asciiCasing someEnv (lit "startDate")
               = Some (Str (lit "2024-01-01"))) by (vm_compute; reflexivity).
  do 4 (split; [assumption|]). split.
  { exact (proj1 (proj1
      (@first_name_on_command_line_wins unit asciiCasing [lit "max-pages"]
         (lit "maxPages") constructorOnly someEnv someCfg (Other tt))
      [lit "--maxPages=2"; lit "crawl"] [lit "--image"] (lit "3")
      H1 H2 H3 H4)). }
  do 3 (split; [assumption|]).
  exact (proj2
    (@first_name_on_command_line_wins unit asciiCasing [lit "start-date"]
       (lit "startDate") constructorOnly someEnv someCfg (Other tt))
    [lit "--start-date=2025-01-01"] (Str (lit "2024-01-01")) H5 H6 H7).
Defined.

End CliExamples.
(** ** Anchors *)

Section AnchorFacts.
Import Js Host Crawl Anchor.
Context `{Engine}.

(** X18.  An anchor is made of word characters, Han characters and
    hyphens only, it holds no white space, and no two hyphens in a row. *)
Theorem anchor_is_clean (title : jsstring) :
  (forall c, c ∈ generateAnchor title ->
     isWordChar c = true \/ isHan c = true \/ c = HYPHEN)
  /\ (forall i, generateAnchor title !! i = Some HYPHEN ->
        generateAnchor title !! S i ≠ Some HYPHEN).
Proof.
  unfold generateAnchor, replaceAll.
  set (kept := filter (fun c => isKept c) _).
  set (hyphenated := replaceAllFrom _ 0 kept).
  pose proof (fun c => collapse_runs_elem isWhiteSpace HYPHEN 0 kept c) as Hh.
  fold hyphenated in Hh.
  destruct (collapse_runs_normal (fun c => c =? HYPHEN) HYPHEN
              (length hyphenated) hyphenated eq_refl (le_n _))
    as (Ha & Hb & _).
  split.
  - intros c Hc. destruct (Ha c Hc) as [->|[Hin _]]; [auto|].
    destruct (Hh c Hin) as [->|[Hk Hw]]; [auto|].
    subst kept. apply list_elem_of_filter in Hk as [Hk _].
    apply Is_true_true in Hk. unfold isKept in Hk. rewrite Hw in Hk.
    apply orb_true_iff in Hk as [Hk|Hk]; [|apply N.eqb_eq in Hk; auto].
    rewrite orb_false_r in Hk. apply orb_true_iff in Hk as [?|?]; auto.
  - intros i Hi Hi'. by specialize (Hb i HYPHEN Hi Hi').
Qed.

End AnchorFacts.
(** ** The publish time of a listing entry *)

Section ListingFacts.
Import Js Images Listing.

Lemma startsWith_split (s p : jsstring) :
  startsWith s p = true -> s = p ++ drop (length p) s.
Proof.
  revert s. induction p as [|c p IH]; intros s; [done|].
  destruct s as [|d s]; [done|]. simpl.
  intros [Hc Hs]%andb_true_iff. apply N.eqb_eq in Hc as ->. f_equal.
  by apply IH.
Qed.

Lemma expect_split (p t r : jsstring) : expect p t = Some r -> t = p ++ r.
Proof.
  unfold expect. destruct (startsWith t p) eqn:E; [|done].
  intros [= <-]. by apply startsWith_split.
Qed.

Lemma span_split (f : N -> bool) (t : jsstring) :
  t = take (spanLen f t) t ++ drop (spanLen f t) t
  /\ Forall (fun c => f c = true) (take (spanLen f t) t)
  /\ length (take (spanLen f t) t) = spanLen f t.
Proof.
  split; [by rewrite take_drop|]. induction t as [|c t [IH1 IH2]]; [done|].
  simpl. destruct (f c) eqn:E; [|done]. simpl. split; [by constructor|].
  by rewrite IH2.
Qed.

Lemma many1_split (f : N -> bool) (t r : jsstring) :
  many1 f t = Some r ->
  exists ws, t = ws ++ r /\ ws ≠ [] /\ Forall (fun c => f c = true) ws.
Proof.
  unfold many1. destruct (span_split f t) as (Hs & Hf & Hl).
  destruct (spanLen f t) as [|n] eqn:E; [done|]. intros [= <-].
  exists (take (S n) t). split; [done|]. split; [|done].
  intros Hnil. by rewrite Hnil in Hl.
Qed.

Lemma digits_split (n : nat) (t r : jsstring) :
  digits n t = Some r ->
  exists ds, t = ds ++ r /\ length ds = n
             /\ Forall (fun c => isDigit c = true) ds.
Proof.
  revert t. induction n as [|n IH]; intros t; simpl.
  { intros [= <-]. by exists []. }
  destruct t as [|c t]; [done|]. destruct (isDigit c) eqn:E; [|done].
  intros (ds & -> & <- & Hd)%IH. exists (c :: ds). by repeat constructor.
Qed.

Lemma oneOrTwoDigits_split (t r : jsstring) :
  oneOrTwoDigits t = Some r ->
  exists ds, t = ds ++ r /\ (1 <= length ds <= 2)%nat
             /\ Forall (fun c => isDigit c = true) ds.
Proof.
  unfold oneOrTwoDigits. destruct t as [|c t]; [done|].
  destruct (isDigit c) eqn:Ec; [|done]. intros [= <-].
  destruct t as [|d t].
  - exists [c]. simpl. repeat split; try lia. by repeat constructor.
  - destruct (isDigit d) eqn:Ed.
    + exists [c; d]. simpl. repeat split; try lia. by repeat constructor.
    + exists [c]. simpl. repeat split; try lia. by repeat constructor.
Qed.

Lemma timeAt_shaped (t r : jsstring) :
  timeAt t = Some r -> exists s, t = s ++ r /\ timeShaped s.
Proof.
  unfold timeAt. intros H.
  apply bind_Some in H as (t1 & (y & -> & Hy & Hyd)%digits_split & H).
  apply bind_Some in H as (t2 & ->%expect_split & H).
  apply bind_Some in H as (t3 & (m & -> & Hm & Hmd)%oneOrTwoDigits_split & H).
  apply bind_Some in H as (t4 & ->%expect_split & H).
  apply bind_Some in H as (t5 & (d & -> & Hd & Hdd)%oneOrTwoDigits_split & H).
  apply bind_Some in H as (t6 & (ws & -> & Hws & Hwsd)%many1_split & H).
  apply bind_Some in H as (t7 & (h & -> & Hh & Hhd)%oneOrTwoDigits_split & H).
  apply bind_Some in H as (t8 & ->%expect_split & H).
  apply digits_split in H as (mi & -> & Hmi & Hmid).
  exists (y ++ [45] ++ m ++ [45] ++ d ++ ws ++ h ++ [58] ++ mi).
  split; [by rewrite <- !(assoc_L (++))|].
  exists y, m, d, ws, h, mi. repeat split; try done; try lia.
  by rewrite !Forall_app.
Qed.

Lemma matched_prefix (s r : jsstring) : matched (s ++ r) r = s.
Proof.
  unfold matched. rewrite length_app.
  replace (length s + length r - length r)%nat with (length s) by lia.
  by rewrite take_app_length.
Qed.

Lemma simpleTimeAt_shaped (t m : jsstring) :
  simpleTimeAt t = Some m -> timeShaped m /\ exists r, t = m ++ r.
Proof.
  unfold simpleTimeAt.
  intros (r & (s & -> & Hs)%timeAt_shaped & [= <-])%bind_Some.
  rewrite matched_prefix. split; [done|]. by exists r.
Qed.

Lemma many_split (f : N -> bool) (t : jsstring) :
  exists ws, t = ws ++ many f t.
Proof. exists (take (spanLen f t) t). unfold many. by rewrite take_drop. Qed.

Lemma viewsTimeAt_shaped (t m : jsstring) :
  viewsTimeAt t = Some m -> timeShaped m /\ occursIn m t.
Proof.
  unfold viewsTimeAt. intros H.
  apply bind_Some in H as (t1 & ->%expect_split & H).
  destruct (many_split isWhiteSpace t1) as [w1 E1].
  apply bind_Some in H as (t2 & (ds & Hds & _)%many1_split & H).
  apply bind_Some in H as (t3 & ->%expect_split & H).
  destruct (many_split isWhiteSpace t3) as [w3 E3].
  apply bind_Some in H as (t4 & Ht4%expect_split & H).
  destruct (many_split isWhiteSpace t4) as [w4 E4].
  apply simpleTimeAt_shaped in H as (Hm & r & Hr). split; [done|].
  exists ([MIDDLE_DOT] ++ w1 ++ ds ++ sViews ++ w3 ++ [MIDDLE_DOT] ++ w4), r.
  rewrite Hr in E4. rewrite Ht4, E4 in E3. rewrite Hds, E3 in E1.
  rewrite E1 at 1. by rewrite <- !(assoc_L (++)).
Qed.

Lemma firstMatch_found (at_ : jsstring -> option jsstring) (s m : jsstring) :
  firstMatch at_ s = Some m -> exists a b, s = a ++ b /\ at_ b = Some m.
Proof.
  induction s as [|c s IH]; cbn [firstMatch].
  - destruct (at_ []) eqn:E; [|done]. intros [= <-]. by exists [], [].
  - destruct (at_ (c :: s)) eqn:E.
    + intros [= <-]. by exists [], (c :: s).
    + intros (a & b & -> & Hb)%IH. by exists (c :: a), b.
Qed.

Lemma trim_shaped (t : jsstring) : timeShaped t -> trim t = t.
Proof.
  intros (y & m & d & ws & h & mi & -> & Hy & _ & _ & _ & _ & Hmi & Hd & _).
  assert (Hdigit : forall c, isDigit c = true -> isWhiteSpace c = false).
  { intros c Hc. unfold isDigit in Hc. apply andb_true_iff in Hc as [H1 H2].
    apply N.leb_le in H1, H2. unfold isWhiteSpace.
    repeat (apply orb_false_iff; split);
      rewrite ?andb_false_iff, ?N.leb_gt, ?N.eqb_neq; lia. }
  rewrite !Forall_app in Hd. destruct Hd as (Hyd & _ & _ & _ & Hmid).
  unfold trim.
  assert (Hstart : forall s, match s with
                             | c :: _ => isWhiteSpace c = false
                             | [] => False
                             end -> trimStart s = s).
  { intros [|c s] Hs; [done|]. simpl. by rewrite Hs. }
  rewrite Hstart.
  2:{ destruct y as [|c y]; [done|]. simpl. apply Hdigit.
      by apply Forall_cons in Hyd as [? _]. }
  unfold trimEnd. rewrite Hstart; [by rewrite reverse_involutive|].
  rewrite !reverse_app.
  destruct mi as [|c1 [|c2 [|c3 mi]]]; try done.
  change (reverse [c1; c2]) with [c2; c1]. cbn [app].
  apply Hdigit. apply Forall_cons in Hmid as [_ Hmid].
  by apply Forall_cons in Hmid as [? _].
Qed.

(** X21.  The publish time taken from a listing entry is empty or has
    the shape of a date and a time, [YYYY-M-D H:MM] with one or two digits
    for the month, the day and the hour and white space between the day and
    the hour; when it is not empty it is a piece of the text of the entry. *)
Theorem publish_time_is_empty_or_shaped (fullText : option jsstring) :
  extractPublishTime fullText = []
  \/ (timeShaped (extractPublishTime fullText)
      /\ exists text, fullText = Some text
                      /\ occursIn (extractPublishTime fullText) text).
Proof.
  destruct fullText as [text|]; [|by left]. cbn [extractPublishTime].
  destruct (firstMatch viewsTimeAt text) as [m|] eqn:E1.
  - apply firstMatch_found in E1 as (a & b & -> & Hb).
    apply viewsTimeAt_shaped in Hb as (Hm & a' & b' & ->).
    right. rewrite trim_shaped by done. split; [done|].
    exists (a ++ a' ++ m ++ b'). split; [done|].
    exists (a ++ a'), b'. by rewrite <- !(assoc_L (++)).
  - destruct (firstMatch simpleTimeAt text) as [m|] eqn:E2; [|by left].
    apply firstMatch_found in E2 as (a & b & -> & Hb).
    apply simpleTimeAt_shaped in Hb as (Hm & r & ->).
    right. simpl. rewrite trim_shaped by done. split; [done|].
    exists (a ++ m ++ r). split; [done|]. by exists a, r.
Qed.

End ListingFacts.
(** ** The budget of the retry loop *)

Section BudgetFacts.
Import Js Dom Host Crawl.
Variable w : World.

Lemma retryLoop_budget (url : jsstring) (d : Z) (n attempt : nat)
    (e : option jsstring) (c : Crawler) :
  exists k j : nat,
    fetches (retryLoop w url d n attempt e c).1 = fetches c ++ replicate k url
    /\ sleeps (retryLoop w url d n attempt e c).1
       = sleeps c ++ backoff d attempt j
    /\ (k <= n)%nat /\ (j <= k <= S j)%nat /\ (S j <= n \/ n = 0)%nat.
Proof.
  revert attempt e c. induction n as [|n IH]; intros attempt e c.
  { exists 0%nat, 0%nat. simpl. rewrite !app_nil_r. repeat split; lia. }
  cbn [retryLoop]. destruct (aborted c).
  { exists 0%nat, 0%nat. simpl. rewrite !app_nil_r. repeat split; lia. }
  destruct (attemptResult _) as [res|msg].
  { exists 1%nat, 0%nat. simpl. rewrite app_nil_r. repeat split; lia. }
  destruct n as [|n].
  { exists 1%nat, 0%nat. simpl. rewrite app_nil_r. repeat split; lia. }
  match goal with |- context [retryLoop w url d (S n) (S attempt) ?e1 ?c1] =>
    destruct (IH (S attempt) e1 c1) as (k & j & Hf & Hs & Hk & Hj & Hn)
  end.
  exists (S k), (S j). rewrite Hf, Hs. simpl.
  rewrite <- !(assoc_L (++)). repeat split; try lia.
  unfold backoff. simpl. rewrite Nat.add_0_r. do 2 f_equal.
  rewrite <- seq_shift, map_map. apply map_ext. intros i.
  by rewrite Nat.add_succ_r.
Qed.

(** X25.  The budget of the retry loop holds whether or not the run is
    cancelled: one call of [fetchArticleContentWithRetry] asks for the
    detail page at most [retries + 1] times, always at the address it was
    given, and requests at most [retries] delays, which are the base delay
    times 1, 2, 4 and so on, one after every attempt but possibly the last
    one. *)
Theorem retry_budget_is_respected (articleUrl : jsstring)
    (retries : nat) (baseDelay : Z) (c : Crawler) :
  exists k j : nat,
    fetches (fetchArticleContentWithRetry w articleUrl retries baseDelay c).1
    = fetches c ++ replicate k articleUrl
    /\ sleeps (fetchArticleContentWithRetry w articleUrl retries baseDelay c).1
       = sleeps c ++ backoff baseDelay 0 j
    /\ (k <= retries + 1)%nat /\ (j <= retries)%nat /\ (j <= k <= S j)%nat.
Proof.
  unfold fetchArticleContentWithRetry.
  destruct (retryLoop_budget articleUrl baseDelay (S retries) 0 None c)
    as (k & j & Hf & Hs & Hk & Hj & Hn).
  exists k, j. repeat split; try done; lia.
Qed.

End BudgetFacts.
